(** * CBOE PITCH receiver: packet classification, sequence tracking, binary journal

    A shallow embedding of the packet pipeline of the receiver
    ([packet_types.{h,cpp}], [sequence_tracker.{h,cpp}], [packet_processor.cpp],
    [binary_logger.cpp]), of the journal reader ([binary_log_reader.cpp]) and
    of the test publisher and subscriber threads ([zmq_multi_publisher.cpp],
    [zmq_multi_subscriber.cpp]), and the properties checked against them.

    What lies outside the sources is kept outside the model: the journal is
    the list of strings handed to the spdlog logger, a clock reading and the
    result of [inet_aton] are inputs, and what [zmq_send], [zmq_recv] and
    [zmq_errno] return in an iteration is an input of that iteration.

    Conventions.
    - A C++ [uintN_t] value is a [Z] in [0, 2^N); every arithmetic operation of
      the source on such a value is written with its wrap-around ([u32_add],
      [u32_sub], [u64_incr]).
    - Bytes are [Byte.byte]; multi-byte fields are little-endian, as on the
      x86-64 hosts the program is built for.
    - [std::map] is stdpp's [gmap], [std::unordered_set] its [gset].
    - Loops whose trip count is not bounded by a constant take a [fuel : nat]
      and return [None] when it runs out. *)

From Stdlib Require Import ZArith Lia List.
From Stdlib.Strings Require Import Byte String Ascii.
From Stdlib Require Import DecimalString.
From stdpp Require Import base option list gmap.

Local Open Scope Z_scope.

(** ** Fixed-width unsigned arithmetic *)

Definition UINT16_MAX : Z := 65535.
Definition UINT32_MAX : Z := 4294967295.
Definition INT_MAX : Z := 2147483647.

Definition wrap8 (z : Z) : Z := z mod 2 ^ 8.
Definition wrap16 (z : Z) : Z := z mod 2 ^ 16.
Definition wrap32 (z : Z) : Z := z mod 2 ^ 32.
Definition wrap64 (z : Z) : Z := z mod 2 ^ 64.

Definition u32_add (a b : Z) : Z := wrap32 (a + b).
Definition u32_sub (a b : Z) : Z := wrap32 (a - b).
Definition u64_incr (a : Z) : Z := wrap64 (a + 1).

Definition is_u8 (z : Z) : Prop := 0 <= z < 2 ^ 8.
Definition is_u16 (z : Z) : Prop := 0 <= z < 2 ^ 16.
Definition is_u32 (z : Z) : Prop := 0 <= z < 2 ^ 32.
Definition is_u64 (z : Z) : Prop := 0 <= z < 2 ^ 64.

(** ** packet_types.h *)

Module Config.
Definition MAX_BUF : Z := 2048.
Definition SKIP_HEARTBEATS : bool := true.
Definition STATS_INTERVAL : Z := 100000.
Definition FLUSH_INTERVAL : Z := 1000000.
End Config.

Module PacketType.
Inductive t : Set := HEARTBEAT | ADMIN | UNSEQUENCED | DATA.

(** [static_cast<uint8_t>(packet_type)] *)
Definition to_u8 (p : t) : Z :=
  match p with HEARTBEAT => 0 | ADMIN => 1 | UNSEQUENCED => 2 | DATA => 3 end.

#[global] Instance eq_dec : EqDecision t.
Proof. solve_decision. Defined.
End PacketType.

Module OrderStatus.
Inductive t : Set :=
| UNSEQUENCED
| SEQUENCED_FIRST
| SEQUENCED_IN_ORDER
| SEQUENCED_OUT_OF_ORDER_LATE
| SEQUENCED_OUT_OF_ORDER_EARLY
| SEQUENCED_DUPLICATE.

(** [static_cast<uint8_t>(order_status)] *)
Definition to_u8 (s : t) : Z :=
  match s with
  | UNSEQUENCED => 0
  | SEQUENCED_FIRST => 1
  | SEQUENCED_IN_ORDER => 2
  | SEQUENCED_OUT_OF_ORDER_LATE => 3
  | SEQUENCED_OUT_OF_ORDER_EARLY => 4
  | SEQUENCED_DUPLICATE => 5
  end.

#[global] Instance eq_dec : EqDecision t.
Proof. solve_decision. Defined.
End OrderStatus.

(** [struct SequenceTracker]: both counters start at 0, the map starts empty. *)
Record SequenceTracker : Type := mkTracker {
  last_confirmed_seq : Z;
  highest_seen_seq : Z;
  pending_sequences : gmap Z bool
}.

Definition SequenceTracker_default : SequenceTracker :=
  {| last_confirmed_seq := 0; highest_seen_seq := 0; pending_sequences := ∅ |}.

(** ** sequence_tracker.cpp *)

(** [SequenceManager::trackers_], keyed by [(port, unit)]. *)
Abbreviation SequenceManager := (gmap (Z * Z) SequenceTracker).

(** [trackers_[key]]: [operator[]] default-constructs a missing entry. *)
Definition tracker_at (key : Z * Z) (trackers_ : SequenceManager) : SequenceTracker :=
  default SequenceTracker_default (trackers_ !! key).

(** Lines 98-105: the message count, at least 1, reduced to 1 by the overflow
    guard. *)
Definition initial_message_count (count : Z) : Z :=
  if 0 <? count then count else 1.

Definition guarded_message_count (seq count : Z) : Z :=
  let message_count := initial_message_count count in
  if u32_add (u32_sub UINT32_MAX message_count) 1 <? seq then 1 else message_count.

(** [seq + message_count - 1] in [uint32_t] arithmetic. *)
Definition range_end (seq message_count : Z) : Z :=
  u32_sub (u32_add seq message_count) 1.

(** [while (pending.find(confirmed_end + 1) != pending.end()) confirmed_end++;] *)
Fixpoint scan_run (fuel : nat) (pending : gmap Z bool) (confirmed_end : Z) : option Z :=
  match fuel with
  | O => None
  | S fuel' =>
      match pending !! u32_add confirmed_end 1 with
      | Some _ => scan_run fuel' pending (u32_add confirmed_end 1)
      | None => Some confirmed_end
      end
  end.

(** [for (uint32_t s = next_expected; s <= confirmed_end; s++) pending.erase(s);] *)
Fixpoint erase_run (fuel : nat) (pending : gmap Z bool) (s confirmed_end : Z)
  : option (gmap Z bool) :=
  match fuel with
  | O => None
  | S fuel' =>
      if s <=? confirmed_end
      then erase_run fuel' (delete s pending) (u32_add s 1) confirmed_end
      else Some pending
  end.

(** The [while (true)] loop of the in-order branch. [gas] bounds each inner
    loop, [fuel] the outer one. *)
Fixpoint absorb_pending (gas fuel : nat) (tracker : SequenceTracker)
  : option SequenceTracker :=
  match fuel with
  | O => None
  | S fuel' =>
      let next_expected := u32_add (last_confirmed_seq tracker) 1 in
      match pending_sequences tracker !! next_expected with
      | Some _ =>
          confirmed_end ← scan_run gas (pending_sequences tracker) next_expected;
          pending ← erase_run gas (pending_sequences tracker) next_expected confirmed_end;
          absorb_pending gas fuel'
            {| last_confirmed_seq := confirmed_end;
               highest_seen_seq := highest_seen_seq tracker;
               pending_sequences := pending |}
      | None => Some tracker
      end
  end.

(** [for (uint32_t i = 0; i < message_count; i++) pending[seq + i] = true;] *)
Definition mark_pending (seq message_count : Z) (pending : gmap Z bool) : gmap Z bool :=
  foldl (fun p i => <[u32_add seq i := true]> p) pending (seqZ 0 message_count).

(** The body of [determine_order_status] from the overflow guard on, acting on
    [tracker], the reference to the channel's entry. The result is the verdict
    and the entry after the call; [None] when the fuel does not suffice. *)
Definition determine_order_status_at (fuel : nat) (seq count : Z)
    (tracker : SequenceTracker) : option (OrderStatus.t * SequenceTracker) :=
  let message_count := guarded_message_count seq count in
  if (last_confirmed_seq tracker =? 0) && (highest_seen_seq tracker =? 0) then
    Some (OrderStatus.SEQUENCED_FIRST,
          {| last_confirmed_seq := range_end seq message_count;
             highest_seen_seq := range_end seq message_count;
             pending_sequences := pending_sequences tracker |})
  else
  let expected := u32_add (last_confirmed_seq tracker) 1 in
  if seq =? expected then
    tracker' ← absorb_pending fuel fuel
      {| last_confirmed_seq := range_end seq message_count;
         highest_seen_seq := highest_seen_seq tracker;
         pending_sequences := pending_sequences tracker |};
    Some (OrderStatus.SEQUENCED_IN_ORDER, tracker')
  else if seq <? expected then
    Some (if seq <=? last_confirmed_seq tracker
          then OrderStatus.SEQUENCED_DUPLICATE
          else OrderStatus.SEQUENCED_OUT_OF_ORDER_LATE,
          tracker)
  else
    Some (OrderStatus.SEQUENCED_OUT_OF_ORDER_EARLY,
          {| last_confirmed_seq := last_confirmed_seq tracker;
             highest_seen_seq :=
               Z.max (highest_seen_seq tracker) (range_end seq message_count);
             pending_sequences :=
               mark_pending seq message_count (pending_sequences tracker) |}).

(** [SequenceManager::determine_order_status]: sequence 0 returns before the
    map is touched; otherwise [trackers_[key]] is the entry the body works on. *)
Definition determine_order_status (fuel : nat) (seq count port unit : Z)
    (trackers_ : SequenceManager) : option (OrderStatus.t * SequenceManager) :=
  if seq =? 0 then Some (OrderStatus.UNSEQUENCED, trackers_) else
  let key := (port, unit) in
  '(verdict, tracker') ←
    determine_order_status_at fuel seq count (tracker_at key trackers_);
  Some (verdict, <[key := tracker']> trackers_).

(** A sequence of calls, threading the manager; the verdicts are returned in
    call order. A call is [(seq, count, port, unit)]. *)
Fixpoint feed (fuel : nat) (calls : list (Z * Z * Z * Z)) (trackers_ : SequenceManager)
  : option (list OrderStatus.t * SequenceManager) :=
  match calls with
  | [] => Some ([], trackers_)
  | (seq, count, port, unit) :: rest =>
      '(v, trackers') ← determine_order_status fuel seq count port unit trackers_;
      '(vs, trackers'') ← feed fuel rest trackers';
      Some (v :: vs, trackers'')
  end.

(** Enough fuel for any scan or erase over [uint32_t] keys. *)
Definition enough_fuel : nat := S (S (Z.to_nat (2 ^ 32))).

(** The same for one channel: the calls [(seq, count)] made with one
    [(port, unit)], acting on that channel's entry. *)
Fixpoint feed_channel (fuel : nat) (calls : list (Z * Z)) (tracker : SequenceTracker)
  : option (list OrderStatus.t * SequenceTracker) :=
  match calls with
  | [] => Some ([], tracker)
  | (seq, count) :: rest =>
      '(v, tracker') ← determine_order_status_at fuel seq count tracker;
      '(vs, tracker'') ← feed_channel fuel rest tracker';
      Some (v :: vs, tracker'')
  end.

Definition on_channel (port unit : Z) (call : Z * Z) : Z * Z * Z * Z :=
  (call.1, call.2, port, unit).

(** ** packet_types.cpp *)

(** [classify_packet_type(uint32_t seq, uint8_t count, int len)] *)
Definition classify_packet_type (seq count len : Z) : PacketType.t :=
  if seq =? 0 then
    if (count =? 0) && (len <=? 20) then PacketType.HEARTBEAT
    else if count =? 0 then PacketType.ADMIN
    else PacketType.UNSEQUENCED
  else PacketType.DATA.

(** [le16toh] and [le32toh] are the identity on a little-endian host. *)
Definition le16toh_safe (val : Z) : Z := val.
Definition le32toh_safe (val : Z) : Z := val.

(** ** Packet buffers and the packed 8-byte header *)

Definition byte_val (b : byte) : Z := Z.of_N (Byte.to_N b).

(** The byte at an offset of the buffer the pointer refers to. *)
Definition byte_at (buffer : list byte) (offset : nat) : Z :=
  byte_val (nth offset buffer x00).

(** A little-endian unsigned field of [width] bytes at an offset. *)
Fixpoint load_le (width : nat) (buffer : list byte) (offset : nat) : Z :=
  match width with
  | O => 0
  | S width' => byte_at buffer offset + 2 ^ 8 * load_le width' buffer (S offset)
  end.

Definition load_u16 : list byte -> nat -> Z := load_le 2.
Definition load_u32 : list byte -> nat -> Z := load_le 4.
Definition load_u64 : list byte -> nat -> Z := load_le 8.

Record CboeSequencedUnitHeader : Type := mkHeader {
  hdr_length : Z;
  hdr_count : Z;
  hdr_unit : Z;
  hdr_sequence : Z
}.

Definition sizeof_CboeSequencedUnitHeader : Z := 8.

(** [reinterpret_cast<const CboeSequencedUnitHeader*>(buffer)] *)
Definition header_of (buffer : list byte) : CboeSequencedUnitHeader :=
  {| hdr_length := load_u16 buffer 0;
     hdr_count := byte_at buffer 2;
     hdr_unit := byte_at buffer 3;
     hdr_sequence := load_u32 buffer 4 |}.

(** ** binary_logger.cpp *)

Definition byte_of_Z (z : Z) : byte :=
  match Byte.of_N (Z.to_N (z mod 2 ^ 8)) with
  | Some b => b
  | None => x00
  end.

(** The object representation of an unsigned field of [width] bytes. *)
Fixpoint le_bytes (width : nat) (v : Z) : list byte :=
  match width with
  | O => []
  | S width' => byte_of_Z v :: le_bytes width' (v / 2 ^ 8)
  end.

Module BinaryLogRecord.
Record t : Type := {
  timestamp_ns : Z;
  packet_id : Z;
  sequence : Z;
  src_ip : Z;
  port : Z;
  length : Z;
  count : Z;
  unit : Z;
  packet_type : Z;
  order_status : Z;
  payload_length : Z
}.
End BinaryLogRecord.

(** The [sizeof(BinaryLogRecord)] bytes at [&record]: the struct is packed, so
    the fields follow each other in declaration order without padding. *)
Definition record_bytes (r : BinaryLogRecord.t) : list byte :=
  le_bytes 8 (BinaryLogRecord.timestamp_ns r)
  ++ le_bytes 4 (BinaryLogRecord.packet_id r)
  ++ le_bytes 4 (BinaryLogRecord.sequence r)
  ++ le_bytes 4 (BinaryLogRecord.src_ip r)
  ++ le_bytes 2 (BinaryLogRecord.port r)
  ++ le_bytes 2 (BinaryLogRecord.length r)
  ++ le_bytes 1 (BinaryLogRecord.count r)
  ++ le_bytes 1 (BinaryLogRecord.unit r)
  ++ le_bytes 1 (BinaryLogRecord.packet_type r)
  ++ le_bytes 1 (BinaryLogRecord.order_status r)
  ++ le_bytes 2 (BinaryLogRecord.payload_length r).

Definition sizeof_BinaryLogRecord : Z := 30.

Inductive ConsoleMessage : Type :=
| InfoLoggingInitialized
| InfoProcessorInitialized
| WarnInvalidPacket (packet_id : Z)
| InfoPerformance (total_packets heartbeats_skipped out_of_order duplicates : Z).

(** The logger as the pipeline sees it: the entries handed to the asynchronous
    binary logger, the console messages, and the number of flush requests. *)
Record BinaryLogger : Type := {
  binary_logger_ : list (list byte);
  console_logger_ : list ConsoleMessage;
  flushes : nat
}.

(** [BinaryLogger::BinaryLogger()], that is [init_logging]. *)
Definition BinaryLogger_init : BinaryLogger :=
  {| binary_logger_ := []; console_logger_ := [InfoLoggingInitialized]; flushes := 0 |}.

(** [BinaryLogger::log_packet]; [now] is the clock reading in nanoseconds. *)
Definition log_packet (now : Z) (packet_id port : Z) (buffer : list byte) (len : Z)
    (sequence count unit : Z) (packet_type : PacketType.t)
    (order_status : OrderStatus.t) (src_ip : Z) (self : BinaryLogger) : BinaryLogger :=
  let payload_length := Z.min (wrap16 len) (wrap16 256) in
  let record :=
    {| BinaryLogRecord.timestamp_ns := now;
       BinaryLogRecord.packet_id := packet_id;
       BinaryLogRecord.sequence := sequence;
       BinaryLogRecord.src_ip := src_ip;
       BinaryLogRecord.port := port;
       BinaryLogRecord.length := len;
       BinaryLogRecord.count := count;
       BinaryLogRecord.unit := unit;
       BinaryLogRecord.packet_type := PacketType.to_u8 packet_type;
       BinaryLogRecord.order_status := OrderStatus.to_u8 order_status;
       BinaryLogRecord.payload_length := payload_length |} in
  let log_entry :=
    record_bytes record ++ take (Z.to_nat (payload_length)) buffer in
  {| binary_logger_ := binary_logger_ self ++ [log_entry];
     console_logger_ := console_logger_ self;
     flushes := flushes self |}.

Definition flush (self : BinaryLogger) : BinaryLogger :=
  {| binary_logger_ := binary_logger_ self;
     console_logger_ := console_logger_ self;
     flushes := S (flushes self) |}.

Definition log_console (m : ConsoleMessage) (self : BinaryLogger) : BinaryLogger :=
  {| binary_logger_ := binary_logger_ self;
     console_logger_ := console_logger_ self ++ [m];
     flushes := flushes self |}.

(** ** packet_processor.cpp *)

Record Statistics : Type := {
  total_packets : Z;
  heartbeats_skipped : Z;
  data_packets : Z;
  admin_packets : Z;
  unsequenced_packets : Z;
  out_of_order_packets : Z;
  duplicate_packets : Z
}.

Definition Statistics_init : Statistics :=
  {| total_packets := 0; heartbeats_skipped := 0; data_packets := 0;
     admin_packets := 0; unsequenced_packets := 0; out_of_order_packets := 0;
     duplicate_packets := 0 |}.

Record PacketProcessor : Type := {
  logger_ : BinaryLogger;
  sequence_manager_ : SequenceManager;
  stats_ : Statistics
}.

(** [PacketProcessor::PacketProcessor()] *)
Definition PacketProcessor_init : PacketProcessor :=
  {| logger_ := log_console InfoProcessorInitialized BinaryLogger_init;
     sequence_manager_ := ∅;
     stats_ := Statistics_init |}.

(** [PacketProcessor::validate_packet] *)
Definition validate_packet (buffer : list byte) (len : Z) : bool :=
  if len <? sizeof_CboeSequencedUnitHeader then false else
  let header := header_of buffer in
  let declared_length := le16toh_safe (hdr_length header) in
  if (declared_length =? 0) || (Config.MAX_BUF <? declared_length) then false else
  if len + 100 <? declared_length then false else
  true.

(** [PacketProcessor::should_report_statistics] *)
Definition should_report_statistics (stats : Statistics) : bool :=
  (total_packets stats mod Config.STATS_INTERVAL =? 0) && (0 <? total_packets stats).

(** [PacketProcessor::print_performance_report] (rate and elapsed time, read
    from the clock, are left out of the message). *)
Definition print_performance_report (stats : Statistics) (logger : BinaryLogger)
  : BinaryLogger :=
  log_console
    (InfoPerformance (total_packets stats) (heartbeats_skipped stats)
       (out_of_order_packets stats) (duplicate_packets stats))
    logger.

(** [stats_.total_packets++] and its siblings. *)
Definition count_total (s : Statistics) : Statistics :=
  {| total_packets := u64_incr (total_packets s);
     heartbeats_skipped := heartbeats_skipped s;
     data_packets := data_packets s;
     admin_packets := admin_packets s;
     unsequenced_packets := unsequenced_packets s;
     out_of_order_packets := out_of_order_packets s;
     duplicate_packets := duplicate_packets s |}.

Definition count_heartbeat_skipped (s : Statistics) : Statistics :=
  {| total_packets := total_packets s;
     heartbeats_skipped := u64_incr (heartbeats_skipped s);
     data_packets := data_packets s;
     admin_packets := admin_packets s;
     unsequenced_packets := unsequenced_packets s;
     out_of_order_packets := out_of_order_packets s;
     duplicate_packets := duplicate_packets s |}.

Definition count_data (s : Statistics) : Statistics :=
  {| total_packets := total_packets s;
     heartbeats_skipped := heartbeats_skipped s;
     data_packets := u64_incr (data_packets s);
     admin_packets := admin_packets s;
     unsequenced_packets := unsequenced_packets s;
     out_of_order_packets := out_of_order_packets s;
     duplicate_packets := duplicate_packets s |}.

Definition count_admin (s : Statistics) : Statistics :=
  {| total_packets := total_packets s;
     heartbeats_skipped := heartbeats_skipped s;
     data_packets := data_packets s;
     admin_packets := u64_incr (admin_packets s);
     unsequenced_packets := unsequenced_packets s;
     out_of_order_packets := out_of_order_packets s;
     duplicate_packets := duplicate_packets s |}.

Definition count_unsequenced (s : Statistics) : Statistics :=
  {| total_packets := total_packets s;
     heartbeats_skipped := heartbeats_skipped s;
     data_packets := data_packets s;
     admin_packets := admin_packets s;
     unsequenced_packets := u64_incr (unsequenced_packets s);
     out_of_order_packets := out_of_order_packets s;
     duplicate_packets := duplicate_packets s |}.

Definition count_out_of_order (s : Statistics) : Statistics :=
  {| total_packets := total_packets s;
     heartbeats_skipped := heartbeats_skipped s;
     data_packets := data_packets s;
     admin_packets := admin_packets s;
     unsequenced_packets := unsequenced_packets s;
     out_of_order_packets := u64_incr (out_of_order_packets s);
     duplicate_packets := duplicate_packets s |}.

Definition count_duplicate (s : Statistics) : Statistics :=
  {| total_packets := total_packets s;
     heartbeats_skipped := heartbeats_skipped s;
     data_packets := data_packets s;
     admin_packets := admin_packets s;
     unsequenced_packets := unsequenced_packets s;
     out_of_order_packets := out_of_order_packets s;
     duplicate_packets := u64_incr (duplicate_packets s) |}.

(** The second [switch] of [process_packet]. *)
Definition count_order_status (order_status : OrderStatus.t) (s : Statistics)
  : Statistics :=
  match order_status with
  | OrderStatus.SEQUENCED_OUT_OF_ORDER_EARLY
  | OrderStatus.SEQUENCED_OUT_OF_ORDER_LATE => count_out_of_order s
  | OrderStatus.SEQUENCED_DUPLICATE => count_duplicate s
  | _ => s
  end.

Section Pipeline.

(** libc's [inet_aton]: the address in network byte order, [None] when the
    text is not an address. *)
Variable inet_aton : string -> option Z.

(** [ip_to_binary] of packet_types.cpp *)
Definition ip_to_binary (ip_str : string) : Z :=
  match inet_aton ip_str with
  | None => 0
  | Some s_addr => s_addr
  end.

(** [process_packet] from "Determine sequence order status" to its end;
    [stats] already counts the packet and its type. *)
Definition track_and_log (fuel : nat) (now packet_id port : Z) (buffer : list byte)
    (len : Z) (src_ip : string) (sequence count unit : Z)
    (packet_type : PacketType.t) (stats : Statistics) (self : PacketProcessor)
  : option PacketProcessor :=
  '(order_status, manager) ←
    determine_order_status fuel sequence count port unit (sequence_manager_ self);
  let stats := count_order_status order_status stats in
  let src_ip_binary := ip_to_binary src_ip in
  let logger :=
    log_packet now (wrap32 packet_id) (wrap16 port) buffer (wrap16 len)
      sequence count unit packet_type order_status src_ip_binary (logger_ self) in
  let logger :=
    if should_report_statistics stats
    then print_performance_report stats logger else logger in
  let logger :=
    if total_packets stats mod Config.FLUSH_INTERVAL =? 0
    then flush logger else logger in
  Some {| logger_ := logger; sequence_manager_ := manager; stats_ := stats |}.

(** [PacketProcessor::process_packet]; [now] is the clock reading taken by the
    logger. *)
Definition process_packet (fuel : nat) (now packet_id port : Z) (buffer : list byte)
    (len : Z) (src_ip : string) (self : PacketProcessor) : option PacketProcessor :=
  let stats := count_total (stats_ self) in
  if negb (validate_packet buffer len) then
    Some {| logger_ := log_console (WarnInvalidPacket packet_id) (logger_ self);
            sequence_manager_ := sequence_manager_ self;
            stats_ := stats |}
  else
  let header := header_of buffer in
  let sequence := le32toh_safe (hdr_sequence header) in
  let count := hdr_count header in
  let unit := hdr_unit header in
  let packet_type := classify_packet_type sequence count len in
  let continue := track_and_log fuel now packet_id port buffer len src_ip
                    sequence count unit packet_type in
  match packet_type with
  | PacketType.HEARTBEAT =>
      if Config.SKIP_HEARTBEATS then
        Some {| logger_ := logger_ self;
                sequence_manager_ := sequence_manager_ self;
                stats_ := count_heartbeat_skipped stats |}
      else continue stats self
  | PacketType.DATA => continue (count_data stats) self
  | PacketType.ADMIN => continue (count_admin stats) self
  | PacketType.UNSEQUENCED => continue (count_unsequenced stats) self
  end.

(** A received datagram as the capture loop hands it to the callback, with the
    clock reading its record gets. *)
Record Datagram : Type := {
  dg_now : Z;
  dg_packet_id : Z;
  dg_port : Z;
  dg_buffer : list byte;
  dg_len : Z;
  dg_src_ip : string
}.

Definition process_datagram (fuel : nat) (d : Datagram) (self : PacketProcessor)
  : option PacketProcessor :=
  process_packet fuel (dg_now d) (dg_packet_id d) (dg_port d) (dg_buffer d)
    (dg_len d) (dg_src_ip d) self.

(** The callback applied to the datagrams of a capture, in order. *)
Fixpoint process_all (fuel : nat) (ds : list Datagram) (self : PacketProcessor)
  : option PacketProcessor :=
  match ds with
  | [] => Some self
  | d :: rest =>
      self' ← process_datagram fuel d self;
      process_all fuel rest self'
  end.

(** The number of datagrams [validate_packet] rejects. *)
Definition invalid_count (ds : list Datagram) : Z :=
  Z.of_nat (List.length
    (List.filter (fun d => negb (validate_packet (dg_buffer d) (dg_len d))) ds)).

End Pipeline.

(** A small capture: a runt, a heartbeat, a data packet with sequence 1, and
    an unsequenced packet with one message. *)
Definition sample_capture : list Datagram :=
  [ {| dg_now := 1000; dg_packet_id := 1; dg_port := 30501;
       dg_buffer := [x03; x00; x00]; dg_len := 3; dg_src_ip := "10.0.0.1" |};
    {| dg_now := 2000; dg_packet_id := 2; dg_port := 30501;
       dg_buffer := [x08; x00; x00; x01; x00; x00; x00; x00];
       dg_len := 8; dg_src_ip := "10.0.0.1" |};
    {| dg_now := 3000; dg_packet_id := 3; dg_port := 30502;
       dg_buffer := [x09; x00; x01; x01; x01; x00; x00; x00; x41];
       dg_len := 9; dg_src_ip := "10.0.0.1" |};
    {| dg_now := 4000; dg_packet_id := 4; dg_port := 30502;
       dg_buffer := [x09; x00; x01; x01; x00; x00; x00; x00; x42];
       dg_len := 9; dg_src_ip := "10.0.0.1" |} ].

(** ** More of sequence_tracker.cpp *)

(** [SequenceManager::get_tracker]: the channel's entry, [None] for the null
    pointer it returns when the channel has none. *)
Definition get_tracker (port unit : Z) (trackers_ : SequenceManager)
  : option SequenceTracker :=
  trackers_ !! (port, unit).

(** [SequenceManager::clear] *)
Definition clear (trackers_ : SequenceManager) : SequenceManager := ∅.

(** [SequenceManager::get_tracker_count] *)
Definition get_tracker_count (trackers_ : SequenceManager) : nat := size trackers_.

(** The arguments [determine_order_status] can receive: a [uint32_t] sequence
    and a [uint8_t] count. *)
Definition call_ok (call : Z * Z * Z * Z) : Prop :=
  is_u32 call.1.1.1 /\ is_u8 call.1.1.2.

(** A call none of whose sequences is [UINT32_MAX]. *)
Definition below_top (call : Z * Z * Z * Z) : Prop :=
  call_ok call /\ call.1.1.1 + Z.max call.1.1.2 1 <= UINT32_MAX.

(** The channels that received a sequenced packet. *)
Definition sequenced_channels (calls : list (Z * Z * Z * Z)) : gset (Z * Z) :=
  list_to_set ((fun call => (call.1.2, call.2))
                 <$> List.filter (fun call => negb (call.1.1.1 =? 0)) calls).

(** What every entry of the map satisfies between calls. *)
Record tracker_inv (t : SequenceTracker) : Prop := {
  inv_confirmed : is_u32 (last_confirmed_seq t);
  inv_highest : is_u32 (highest_seen_seq t);
  inv_fresh : last_confirmed_seq t = 0 ->
              highest_seen_seq t = 0 /\ pending_sequences t = ∅;
  inv_keys : forall k, is_Some (pending_sequences t !! k) -> 1 <= k <= UINT32_MAX;
  inv_expected : pending_sequences t !! u32_add (last_confirmed_seq t) 1 = None
}.

(** A gap-free stream: each packet starts where the one before ended. *)
Fixpoint contiguous (seq : Z) (calls : list (Z * Z)) : Prop :=
  match calls with
  | [] => True
  | (s, count) :: rest =>
      s = seq /\ is_u8 count /\ contiguous (seq + Z.max count 1) rest
  end.

(** The sequence after the last one a gap-free stream covers. *)
Fixpoint stream_end (seq : Z) (calls : list (Z * Z)) : Z :=
  match calls with
  | [] => seq
  | (_, count) :: rest => stream_end (seq + Z.max count 1) rest
  end.

(** ** What the pipeline does with a capture *)

(** The datagrams that get past validation and the heartbeat filter. *)
Definition journaled (d : Datagram) : bool :=
  validate_packet (dg_buffer d) (dg_len d)
  && negb (bool_decide
             (classify_packet_type (le32toh_safe (hdr_sequence (header_of (dg_buffer d))))
                (hdr_count (header_of (dg_buffer d))) (dg_len d)
              = PacketType.HEARTBEAT)).

(** The arguments [process_packet] passes to [determine_order_status]. *)
Definition call_of (d : Datagram) : Z * Z * Z * Z :=
  (le32toh_safe (hdr_sequence (header_of (dg_buffer d))),
   hdr_count (header_of (dg_buffer d)),
   dg_port d,
   hdr_unit (header_of (dg_buffer d))).

(** The record [process_packet] has [log_packet] build for a datagram, given
    the binary source address and the tracker's verdict. *)
Definition record_of (d : Datagram) (src_ip_binary : Z) (order_status : OrderStatus.t)
  : BinaryLogRecord.t :=
  {| BinaryLogRecord.timestamp_ns := dg_now d;
     BinaryLogRecord.packet_id := wrap32 (dg_packet_id d);
     BinaryLogRecord.sequence := le32toh_safe (hdr_sequence (header_of (dg_buffer d)));
     BinaryLogRecord.src_ip := src_ip_binary;
     BinaryLogRecord.port := wrap16 (dg_port d);
     BinaryLogRecord.length := wrap16 (dg_len d);
     BinaryLogRecord.count := hdr_count (header_of (dg_buffer d));
     BinaryLogRecord.unit := hdr_unit (header_of (dg_buffer d));
     BinaryLogRecord.packet_type :=
       PacketType.to_u8
         (classify_packet_type (le32toh_safe (hdr_sequence (header_of (dg_buffer d))))
            (hdr_count (header_of (dg_buffer d))) (dg_len d));
     BinaryLogRecord.order_status := OrderStatus.to_u8 order_status;
     BinaryLogRecord.payload_length := Z.min (wrap16 (dg_len d)) 256 |}.

(** The journal entry for it: the record, then the stored part of the packet. *)
Definition journal_entry (d : Datagram) (src_ip_binary : Z) (order_status : OrderStatus.t)
  : list byte :=
  record_bytes (record_of d src_ip_binary order_status)
  ++ take (Z.to_nat (Z.min (wrap16 (dg_len d)) 256)) (dg_buffer d).

(** ** binary_log_reader.cpp: reading the journal back *)

(** The [sizeof(BinaryLogRecord)] bytes read into [&record], as the fields of
    the packed struct. *)
Definition record_of_bytes (bytes : list byte) : BinaryLogRecord.t :=
  {| BinaryLogRecord.timestamp_ns := load_u64 bytes 0;
     BinaryLogRecord.packet_id := load_u32 bytes 8;
     BinaryLogRecord.sequence := load_u32 bytes 12;
     BinaryLogRecord.src_ip := load_u32 bytes 16;
     BinaryLogRecord.port := load_u16 bytes 20;
     BinaryLogRecord.length := load_u16 bytes 22;
     BinaryLogRecord.count := load_le 1 bytes 24;
     BinaryLogRecord.unit := load_le 1 bytes 25;
     BinaryLogRecord.packet_type := load_le 1 bytes 26;
     BinaryLogRecord.order_status := load_le 1 bytes 27;
     BinaryLogRecord.payload_length := load_u16 bytes 28 |}.

(** [class BinaryLogReader]: the part of the file the stream has not consumed,
    whether the stream is still good, and the two counters. *)
Record BinaryLogReader : Type := {
  file : list byte;
  good : bool;
  file_size : Z;
  bytes_read : Z
}.

(** The constructor, on a file that could be opened. *)
Definition BinaryLogReader_open (contents : list byte) : BinaryLogReader :=
  {| file := contents; good := true;
     file_size := Z.of_nat (List.length contents); bytes_read := 0 |}.

(** [file.read(p, n)] followed by [file.gcount()]: the bytes extracted and the
    stream after it. A stream that is not good extracts nothing; one that
    runs out of bytes hands over what is left and fails. *)
Definition stream_read (n : nat) (self : BinaryLogReader) : list byte * BinaryLogReader :=
  if good self then
    if (n <=? List.length (file self))%nat then
      (take n (file self),
       {| file := drop n (file self); good := true;
          file_size := file_size self; bytes_read := bytes_read self |})
    else
      (file self,
       {| file := []; good := false;
          file_size := file_size self; bytes_read := bytes_read self |})
  else ([], self).

Definition add_bytes_read (n : Z) (self : BinaryLogReader) : BinaryLogReader :=
  {| file := file self; good := good self; file_size := file_size self;
     bytes_read := wrap64 (bytes_read self + n) |}.

(** [BinaryLogReader::read_record]: [Some (record, payload)] when it returns
    true, [None] when it returns false (the caller then ignores both
    out-parameters). *)
Definition read_record (self : BinaryLogReader)
  : option (BinaryLogRecord.t * list byte) * BinaryLogReader :=
  if file_size self <=? bytes_read self then (None, self) else
  let '(header, self) := stream_read 30 self in
  if negb (Z.of_nat (List.length header) =? sizeof_BinaryLogRecord) then (None, self) else
  let record := record_of_bytes header in
  let self := add_bytes_read sizeof_BinaryLogRecord self in
  if 0 <? BinaryLogRecord.payload_length record then
    let '(payload, self) :=
      stream_read (Z.to_nat (BinaryLogRecord.payload_length record)) self in
    if negb (Z.of_nat (List.length payload) =? BinaryLogRecord.payload_length record)
    then (None, self)
    else (Some (record, payload),
          add_bytes_read (BinaryLogRecord.payload_length record) self)
  else (Some (record, []), self).

(** The loop [while (reader.read_record(record, payload))] of [main]: the
    records it gets before the first failure. *)
Fixpoint read_all (fuel : nat) (self : BinaryLogReader)
  : option (list (BinaryLogRecord.t * list byte)) :=
  match fuel with
  | O => None
  | S fuel' =>
      match read_record self with
      | (None, _) => Some []
      | (Some entry, self') =>
          entries ← read_all fuel' self';
          Some (entry :: entries)
      end
  end.

(** A reader in step with its file: the stream is good and the bytes counted
    plus the bytes left make up the file. *)
Definition in_step (self : BinaryLogReader) : Prop :=
  good self = true
  /\ 0 <= bytes_read self
  /\ bytes_read self + Z.of_nat (List.length (file self)) = file_size self
  /\ file_size self < 2 ^ 64.

(** A record whose fields fit their types, stored with a payload of the
    length it declares. *)
Definition well_formed (entry : BinaryLogRecord.t * list byte) : Prop :=
  let '(r, payload) := entry in
  is_u64 (BinaryLogRecord.timestamp_ns r)
  /\ is_u32 (BinaryLogRecord.packet_id r)
  /\ is_u32 (BinaryLogRecord.sequence r)
  /\ is_u32 (BinaryLogRecord.src_ip r)
  /\ is_u16 (BinaryLogRecord.port r)
  /\ is_u16 (BinaryLogRecord.length r)
  /\ is_u8 (BinaryLogRecord.count r)
  /\ is_u8 (BinaryLogRecord.unit r)
  /\ is_u8 (BinaryLogRecord.packet_type r)
  /\ is_u8 (BinaryLogRecord.order_status r)
  /\ is_u16 (BinaryLogRecord.payload_length r)
  /\ Z.of_nat (List.length payload) = BinaryLogRecord.payload_length r.

(** The bytes of an entry as [log_packet] lays them out. *)
Definition entry_bytes (entry : BinaryLogRecord.t * list byte) : list byte :=
  record_bytes entry.1 ++ entry.2.

(** A record and its stored payload, for examples. *)
Definition sample_entry : BinaryLogRecord.t * list byte :=
  ({| BinaryLogRecord.timestamp_ns := 1700000000000000000;
      BinaryLogRecord.packet_id := 7;
      BinaryLogRecord.sequence := 42;
      BinaryLogRecord.src_ip := 16777343;
      BinaryLogRecord.port := 30501;
      BinaryLogRecord.length := 9;
      BinaryLogRecord.count := 1;
      BinaryLogRecord.unit := 1;
      BinaryLogRecord.packet_type := 3;
      BinaryLogRecord.order_status := 1;
      BinaryLogRecord.payload_length := 9 |},
   [x09; x00; x01; x01; x2a; x00; x00; x00; x41]).

(** A datagram as the capture loops hand it over: the clock reading is a
    [uint64_t] and the buffer holds the [len] bytes received. *)
Definition capture_ok (d : Datagram) : Prop :=
  is_u64 (dg_now d) /\ 0 <= dg_len d <= Z.of_nat (List.length (dg_buffer d)).

(** What the journal stores for a datagram: its record and the stored part of
    the packet. *)
Definition stored (d : Datagram) (src_ip_binary : Z) (order_status : OrderStatus.t)
  : BinaryLogRecord.t * list byte :=
  (record_of d src_ip_binary order_status,
   take (Z.to_nat (Z.min (wrap16 (dg_len d)) 256)) (dg_buffer d)).

(** ** Message types *)

Module MessageTypeInfo.
Record t : Type := {
  type_id : Z;
  name : string;
  description : string;
  min_length : Z
}.
End MessageTypeInfo.

(** [CBOE_MESSAGE_TYPES] of packet_types.cpp. *)
Definition CBOE_MESSAGE_TYPES : list MessageTypeInfo.t :=
  [ MessageTypeInfo.Build_t 0x97 "UNIT_CLEAR" "Unit Clear" 2;
    MessageTypeInfo.Build_t 0x3B "TRADING_STATUS" "Trading Status" 8;
    MessageTypeInfo.Build_t 0x37 "ADD_ORDER" "Add Order" 34;
    MessageTypeInfo.Build_t 0x38 "ORDER_EXECUTED" "Order Executed" 30;
    MessageTypeInfo.Build_t 0x58 "ORDER_EXECUTED_AT_PRICE" "Order Executed at Price" 38;
    MessageTypeInfo.Build_t 0x39 "REDUCE_SIZE" "Reduce Size" 18;
    MessageTypeInfo.Build_t 0x3A "MODIFY_ORDER" "Modify Order" 34;
    MessageTypeInfo.Build_t 0x3C "DELETE_ORDER" "Delete Order" 18;
    MessageTypeInfo.Build_t 0x3D "TRADE" "Trade" 42;
    MessageTypeInfo.Build_t 0x3E "TRADE_BREAK" "Trade Break" 18;
    MessageTypeInfo.Build_t 0xE3 "CALCULATED_VALUE" "Calculated Value" 26;
    MessageTypeInfo.Build_t 0x2D "END_OF_SESSION" "End of Session" 2;
    MessageTypeInfo.Build_t 0x59 "AUCTION_UPDATE" "Auction Update" 30;
    MessageTypeInfo.Build_t 0x5A "AUCTION_SUMMARY" "Auction Summary" 30;
    MessageTypeInfo.Build_t 0x01 "LOGIN" "Login" 44;
    MessageTypeInfo.Build_t 0x02 "LOGIN_RESPONSE" "Login Response" 3;
    MessageTypeInfo.Build_t 0x03 "GAP_REQUEST" "Gap Request" 20;
    MessageTypeInfo.Build_t 0x04 "GAP_RESPONSE" "Gap Response" 20;
    MessageTypeInfo.Build_t 0x80 "SPIN_IMAGE_AVAILABLE" "Spin Image Available" 20;
    MessageTypeInfo.Build_t 0x81 "SPIN_REQUEST" "Spin Request" 20;
    MessageTypeInfo.Build_t 0x82 "SPIN_RESPONSE" "Spin Response" 20;
    MessageTypeInfo.Build_t 0x83 "SPIN_FINISHED" "Spin Finished" 20 ].

(** The loop of [lookup_message_type] over a table whose entries carry their
    id: the first entry with the id, [None] for [nullptr]. *)
Fixpoint lookup_in {A : Type} (id_of : A -> Z) (table : list A) (type_id : Z)
  : option A :=
  match table with
  | [] => None
  | info :: rest =>
      if id_of info =? type_id then Some info
      else lookup_in id_of rest type_id
  end.

Definition lookup_message_type (type_id : Z) : option MessageTypeInfo.t :=
  lookup_in MessageTypeInfo.type_id CBOE_MESSAGE_TYPES type_id.

(** The reader's own [MessageTypeInfo], table and [lookup_message_type]
    (binary_log_reader.cpp). *)
Module Reader.
Record MessageTypeInfo : Type := {
  type_id : Z;
  name : string;
  description : string
}.

Definition CBOE_MESSAGE_TYPES : list MessageTypeInfo :=
  [ Build_MessageTypeInfo 0x97 "UNIT_CLEAR" "Unit Clear";
    Build_MessageTypeInfo 0x3B "TRADING_STATUS" "Trading Status";
    Build_MessageTypeInfo 0x37 "ADD_ORDER" "Add Order";
    Build_MessageTypeInfo 0x38 "ORDER_EXECUTED" "Order Executed";
    Build_MessageTypeInfo 0x58 "ORDER_EXECUTED_AT_PRICE" "Order Executed at Price";
    Build_MessageTypeInfo 0x39 "REDUCE_SIZE" "Reduce Size";
    Build_MessageTypeInfo 0x3A "MODIFY_ORDER" "Modify Order";
    Build_MessageTypeInfo 0x3C "DELETE_ORDER" "Delete Order";
    Build_MessageTypeInfo 0x3D "TRADE" "Trade";
    Build_MessageTypeInfo 0x3E "TRADE_BREAK" "Trade Break";
    Build_MessageTypeInfo 0xE3 "CALCULATED_VALUE" "Calculated Value";
    Build_MessageTypeInfo 0x2D "END_OF_SESSION" "End of Session";
    Build_MessageTypeInfo 0x59 "AUCTION_UPDATE" "Auction Update";
    Build_MessageTypeInfo 0x5A "AUCTION_SUMMARY" "Auction Summary";
    Build_MessageTypeInfo 0x01 "LOGIN" "Login";
    Build_MessageTypeInfo 0x02 "LOGIN_RESPONSE" "Login Response";
    Build_MessageTypeInfo 0x03 "GAP_REQUEST" "Gap Request";
    Build_MessageTypeInfo 0x04 "GAP_RESPONSE" "Gap Response";
    Build_MessageTypeInfo 0x80 "SPIN_IMAGE_AVAILABLE" "Spin Image Available";
    Build_MessageTypeInfo 0x81 "SPIN_REQUEST" "Spin Request";
    Build_MessageTypeInfo 0x82 "SPIN_RESPONSE" "Spin Response";
    Build_MessageTypeInfo 0x83 "SPIN_FINISHED" "Spin Finished" ].

Definition lookup_message_type (id : Z) : option MessageTypeInfo :=
  lookup_in type_id CBOE_MESSAGE_TYPES id.
End Reader.

(** ** binary_log_reader.cpp: names and message framing *)



Definition hex_digit (d : Z) : ascii :=
  nth (Z.to_nat d)
    ["0"; "1"; "2"; "3"; "4"; "5"; "6"; "7"; "8"; "9"; "a"; "b"; "c"; "d"; "e"; "f"]%char
    "0"%char.

(** [std::hex << std::setfill('0') << std::setw(2)] of a byte. *)
Definition hex2 (b : Z) : string :=
  String (hex_digit (b / 16)) (String (hex_digit (b mod 16)) EmptyString).

(** [std::dec] of a byte. *)
Definition decimal (n : Z) : string :=
  DecimalString.NilZero.string_of_uint (N.to_uint (Z.to_N n)).

(** One line of [parse_payload_messages]. *)
Definition message_line (msg_type msg_length : Z) : string :=
  let type_name :=
    match Reader.lookup_message_type msg_type with
    | Some info => Reader.name info
    | None => "UNKNOWN"%string
    end in
  ("Type=0x" ++ hex2 msg_type ++ " (" ++ type_name ++ "), Len=" ++ decimal msg_length)%string.

(** The loop of [parse_payload_messages]; [remaining] is what is left of the
    100 messages it stops at. *)
Fixpoint parse_messages_loop (remaining : nat) (payload : list byte) (offset : Z)
  : list string :=
  match remaining with
  | O => []
  | S remaining' =>
      let size := Z.of_nat (List.length payload) in
      if negb (offset <? size) then [] else
      if size <? offset + 2 then [] else
      let msg_length := byte_at payload (Z.to_nat offset) in
      let msg_type := byte_at payload (Z.to_nat offset + 1) in
      if (msg_length =? 0) || (size <? offset + msg_length) then [] else
      message_line msg_type msg_length
        :: parse_messages_loop remaining' payload (offset + msg_length)
  end.

Definition parse_payload_messages (payload : list byte) : list string :=
  if Z.of_nat (List.length payload) <? sizeof_CboeSequencedUnitHeader then []
  else parse_messages_loop 100 payload sizeof_CboeSequencedUnitHeader.

(** [counts[key]++] on a [std::map] with [uint64_t] values. *)
Definition bump (key : Z) (counts : gmap Z Z) : gmap Z Z :=
  <[key := u64_incr (default 0 (counts !! key))]> counts.

(** The message loop of [LogStatistics::update]. *)
Fixpoint count_messages_loop (fuel : nat) (payload : list byte) (offset : Z)
    (counts : gmap Z Z) : option (gmap Z Z) :=
  match fuel with
  | O => None
  | S fuel' =>
      let size := Z.of_nat (List.length payload) in
      if size <? offset + 2 then Some counts else
      let msg_length := byte_at payload (Z.to_nat offset) in
      let msg_type := byte_at payload (Z.to_nat offset + 1) in
      if (msg_length =? 0) || (size <? offset + msg_length) then Some counts else
      let counts := bump msg_type counts in
      let offset := offset + msg_length in
      if size <=? offset then Some counts
      else count_messages_loop fuel' payload offset counts
  end.

(** The messages framed in a payload from an offset on, as (type, length):
    each has a two-byte header inside the payload, a non-zero length, and
    ends inside the payload; the next one starts where it ends. *)
Inductive frames_from (payload : list byte) (offset : Z) : list (Z * Z) -> Prop :=
| frames_stop :
    Z.of_nat (List.length payload) < offset + 2
    \/ byte_at payload (Z.to_nat offset) = 0
    \/ Z.of_nat (List.length payload) < offset + byte_at payload (Z.to_nat offset) ->
    frames_from payload offset []
| frames_step (rest : list (Z * Z)) :
    offset + 2 <= Z.of_nat (List.length payload) ->
    byte_at payload (Z.to_nat offset) <> 0 ->
    offset + byte_at payload (Z.to_nat offset) <= Z.of_nat (List.length payload) ->
    frames_from payload (offset + byte_at payload (Z.to_nat offset)) rest ->
    frames_from payload offset
      ((byte_at payload (Z.to_nat offset + 1), byte_at payload (Z.to_nat offset)) :: rest).

(** ** binary_log_reader.cpp: statistics and filters *)

Definition UINT64_MAX : Z := 18446744073709551615.

Module LogStatistics.
Record t : Type := {
  total_records : Z;
  packet_type_counts : gmap Z Z;
  order_status_counts : gmap Z Z;
  port_counts : gmap Z Z;
  unit_counts : gmap Z Z;
  message_type_counts : gmap Z Z;
  min_timestamp : Z;
  max_timestamp : Z;
  min_sequence : Z;
  max_sequence : Z;
  out_of_order_count : Z;
  duplicate_count : Z
}.

(** The default member initialisers. *)
Definition init : t :=
  {| total_records := 0;
     packet_type_counts := ∅;
     order_status_counts := ∅;
     port_counts := ∅;
     unit_counts := ∅;
     message_type_counts := ∅;
     min_timestamp := UINT64_MAX;
     max_timestamp := 0;
     min_sequence := UINT32_MAX;
     max_sequence := 0;
     out_of_order_count := 0;
     duplicate_count := 0 |}.

(** [LogStatistics::update]; [gas] bounds the message loop. *)
Definition update (gas : nat) (record : BinaryLogRecord.t) (payload : list byte)
    (self : t) : option t :=
  let status := BinaryLogRecord.order_status record in
  counted_messages ←
    (if sizeof_CboeSequencedUnitHeader <=? Z.of_nat (List.length payload)
     then count_messages_loop gas payload sizeof_CboeSequencedUnitHeader
            (message_type_counts self)
     else Some (message_type_counts self));
  Some
    {| total_records := u64_incr (total_records self);
       packet_type_counts :=
         bump (BinaryLogRecord.packet_type record) (packet_type_counts self);
       order_status_counts :=
         bump (BinaryLogRecord.order_status record) (order_status_counts self);
       port_counts := bump (BinaryLogRecord.port record) (port_counts self);
       unit_counts := bump (BinaryLogRecord.unit record) (unit_counts self);
       message_type_counts := counted_messages;
       min_timestamp := Z.min (min_timestamp self) (BinaryLogRecord.timestamp_ns record);
       max_timestamp := Z.max (max_timestamp self) (BinaryLogRecord.timestamp_ns record);
       min_sequence :=
         if 0 <? BinaryLogRecord.sequence record
         then Z.min (min_sequence self) (BinaryLogRecord.sequence record)
         else min_sequence self;
       max_sequence :=
         if 0 <? BinaryLogRecord.sequence record
         then Z.max (max_sequence self) (BinaryLogRecord.sequence record)
         else max_sequence self;
       out_of_order_count :=
         if (status =? OrderStatus.to_u8 OrderStatus.SEQUENCED_OUT_OF_ORDER_EARLY)
            || (status =? OrderStatus.to_u8 OrderStatus.SEQUENCED_OUT_OF_ORDER_LATE)
         then u64_incr (out_of_order_count self) else out_of_order_count self;
       duplicate_count :=
         if status =? OrderStatus.to_u8 OrderStatus.SEQUENCED_DUPLICATE
         then u64_incr (duplicate_count self) else duplicate_count self |}.
End LogStatistics.

(** [struct Options] *)
Module Options.
Record t : Type := {
  filename : string;
  show_statistics : bool;
  show_details : bool;
  show_messages : bool;
  max_records : Z;
  filter_sequence_start : Z;
  filter_sequence_end : Z;
  filter_port : Z;
  filter_packet_type : Z;
  help : bool
}.

(** The default member initialisers; 255 is "no filter". *)
Definition init : t :=
  {| filename := ""; show_statistics := false; show_details := false;
     show_messages := false; max_records := 0; filter_sequence_start := 0;
     filter_sequence_end := 0; filter_port := 0; filter_packet_type := 255;
     help := false |}.
End Options.

(** "Apply filters" in the loop of [main]. *)
Definition pass_filter (opts : Options.t) (record : BinaryLogRecord.t) : bool :=
  let pass_filter := true in
  let pass_filter :=
    if negb (Options.filter_port opts =? 0)
       && negb (BinaryLogRecord.port record =? Options.filter_port opts)
    then false else pass_filter in
  let pass_filter :=
    if negb (Options.filter_packet_type opts =? 255)
       && negb (BinaryLogRecord.packet_type record =? Options.filter_packet_type opts)
    then false else pass_filter in
  let pass_filter :=
    if (0 <? Options.filter_sequence_start opts)
       && (BinaryLogRecord.sequence record <? Options.filter_sequence_start opts)
    then false else pass_filter in
  let pass_filter :=
    if (0 <? Options.filter_sequence_end opts)
       && (Options.filter_sequence_end opts <? BinaryLogRecord.sequence record)
    then false else pass_filter in
  pass_filter.

(** The loop of [main]: [records_processed] and the statistics at the first
    [read_record] that fails. What the loop prints is left out. *)
Fixpoint main_loop (fuel gas : nat) (opts : Options.t) (reader : BinaryLogReader)
    (records_processed : Z) (stats : LogStatistics.t)
  : option (Z * LogStatistics.t) :=
  match fuel with
  | O => None
  | S fuel' =>
      match read_record reader with
      | (None, _) => Some (records_processed, stats)
      | (Some (record, payload), reader) =>
          let records_processed := u64_incr records_processed in
          stats ← (if pass_filter opts record
                   then LogStatistics.update gas record payload stats
                   else Some stats);
          main_loop fuel' gas opts reader records_processed stats
      end
  end.

(** [update] applied to a list of entries, in order. *)
Fixpoint update_all (gas : nat) (entries : list (BinaryLogRecord.t * list byte))
    (stats : LogStatistics.t) : option LogStatistics.t :=
  match entries with
  | [] => Some stats
  | (record, payload) :: rest =>
      stats ← LogStatistics.update gas record payload stats;
      update_all gas rest stats
  end.

(** The number of entries whose record satisfies a test. *)
Definition records_where (test : BinaryLogRecord.t -> bool)
    (entries : list (BinaryLogRecord.t * list byte)) : Z :=
  Z.of_nat (List.length (List.filter (fun entry => test entry.1) entries)).

(** ** The test publisher and subscriber threads *)

Definition EAGAIN : Z := 11.
Definition ETIMEDOUT : Z := 110.

(** The first [packet_size] bytes of [packet_data] after the four [memcpy]s
    of the header variables (on a little-endian host) and the loop that fills
    in the random bytes; [random] are the values drawn, in order. *)
Definition publisher_packet (packet_size : Z) (count unit sequence : Z)
    (random : list byte) : list byte :=
  le_bytes 2 (wrap16 packet_size) ++ le_bytes 1 count ++ le_bytes 1 unit
  ++ le_bytes 4 sequence ++ take (Z.to_nat (packet_size - 8)) random.

Module ThreadStats.
(** [struct ThreadStats] of the publisher. *)
Record t : Type := {
  packets_sent : Z;
  send_errors : Z;
  dropped_packets : Z
}.
End ThreadStats.

(** What one iteration of [publisher_thread] draws and is told: the packet
    size, the random payload, the results of the two [zmq_send]s and the
    value [zmq_errno()] returns after them. *)
Record Attempt : Type := {
  at_packet_size : Z;
  at_random : list byte;
  at_result1 : Z;
  at_result2 : Z;
  at_errno : Z
}.

(** The local [sequence] of [publisher_thread] and its [thread_stats] entry. *)
Record Publisher : Type := {
  pub_sequence : Z;
  pub_stats : ThreadStats.t
}.

(** [publisher_thread] before its loop. *)
Definition Publisher_init (thread_id : Z) : Publisher :=
  {| pub_sequence := wrap32 (thread_id * 10000000);
     pub_stats := {| ThreadStats.packets_sent := 0; ThreadStats.send_errors := 0;
                     ThreadStats.dropped_packets := 0 |} |}.

(** The packet an iteration of [publisher_thread] builds. *)
Definition thread_packet (thread_id sequence packet_size : Z) (random : list byte)
  : list byte :=
  publisher_packet packet_size (wrap8 (1 + sequence mod 5)) (wrap8 (thread_id + 1))
    sequence random.

(** One iteration of the loop of [publisher_thread]: the packet handed to
    both sockets, and the state after the bookkeeping. *)
Definition publisher_iteration (thread_id : Z) (a : Attempt) (self : Publisher)
  : list byte * Publisher :=
  let packet := thread_packet thread_id (pub_sequence self) (at_packet_size a)
                  (at_random a) in
  let stats := pub_stats self in
  if (0 <? at_result1 a) && (0 <? at_result2 a) then
    (packet,
     {| pub_sequence := u32_add (pub_sequence self) 1;
        pub_stats := {| ThreadStats.packets_sent := u64_incr (ThreadStats.packets_sent stats);
                        ThreadStats.send_errors := ThreadStats.send_errors stats;
                        ThreadStats.dropped_packets := ThreadStats.dropped_packets stats |} |})
  else
    let dropped := ThreadStats.dropped_packets stats in
    let dropped :=
      if (at_result1 a =? -1) && (at_errno a =? EAGAIN) then u64_incr dropped
      else dropped in
    let dropped :=
      if (at_result2 a =? -1) && (at_errno a =? EAGAIN) then u64_incr dropped
      else dropped in
    (packet,
     {| pub_sequence := pub_sequence self;
        pub_stats := {| ThreadStats.packets_sent := ThreadStats.packets_sent stats;
                        ThreadStats.send_errors := u64_incr (ThreadStats.send_errors stats);
                        ThreadStats.dropped_packets := dropped |} |}).

(** The loop: the packets handed to the sockets, in order, and the final
    state. *)
Fixpoint publisher_run (thread_id : Z) (attempts : list Attempt) (self : Publisher)
  : list (list byte) * Publisher :=
  match attempts with
  | [] => ([], self)
  | a :: rest =>
      let '(packet, self) := publisher_iteration thread_id a self in
      let '(packets, self) := publisher_run thread_id rest self in
      (packet :: packets, self)
  end.

Module ReceiveStats.
(** [struct ThreadStats] of the subscriber. *)
Record t : Type := {
  packets_received : Z;
  receive_errors : Z;
  duplicate_packets : Z;
  out_of_order_packets : Z;
  missing_packets : Z
}.
End ReceiveStats.

(** The locals of [subscriber_thread] and its [thread_stats] entry. *)
Record Subscriber : Type := {
  sub_buffer : list byte;
  seen_sequences : gset Z;
  last_sequence : Z;
  expected_sequence : Z;
  sub_stats : ReceiveStats.t
}.

(** [subscriber_thread] before its loop; [buffer] is what the uninitialised
    array happens to hold. *)
Definition Subscriber_init (thread_id : Z) (buffer : list byte) : Subscriber :=
  {| sub_buffer := buffer;
     seen_sequences := ∅;
     last_sequence := 0;
     expected_sequence := wrap32 (thread_id * 10000000);
     sub_stats := {| ReceiveStats.packets_received := 0; ReceiveStats.receive_errors := 0;
                     ReceiveStats.duplicate_packets := 0;
                     ReceiveStats.out_of_order_packets := 0;
                     ReceiveStats.missing_packets := 0 |} |}.

(** What a [zmq_recv] with [ZMQ_DONTWAIT] finds: a message, or nothing. *)
Inductive Received : Type :=
| Message (bytes : list byte)
| Nothing.

(** [zmq_recv (socket, buffer, sizeof (buffer), ZMQ_DONTWAIT)]: the size of the
    message (also when it did not fit) or -1, and the buffer afterwards; a
    message overwrites the front of the buffer. *)
Definition zmq_recv (r : Received) (buffer : list byte) : Z * list byte :=
  match r with
  | Message bytes =>
      (Z.of_nat (List.length bytes),
       take 2048 bytes ++ drop (List.length (take 2048 bytes)) buffer)
  | Nothing => (-1, buffer)
  end.

(** The body of [for (int size : {size1, size2})] for one size; [errno] is
    what [zmq_errno()] returns if it is called. *)
Definition process_size (size errno : Z) (self : Subscriber) : Subscriber :=
  let stats := sub_stats self in
  if 0 <? size then
    let received := u64_incr (ReceiveStats.packets_received stats) in
    if 8 <=? size then
      let sequence := load_u32 (sub_buffer self) 4 in
      let seen := bool_decide (sequence ∈ seen_sequences self) in
      {| sub_buffer := sub_buffer self;
         seen_sequences :=
           if seen then seen_sequences self else {[sequence]} ∪ seen_sequences self;
         last_sequence := sequence;
         expected_sequence :=
           if expected_sequence self <? sequence then u32_add sequence 1
           else if sequence =? expected_sequence self
                then u32_add (expected_sequence self) 1
                else expected_sequence self;
         sub_stats :=
           {| ReceiveStats.packets_received := received;
              ReceiveStats.receive_errors := ReceiveStats.receive_errors stats;
              ReceiveStats.duplicate_packets :=
                if seen then u64_incr (ReceiveStats.duplicate_packets stats)
                else ReceiveStats.duplicate_packets stats;
              ReceiveStats.out_of_order_packets :=
                if sequence <? last_sequence self
                then u64_incr (ReceiveStats.out_of_order_packets stats)
                else ReceiveStats.out_of_order_packets stats;
              ReceiveStats.missing_packets :=
                if expected_sequence self <? sequence
                then wrap64 (ReceiveStats.missing_packets stats
                             + u32_sub sequence (expected_sequence self))
                else ReceiveStats.missing_packets stats |} |}
    else
      {| sub_buffer := sub_buffer self;
         seen_sequences := seen_sequences self;
         last_sequence := last_sequence self;
         expected_sequence := expected_sequence self;
         sub_stats :=
           {| ReceiveStats.packets_received := received;
              ReceiveStats.receive_errors := ReceiveStats.receive_errors stats;
              ReceiveStats.duplicate_packets := ReceiveStats.duplicate_packets stats;
              ReceiveStats.out_of_order_packets := ReceiveStats.out_of_order_packets stats;
              ReceiveStats.missing_packets := ReceiveStats.missing_packets stats |} |}
  else if size =? -1 then
    if negb (errno =? EAGAIN) && negb (errno =? ETIMEDOUT) then
      {| sub_buffer := sub_buffer self;
         seen_sequences := seen_sequences self;
         last_sequence := last_sequence self;
         expected_sequence := expected_sequence self;
         sub_stats :=
           {| ReceiveStats.packets_received := ReceiveStats.packets_received stats;
              ReceiveStats.receive_errors := u64_incr (ReceiveStats.receive_errors stats);
              ReceiveStats.duplicate_packets := ReceiveStats.duplicate_packets stats;
              ReceiveStats.out_of_order_packets := ReceiveStats.out_of_order_packets stats;
              ReceiveStats.missing_packets := ReceiveStats.missing_packets stats |} |}
    else self
  else self.

(** What one iteration of [subscriber_thread] finds on its two sockets, and
    the values of the two possible [zmq_errno()] calls. *)
Record Arrival : Type := {
  ar_sub1 : Received;
  ar_sub2 : Received;
  ar_errno1 : Z;
  ar_errno2 : Z
}.

(** One iteration of the loop of [subscriber_thread]: both receives go into
    the same [buffer], then both sizes are processed. *)
Definition subscriber_iteration (a : Arrival) (self : Subscriber) : Subscriber :=
  let '(size1, buffer) := zmq_recv (ar_sub1 a) (sub_buffer self) in
  let '(size2, buffer) := zmq_recv (ar_sub2 a) buffer in
  let self :=
    {| sub_buffer := buffer; seen_sequences := seen_sequences self;
       last_sequence := last_sequence self;
       expected_sequence := expected_sequence self; sub_stats := sub_stats self |} in
  process_size size2 (ar_errno2 a) (process_size size1 (ar_errno1 a) self).

Definition subscriber_run (arrivals : list Arrival) (self : Subscriber) : Subscriber :=
  foldl (fun self a => subscriber_iteration a self) self arrivals.

(** A receive that, if it finds a message, finds one with the 8 header bytes
    and a sequence below [UINT32_MAX]. *)
Definition message_ok (r : Received) : Prop :=
  match r with
  | Message bytes => (8 <= List.length bytes)%nat /\ load_u32 bytes 4 < UINT32_MAX
  | Nothing => True
  end.

Definition arrival_ok (a : Arrival) : Prop :=
  message_ok (ar_sub1 a) /\ message_ok (ar_sub2 a).

(** The number of messages a list of iterations finds. *)
Definition messages_of (r : Received) : Z :=
  match r with
  | Message _ => 1
  | Nothing => 0
  end.

Definition messages_in (arrivals : list Arrival) : Z :=
  foldr (fun a n => messages_of (ar_sub1 a) + messages_of (ar_sub2 a) + n) 0 arrivals.

(** An iteration that finds a packet on the first socket, and the same
    packet or nothing on the second. *)
Definition delivered (packet : list byte) (a : Arrival) : Prop :=
  ar_sub1 a = Message packet
  /\ (ar_sub2 a = Message packet \/ ar_sub2 a = Nothing).

(** Packets that carry consecutive sequences from [sequence] on. *)
Fixpoint carry (sequence : Z) (packets : list (list byte)) : Prop :=
  match packets with
  | [] => True
  | packet :: rest =>
      (8 <= List.length packet)%nat /\ load_u32 packet 4 = sequence
      /\ carry (sequence + 1) rest
  end.

(** A subscriber that has been handed the [j] sequences from [start] on, in
    order and without a gap, in [c] messages. *)
Record lossless_inv (start j c : Z) (self : Subscriber) : Prop := {
  li_seen : forall x, x ∈ seen_sequences self <-> start <= x < start + j;
  li_expected : expected_sequence self = start + j;
  li_last : last_sequence self <= start + j;
  li_received : ReceiveStats.packets_received (sub_stats self) = c;
  li_duplicates : ReceiveStats.duplicate_packets (sub_stats self) = c - j;
  li_out_of_order : ReceiveStats.out_of_order_packets (sub_stats self) = 0;
  li_missing : ReceiveStats.missing_packets (sub_stats self) = 0
}.

(** Attempts whose two sends both succeed. *)
Definition sent (a : Attempt) : Prop := 0 < at_result1 a /\ 0 < at_result2 a.

(** The sequences a subscriber has seen at or after [start]. *)
Definition seen_from (start : Z) (self : Subscriber) : gset Z :=
  filter (fun x => start <= x) (seen_sequences self).

(** The accounting invariant of a subscriber thread that started out
    expecting [start] and has found [k] messages since. *)
Record subscriber_inv (start k : Z) (self : Subscriber) : Prop := {
  si_received : ReceiveStats.packets_received (sub_stats self) = k;
  si_duplicates :
    0 <= ReceiveStats.duplicate_packets (sub_stats self)
    /\ ReceiveStats.duplicate_packets (sub_stats self)
       + Z.of_nat (size (seen_sequences self)) = k;
  si_out_of_order : 0 <= ReceiveStats.out_of_order_packets (sub_stats self) <= k;
  si_seen : forall x, x ∈ seen_sequences self -> 0 <= x < expected_sequence self;
  si_expected : start <= expected_sequence self <= UINT32_MAX;
  si_missing :
    0 <= ReceiveStats.missing_packets (sub_stats self)
    /\ expected_sequence self - start - Z.of_nat (size (seen_from start self))
       <= ReceiveStats.missing_packets (sub_stats self)
       <= expected_sequence self - start;
  si_start : 0 <= start
}.

(** [missing_packets] and [expected_sequence] of [self'] are not below those
    of [self]. *)
Definition not_below (self self' : Subscriber) : Prop :=
  ReceiveStats.missing_packets (sub_stats self)
  <= ReceiveStats.missing_packets (sub_stats self')
  /\ expected_sequence self <= expected_sequence self'.

(** The attempts of a run whose two sends both succeeded. *)
Definition both_sent (a : Attempt) : bool :=
  (0 <? at_result1 a) && (0 <? at_result2 a).

Definition successes (attempts : list Attempt) : Z :=
  Z.of_nat (List.length (List.filter both_sent attempts)).




(** ** The specification's wording, for comparison with the code *)

(** The classification rules of the specification, applied in order, first
    match wins. *)
Definition classification_rules (sequence count length : Z) : PacketType.t :=
  if decide (sequence = 0 /\ count = 0 /\ length <= 20) then PacketType.HEARTBEAT
  else if decide (sequence = 0 /\ count = 0) then PacketType.ADMIN
  else if decide (sequence = 0) then PacketType.UNSEQUENCED
  else PacketType.DATA.

(** The acceptance conditions of the specification. *)
Definition accepted (hdr_length length : Z) : Prop :=
  8 <= length /\ 1 <= hdr_length <= 2048 /\ hdr_length <= length + 100.

(** ** Invariants and relations used in the proofs *)

(** Every entry's [last_confirmed_seq] is a [uint32_t] value. *)
Definition manager_ok (trackers_ : SequenceManager) : Prop :=
  forall key tracker,
    trackers_ !! key = Some tracker -> is_u32 (last_confirmed_seq tracker).

(** What one packet does to the five counters of the balance: the total goes
    up by one, and so does exactly one of the others, unless the packet is
    invalid. *)
Inductive counted (valid : bool) (s s' : Statistics) : Prop :=
| counted_invalid :
    valid = false ->
    heartbeats_skipped s' = heartbeats_skipped s ->
    data_packets s' = data_packets s ->
    admin_packets s' = admin_packets s ->
    unsequenced_packets s' = unsequenced_packets s ->
    counted valid s s'
| counted_heartbeat :
    valid = true ->
    heartbeats_skipped s' = u64_incr (heartbeats_skipped s) ->
    data_packets s' = data_packets s ->
    admin_packets s' = admin_packets s ->
    unsequenced_packets s' = unsequenced_packets s ->
    counted valid s s'
| counted_data :
    valid = true ->
    heartbeats_skipped s' = heartbeats_skipped s ->
    data_packets s' = u64_incr (data_packets s) ->
    admin_packets s' = admin_packets s ->
    unsequenced_packets s' = unsequenced_packets s ->
    counted valid s s'
| counted_admin :
    valid = true ->
    heartbeats_skipped s' = heartbeats_skipped s ->
    data_packets s' = data_packets s ->
    admin_packets s' = u64_incr (admin_packets s) ->
    unsequenced_packets s' = unsequenced_packets s ->
    counted valid s s'
| counted_unsequenced :
    valid = true ->
    heartbeats_skipped s' = heartbeats_skipped s ->
    data_packets s' = data_packets s ->
    admin_packets s' = admin_packets s ->
    unsequenced_packets s' = u64_incr (unsequenced_packets s) ->
    counted valid s s'.

(** The balance modulo 2^64, with [k] packets rejected so far. *)
Definition balanced_mod (s : Statistics) (k : Z) : Prop :=
  exists q : Z,
    data_packets s + admin_packets s + unsequenced_packets s
    = total_packets s - k - heartbeats_skipped s + q * 2 ^ 64.

(** The exact balance after [n] packets, [k] of them rejected. *)
Definition balanced (s : Statistics) (n k : Z) : Prop :=
  0 <= heartbeats_skipped s /\ 0 <= data_packets s /\ 0 <= admin_packets s
  /\ 0 <= unsequenced_packets s /\ 0 <= k /\ total_packets s = n
  /\ data_packets s + admin_packets s + unsequenced_packets s
     = n - k - heartbeats_skipped s.

(** * Properties *)

(** ** Fixed-width arithmetic *)

Lemma wrap32_small (z : Z) : is_u32 z -> wrap32 z = z.
Proof. unfold is_u32, wrap32. intros H. apply Z.mod_small. lia. Qed.

Lemma wrap32_is_u32 (z : Z) : is_u32 (wrap32 z).
Proof. unfold is_u32, wrap32. apply Z.mod_pos_bound. lia. Qed.

Lemma wrap32_le (z : Z) : 0 <= z -> wrap32 z <= z.
Proof. unfold wrap32. intros H. apply Z.mod_le; lia. Qed.

Lemma u32_add_small (a b : Z) : is_u32 (a + b) -> u32_add a b = a + b.
Proof. apply wrap32_small. Qed.

Lemma u32_sub_small (a b : Z) : is_u32 (a - b) -> u32_sub a b = a - b.
Proof. apply wrap32_small. Qed.

Lemma u32_succ_max : u32_add UINT32_MAX 1 = 0.
Proof. reflexivity. Qed.

Lemma wrap16_small (z : Z) : is_u16 z -> wrap16 z = z.
Proof. unfold is_u16, wrap16. intros H. apply Z.mod_small. lia. Qed.

(** ** The overflow guard *)

Lemma initial_message_count_max (count : Z) :
  initial_message_count count = Z.max count 1.
Proof. unfold initial_message_count. destruct (Z.ltb_spec 0 count); lia. Qed.

Lemma guard_threshold (n : Z) :
  1 <= n < 2 ^ 32 -> u32_add (u32_sub UINT32_MAX n) 1 = UINT32_MAX - n + 1.
Proof.
  intros Hn. unfold UINT32_MAX in *.
  rewrite (u32_sub_small _ n) by (unfold is_u32; lia).
  apply u32_add_small. unfold is_u32. lia.
Qed.

Lemma guarded_message_count_spec (seq count : Z) :
  is_u8 count ->
  guarded_message_count seq count =
    if UINT32_MAX - Z.max count 1 + 1 <? seq then 1 else Z.max count 1.
Proof.
  intros Hc. unfold guarded_message_count, is_u8 in *.
  rewrite initial_message_count_max, guard_threshold by lia. reflexivity.
Qed.

Lemma range_end_exact (seq message_count : Z) :
  is_u32 (seq + message_count - 1) -> 1 <= message_count -> 0 <= seq ->
  range_end seq message_count = seq + message_count - 1.
Proof.
  unfold range_end, u32_add, u32_sub, wrap32, is_u32. intros H Hm Hs.
  rewrite Zminus_mod_idemp_l. apply Z.mod_small. lia.
Qed.

Lemma foldl_ext_in {A B : Type} (f g : A -> B -> A) (l : list B) :
  (forall a b, b ∈ l -> f a b = g a b) -> forall a, foldl f a l = foldl g a l.
Proof.
  induction l as [|b l IH]; intros Hfg a; [reflexivity|]. simpl.
  rewrite (Hfg a b) by apply list_elem_of_here.
  apply IH. intros a' b' Hin. apply Hfg. apply list_elem_of_further, Hin.
Qed.

(** C8. In [determine_order_status], whenever [seq > UINT32_MAX - n + 1],
    with [n = max(count, 1)], the effective message count [m] is 1 (and [n]
    otherwise); with it the range end [seq + m - 1] and every pending key
    [seq + i], [i < m], computed in [uint32_t] arithmetic, equal their
    mathematical values, and these are the values the function stores: on a
    channel without history the call is FIRST and writes [seq + m - 1] to
    both counters; at the expected sequence the absorption loop starts from
    [last_confirmed_seq = seq + m - 1]; beyond the expected sequence the call
    is EARLY, [highest_seen_seq] becomes the maximum of its old value and
    [seq + m - 1], and the keys marked pending are [seq], ..., [seq + m - 1];
    below the expected sequence no range end is used and the entry stays as
    it was. *)
Theorem overflow_guard_no_wrap (fuel : nat) (seq count port unit : Z)
    (trackers_ : SequenceManager) (Hseq : is_u32 seq) (Hcount : is_u8 count) :
  let n := Z.max count 1 in
  let m := guarded_message_count seq count in
  let e := seq + m - 1 in
  let tracker := tracker_at (port, unit) trackers_ in
  let fresh := last_confirmed_seq tracker = 0 /\ highest_seen_seq tracker = 0 in
  let expected := u32_add (last_confirmed_seq tracker) 1 in
  initial_message_count count = n /\
  (UINT32_MAX - n + 1 < seq -> m = 1) /\
  (seq <= UINT32_MAX - n + 1 -> m = n) /\
  range_end seq m = e /\
  e <= UINT32_MAX /\
  (forall i, 0 <= i < m -> u32_add seq i = seq + i /\ seq + i <= UINT32_MAX) /\
  (forall pending,
     mark_pending seq m pending =
       foldl (fun p i => <[seq + i := true]> p) pending (seqZ 0 m)) /\
  (seq <> 0 -> fresh ->
   determine_order_status fuel seq count port unit trackers_
   = Some (OrderStatus.SEQUENCED_FIRST,
           <[(port, unit) :=
               {| last_confirmed_seq := e; highest_seen_seq := e;
                  pending_sequences := pending_sequences tracker |}]> trackers_)) /\
  (seq <> 0 -> ~ fresh -> seq = expected ->
   determine_order_status fuel seq count port unit trackers_
   = (tracker' ← absorb_pending fuel fuel
                   {| last_confirmed_seq := e;
                      highest_seen_seq := highest_seen_seq tracker;
                      pending_sequences := pending_sequences tracker |};
      Some (OrderStatus.SEQUENCED_IN_ORDER, <[(port, unit) := tracker']> trackers_))) /\
  (seq <> 0 -> ~ fresh -> expected < seq ->
   determine_order_status fuel seq count port unit trackers_
   = Some (OrderStatus.SEQUENCED_OUT_OF_ORDER_EARLY,
           <[(port, unit) :=
               {| last_confirmed_seq := last_confirmed_seq tracker;
                  highest_seen_seq := Z.max (highest_seen_seq tracker) e;
                  pending_sequences :=
                    foldl (fun p i => <[seq + i := true]> p)
                      (pending_sequences tracker) (seqZ 0 m) |}]> trackers_)) /\
  (seq <> 0 -> ~ fresh -> seq < expected ->
   exists verdict,
     determine_order_status fuel seq count port unit trackers_
     = Some (verdict, <[(port, unit) := tracker]> trackers_)
     /\ verdict <> OrderStatus.SEQUENCED_FIRST
     /\ verdict <> OrderStatus.SEQUENCED_IN_ORDER
     /\ verdict <> OrderStatus.SEQUENCED_OUT_OF_ORDER_EARLY).
Proof.
  intros n m e tracker fresh expected.
  assert (Hm : (UINT32_MAX - n + 1 < seq -> m = 1) /\
               (seq <= UINT32_MAX - n + 1 -> m = n) /\
               1 <= m /\ seq + m - 1 <= UINT32_MAX).
  { subst n m. rewrite (guarded_message_count_spec seq count Hcount).
    unfold is_u32, is_u8, UINT32_MAX in *.
    destruct (Z.ltb_spec (4294967295 - Z.max count 1 + 1) seq); lia. }
  destruct Hm as (Hgt & Hle & Hm1 & Hend).
  assert (Hkeys : forall i, 0 <= i < m ->
                    u32_add seq i = seq + i /\ seq + i <= UINT32_MAX).
  { intros i Hi. unfold is_u32, UINT32_MAX in *.
    split; [apply u32_add_small; unfold is_u32|]; lia. }
  assert (Hrange : range_end seq m = e)
    by (apply range_end_exact; unfold is_u32, UINT32_MAX in *; lia).
  assert (Hmark : forall pending,
             mark_pending seq m pending =
               foldl (fun p i => <[seq + i := true]> p) pending (seqZ 0 m)).
  { intros pending. unfold mark_pending. apply foldl_ext_in.
    intros p i Hi. apply elem_of_seqZ in Hi.
    rewrite (proj1 (Hkeys i ltac:(lia))). reflexivity. }
  assert (Htest : ~ fresh ->
                  (last_confirmed_seq tracker =? 0) && (highest_seen_seq tracker =? 0)
                  = false).
  { intros Hold. subst fresh.
    destruct (Z.eqb_spec (last_confirmed_seq tracker) 0);
      destruct (Z.eqb_spec (highest_seen_seq tracker) 0); cbn [andb]; tauto. }
  split; [apply initial_message_count_max|].
  split; [exact Hgt|]. split; [exact Hle|].
  split; [exact Hrange|].
  split; [exact Hend|]. split; [exact Hkeys|]. split; [exact Hmark|].
  split; [|split; [|split]].
  - intros Hnz [Hlc Hhs]. unfold determine_order_status, determine_order_status_at.
    rewrite (proj2 (Z.eqb_neq seq 0) Hnz). fold tracker. fold m.
    rewrite Hlc, Hhs, Hrange. reflexivity.
  - intros Hnz Hold Hexpected. unfold determine_order_status, determine_order_status_at.
    rewrite (proj2 (Z.eqb_neq seq 0) Hnz). fold tracker. fold m.
    rewrite (Htest Hold). fold expected.
    rewrite (proj2 (Z.eqb_eq seq expected) Hexpected), Hrange.
    destruct (absorb_pending fuel fuel _); reflexivity.
  - intros Hnz Hold Hexpected. unfold determine_order_status, determine_order_status_at.
    rewrite (proj2 (Z.eqb_neq seq 0) Hnz). fold tracker. fold m.
    rewrite (Htest Hold). fold expected.
    rewrite (proj2 (Z.eqb_neq seq expected)) by lia.
    rewrite (proj2 (Z.ltb_ge seq expected)) by lia.
    rewrite Hrange, Hmark. reflexivity.
  - intros Hnz Hold Hexpected. unfold determine_order_status, determine_order_status_at.
    rewrite (proj2 (Z.eqb_neq seq 0) Hnz). fold tracker. fold m.
    rewrite (Htest Hold). fold expected.
    rewrite (proj2 (Z.eqb_neq seq expected)) by lia.
    rewrite (proj2 (Z.ltb_lt seq expected)) by lia.
    eexists. split; [reflexivity|].
    destruct (seq <=? last_confirmed_seq tracker); repeat split; discriminate.
Qed.

Lemma overflow_guard_no_wrap_witness :
  guarded_message_count 4294967295 3 = 1
  /\ range_end 4294967295 1 = 4294967295
  /\ determine_order_status 0 4294967295 3 30501 1 ∅
     = Some (OrderStatus.SEQUENCED_FIRST,
             <[(30501, 1) :=
                 {| last_confirmed_seq := 4294967295;
                    highest_seen_seq := 4294967295;
                    pending_sequences := ∅ |}]> ∅).
Proof.
  assert (Hs : is_u32 4294967295) by (unfold is_u32; lia).
  assert (Hc : is_u8 3) by (unfold is_u8; lia).
  destruct (overflow_guard_no_wrap 0 4294967295 3 30501 1 ∅ Hs Hc)
    as (_ & Hg & _ & He & _ & _ & _ & Hfirst & _).
  specialize (Hg ltac:(unfold UINT32_MAX; lia)).
  split; [exact Hg|].
  split; [rewrite Hg in He; exact He|].
  rewrite Hg in Hfirst.
  exact (Hfirst ltac:(discriminate) (conj eq_refl eq_refl)).
Defined.

(** ** The tracker keeps [last_confirmed_seq] a [uint32_t] *)

Lemma range_end_is_u32 (seq message_count : Z) : is_u32 (range_end seq message_count).
Proof. apply wrap32_is_u32. Qed.

Lemma scan_run_is_u32 (fuel : nat) (pending : gmap Z bool) :
  forall confirmed_end r,
    is_u32 confirmed_end -> scan_run fuel pending confirmed_end = Some r -> is_u32 r.
Proof.
  induction fuel as [|fuel IH]; intros ce r Hce Hrun; simpl in Hrun; [discriminate|].
  destruct (pending !! u32_add ce 1).
  - apply (IH _ _ (wrap32_is_u32 _) Hrun).
  - congruence.
Qed.

Lemma absorb_pending_is_u32 (gas fuel : nat) :
  forall tracker tracker',
    is_u32 (last_confirmed_seq tracker) ->
    absorb_pending gas fuel tracker = Some tracker' ->
    is_u32 (last_confirmed_seq tracker').
Proof.
  induction fuel as [|fuel IH]; intros t t' Ht Hrun; simpl in Hrun; [discriminate|].
  destruct (pending_sequences t !! u32_add (last_confirmed_seq t) 1).
  - destruct (scan_run gas _ _) as [ce|] eqn:Hscan; simpl in Hrun; [|discriminate].
    destruct (erase_run gas _ _ _) as [p|]; simpl in Hrun; [|discriminate].
    apply (IH _ _ (scan_run_is_u32 _ _ _ _ (wrap32_is_u32 _) Hscan : is_u32 (last_confirmed_seq (mkTracker _ _ _))) Hrun).
  - congruence.
Qed.

Lemma determine_order_status_at_is_u32 (fuel : nat) (seq count : Z)
    (tracker tracker' : SequenceTracker) (verdict : OrderStatus.t) :
  is_u32 (last_confirmed_seq tracker) ->
  determine_order_status_at fuel seq count tracker = Some (verdict, tracker') ->
  is_u32 (last_confirmed_seq tracker').
Proof.
  intros Ht. unfold determine_order_status_at.
  destruct (_ && _); [intros [= _ <-]; apply range_end_is_u32|].
  destruct (seq =? _).
  - destruct (absorb_pending _ _ _) as [t1|] eqn:Habs; simpl; [|discriminate].
    intros [= _ <-]. refine (absorb_pending_is_u32 _ _ _ _ _ Habs).
    apply range_end_is_u32.
  - destruct (seq <? _); intros [= _ <-]; exact Ht.
Qed.

(** The verdict LATE needs [seq < last_confirmed_seq + 1] and
    [seq > last_confirmed_seq] at once. *)
Lemma determine_order_status_at_not_late (fuel : nat) (seq count : Z)
    (tracker tracker' : SequenceTracker) (verdict : OrderStatus.t) :
  is_u32 (last_confirmed_seq tracker) ->
  determine_order_status_at fuel seq count tracker = Some (verdict, tracker') ->
  verdict <> OrderStatus.SEQUENCED_OUT_OF_ORDER_LATE.
Proof.
  intros Ht. unfold determine_order_status_at.
  destruct (_ && _); [intros [= <- _]; discriminate|].
  destruct (seq =? _).
  - destruct (absorb_pending _ _ _); simpl; [|discriminate].
    intros [= <- _]. discriminate.
  - destruct (Z.ltb_spec seq (u32_add (last_confirmed_seq tracker) 1)) as [Hlt|Hge].
    + destruct (Z.leb_spec seq (last_confirmed_seq tracker)) as [Hle|Hgt].
      * intros [= <- _]. discriminate.
      * exfalso. unfold is_u32 in Ht.
        pose proof (wrap32_le (last_confirmed_seq tracker + 1) ltac:(lia)).
        unfold u32_add in Hlt. lia.
    + intros [= <- _]. discriminate.
Qed.

Lemma tracker_at_ok (key : Z * Z) (trackers_ : SequenceManager) :
  manager_ok trackers_ -> is_u32 (last_confirmed_seq (tracker_at key trackers_)).
Proof.
  intros Hok. unfold tracker_at.
  destruct (trackers_ !! key) as [t|] eqn:Hk; simpl.
  - apply (Hok _ _ Hk).
  - unfold is_u32. lia.
Qed.

Lemma manager_ok_empty : manager_ok ∅.
Proof. intros key t H. rewrite lookup_empty in H. discriminate. Qed.

Lemma determine_order_status_ok (fuel : nat) (seq count port unit : Z)
    (trackers_ trackers' : SequenceManager) (verdict : OrderStatus.t) :
  manager_ok trackers_ ->
  determine_order_status fuel seq count port unit trackers_ = Some (verdict, trackers') ->
  manager_ok trackers' /\ verdict <> OrderStatus.SEQUENCED_OUT_OF_ORDER_LATE.
Proof.
  intros Hok. unfold determine_order_status.
  destruct (seq =? 0); [intros [= <- <-]; split; [exact Hok|discriminate]|].
  destruct (determine_order_status_at _ _ _ _) as [[v t1]|] eqn:Hat; simpl; [|discriminate].
  intros [= <- <-]. pose proof (tracker_at_ok (port, unit) _ Hok) as Ht. split.
  - intros key t Hk. destruct (decide ((port, unit) = key)) as [<-|Hne].
    + rewrite lookup_insert_eq in Hk. injection Hk as <-.
      apply (determine_order_status_at_is_u32 _ _ _ _ _ _ Ht Hat).
    + rewrite lookup_insert_ne in Hk by exact Hne. apply (Hok _ _ Hk).
  - apply (determine_order_status_at_not_late _ _ _ _ _ _ Ht Hat).
Qed.

Lemma feed_not_late (fuel : nat) (calls : list (Z * Z * Z * Z)) :
  forall trackers_ verdicts trackers',
    manager_ok trackers_ ->
    feed fuel calls trackers_ = Some (verdicts, trackers') ->
    manager_ok trackers' /\ OrderStatus.SEQUENCED_OUT_OF_ORDER_LATE ∉ verdicts.
Proof.
  induction calls as [|[[[seq count] port] unit] rest IH]; intros m vs m' Hok Hfeed.
  - injection Hfeed as <- <-. split; [exact Hok|]. apply not_elem_of_nil.
  - simpl in Hfeed.
    destruct (determine_order_status _ _ _ _ _ _) as [[v m1]|] eqn:Hstep;
      simpl in Hfeed; [|discriminate].
    destruct (feed fuel rest m1) as [[vs1 m2]|] eqn:Hrest; simpl in Hfeed; [|discriminate].
    injection Hfeed as <- <-.
    destruct (determine_order_status_ok _ _ _ _ _ _ _ _ Hok Hstep) as [Hok1 Hv].
    destruct (IH _ _ _ Hok1 Hrest) as [Hok2 Hvs].
    split; [exact Hok2|]. rewrite elem_of_cons. intros [Heq|Hin]; [congruence|tauto].
Qed.

(** C2. In every sequence of calls to [determine_order_status] from the empty
    tracker map, with any arguments, no call returns
    SEQUENCED_OUT_OF_ORDER_LATE. *)
Theorem late_verdict_unreachable (fuel : nat) (calls : list (Z * Z * Z * Z))
    (verdicts : list OrderStatus.t) (trackers' : SequenceManager) :
  feed fuel calls ∅ = Some (verdicts, trackers') ->
  OrderStatus.SEQUENCED_OUT_OF_ORDER_LATE ∉ verdicts.
Proof. intros Hfeed. apply (feed_not_late _ _ _ _ _ manager_ok_empty Hfeed). Qed.

Lemma late_verdict_unreachable_witness :
  feed 0 [(10, 1, 30501, 1); (15, 1, 30501, 1); (12, 1, 30501, 1); (10, 1, 30501, 1)] ∅
  = Some ([OrderStatus.SEQUENCED_FIRST; OrderStatus.SEQUENCED_OUT_OF_ORDER_EARLY;
           OrderStatus.SEQUENCED_OUT_OF_ORDER_EARLY; OrderStatus.SEQUENCED_DUPLICATE],
          {[ (30501, 1) :=
               {| last_confirmed_seq := 10; highest_seen_seq := 15;
                  pending_sequences := {[ 12 := true; 15 := true ]} |} ]})
  /\ OrderStatus.SEQUENCED_OUT_OF_ORDER_LATE ∉
       [OrderStatus.SEQUENCED_FIRST; OrderStatus.SEQUENCED_OUT_OF_ORDER_EARLY;
        OrderStatus.SEQUENCED_OUT_OF_ORDER_EARLY; OrderStatus.SEQUENCED_DUPLICATE].
Proof.
  assert (H : feed 0 [(10, 1, 30501, 1); (15, 1, 30501, 1); (12, 1, 30501, 1);
                      (10, 1, 30501, 1)] ∅
              = Some ([OrderStatus.SEQUENCED_FIRST;
                       OrderStatus.SEQUENCED_OUT_OF_ORDER_EARLY;
                       OrderStatus.SEQUENCED_OUT_OF_ORDER_EARLY;
                       OrderStatus.SEQUENCED_DUPLICATE],
                      {[ (30501, 1) :=
                           {| last_confirmed_seq := 10; highest_seen_seq := 15;
                              pending_sequences := {[ 12 := true; 15 := true ]} |} ]}))
    by (vm_compute; reflexivity).
  split; [exact H|]. exact (late_verdict_unreachable _ _ _ _ H).
Defined.

(** ** One channel at a time *)

Lemma tracker_at_insert (key : Z * Z) (tracker : SequenceTracker)
    (trackers_ : SequenceManager) :
  tracker_at key (<[key := tracker]> trackers_) = tracker.
Proof. unfold tracker_at. rewrite lookup_insert_eq. reflexivity. Qed.

Lemma tracker_at_empty (key : Z * Z) : tracker_at key ∅ = SequenceTracker_default.
Proof. unfold tracker_at. rewrite lookup_empty. reflexivity. Qed.

(** Calls on one channel with non-zero sequences work on that channel's entry
    and leave the rest of the map alone. *)
Lemma feed_single_channel (fuel : nat) (port unit : Z) (calls : list (Z * Z)) :
  forall trackers_ : SequenceManager,
    Forall (fun call => call.1 <> 0) calls -> calls <> [] ->
    feed fuel (on_channel port unit <$> calls) trackers_ =
      '(vs, tracker') ← feed_channel fuel calls (tracker_at (port, unit) trackers_);
      Some (vs, <[(port, unit) := tracker']> trackers_).
Proof.
  induction calls as [|[seq count] rest IH]; intros m Hnz Hne; [congruence|].
  inversion Hnz as [|? ? Hseq Hrest]; subst. simpl in Hseq.
  cbn [fmap list_fmap feed feed_channel on_channel fst snd].
  unfold determine_order_status. rewrite (proj2 (Z.eqb_neq seq 0) Hseq).
  destruct (determine_order_status_at fuel seq count _) as [[v t1]|]; simpl; [|reflexivity].
  destruct rest as [|call rest'].
  - reflexivity.
  - change (list_fmap _ _ (on_channel port unit) (call :: rest'))
      with (on_channel port unit <$> call :: rest').
    rewrite (IH _ Hrest) by discriminate. rewrite tracker_at_insert.
    destruct (feed_channel fuel (call :: rest') t1) as [[vs t2]|]; simpl; [|reflexivity].
    rewrite insert_insert_eq. reflexivity.
Qed.

Ltac single_channel port unit calls :=
  change (feed ?fuel _ ?m) with (feed fuel (on_channel port unit <$> calls) m);
  rewrite feed_single_channel by (first [discriminate | repeat constructor; discriminate]);
  rewrite tracker_at_empty.

(** ** Concrete scenarios *)

(** C4. On one channel, from the initial state, sequences 1, 3, 2 with count 1
    give FIRST, EARLY, IN_ORDER; afterwards [pending] is empty and
    [last_confirmed_seq] is 3: the in-order packet 2 absorbs the waiting 3. *)
Theorem feed_1_3_2_absorbs (fuel : nat) (port unit : Z) :
  feed (S (S fuel)) [(1, 1, port, unit); (3, 1, port, unit); (2, 1, port, unit)] ∅ =
  Some ([OrderStatus.SEQUENCED_FIRST; OrderStatus.SEQUENCED_OUT_OF_ORDER_EARLY;
         OrderStatus.SEQUENCED_IN_ORDER],
        {[ (port, unit) := {| last_confirmed_seq := 3; highest_seen_seq := 3;
                              pending_sequences := ∅ |} ]}).
Proof.
  single_channel port unit [(1, 1); (3, 1); (2, 1)].
  assert (H : feed_channel (S (S fuel)) [(1, 1); (3, 1); (2, 1)] SequenceTracker_default
              = Some ([OrderStatus.SEQUENCED_FIRST;
                       OrderStatus.SEQUENCED_OUT_OF_ORDER_EARLY;
                       OrderStatus.SEQUENCED_IN_ORDER],
                      {| last_confirmed_seq := 3; highest_seen_seq := 3;
                         pending_sequences := ∅ |}))
    by (vm_compute; reflexivity).
  rewrite H. reflexivity.
Qed.

(** C3, at the input where the code departs from it: after the in-order
    packet 11 follows the first packet 10, [last_confirmed_seq] is 11 while
    [highest_seen_seq] is still 10. *)
Theorem in_order_leaves_highest_seen_behind (fuel : nat) (port unit : Z) :
  exists tracker,
    feed (S fuel) [(10, 1, port, unit); (11, 1, port, unit)] ∅ =
      Some ([OrderStatus.SEQUENCED_FIRST; OrderStatus.SEQUENCED_IN_ORDER],
            {[ (port, unit) := tracker ]})
    /\ last_confirmed_seq tracker = 11
    /\ highest_seen_seq tracker = 10
    /\ ~ last_confirmed_seq tracker <= highest_seen_seq tracker.
Proof.
  exists {| last_confirmed_seq := 11; highest_seen_seq := 10; pending_sequences := ∅ |}.
  split; [|simpl; lia].
  single_channel port unit [(10, 1); (11, 1)].
  assert (H : feed_channel (S fuel) [(10, 1); (11, 1)] SequenceTracker_default
              = Some ([OrderStatus.SEQUENCED_FIRST; OrderStatus.SEQUENCED_IN_ORDER],
                      {| last_confirmed_seq := 11; highest_seen_seq := 10;
                         pending_sequences := ∅ |}))
    by (vm_compute; reflexivity).
  rewrite H. reflexivity.
Qed.

(** C7, at the input where the code departs from it: once
    [last_confirmed_seq] is [UINT32_MAX], [last_confirmed_seq + 1] wraps to 0
    and a replay of the confirmed sequence is EARLY and changes the state. *)
Theorem replay_at_uint32_max_is_early (fuel : nat) (port unit : Z) :
  feed fuel [(UINT32_MAX, 1, port, unit); (UINT32_MAX, 1, port, unit)] ∅ =
  Some ([OrderStatus.SEQUENCED_FIRST; OrderStatus.SEQUENCED_OUT_OF_ORDER_EARLY],
        {[ (port, unit) :=
             {| last_confirmed_seq := UINT32_MAX; highest_seen_seq := UINT32_MAX;
                pending_sequences := {[ UINT32_MAX := true ]} |} ]}).
Proof.
  single_channel port unit [(UINT32_MAX, 1); (UINT32_MAX, 1)].
  assert (H : feed_channel fuel [(UINT32_MAX, 1); (UINT32_MAX, 1)] SequenceTracker_default
              = Some ([OrderStatus.SEQUENCED_FIRST;
                       OrderStatus.SEQUENCED_OUT_OF_ORDER_EARLY],
                      {| last_confirmed_seq := UINT32_MAX;
                         highest_seen_seq := UINT32_MAX;
                         pending_sequences := {[ UINT32_MAX := true ]} |}))
    by (vm_compute; reflexivity).
  rewrite H. reflexivity.
Qed.

(** ** Duplicates and early arrivals *)

(** Below [UINT32_MAX] a replay of a confirmed sequence is a DUPLICATE and the
    manager is left as it was. *)
Lemma duplicate_leaves_state_unchanged (fuel : nat) (seq count port unit : Z)
    (trackers_ : SequenceManager) :
  let tracker := tracker_at (port, unit) trackers_ in
  last_confirmed_seq tracker < UINT32_MAX ->
  1 <= seq <= last_confirmed_seq tracker ->
  determine_order_status fuel seq count port unit trackers_ =
    Some (OrderStatus.SEQUENCED_DUPLICATE, trackers_).
Proof.
  intros tracker Hmax Hseq. unfold determine_order_status, determine_order_status_at.
  fold tracker.
  rewrite (proj2 (Z.eqb_neq seq 0)) by lia.
  rewrite (proj2 (Z.eqb_neq (last_confirmed_seq tracker) 0)) by lia. cbn [andb].
  rewrite u32_add_small by (unfold is_u32, UINT32_MAX in *; lia).
  rewrite (proj2 (Z.eqb_neq seq _)) by lia.
  rewrite (proj2 (Z.ltb_lt seq _)) by lia.
  rewrite (proj2 (Z.leb_le seq _)) by lia. simpl.
  f_equal. f_equal. apply insert_id.
  subst tracker. unfold tracker_at in *.
  destruct (trackers_ !! (port, unit)) as [t|]; simpl in *; [reflexivity|lia].
Qed.

(** A sequence beyond [last_confirmed_seq + 1] is EARLY, whether or not it is
    above [highest_seen_seq]. *)
Lemma beyond_expected_is_early (fuel : nat) (seq count port unit : Z)
    (trackers_ : SequenceManager) :
  let tracker := tracker_at (port, unit) trackers_ in
  is_u32 (last_confirmed_seq tracker) ->
  0 < highest_seen_seq tracker ->
  last_confirmed_seq tracker + 1 < seq ->
  determine_order_status fuel seq count port unit trackers_ =
    Some (OrderStatus.SEQUENCED_OUT_OF_ORDER_EARLY,
          <[(port, unit) :=
              {| last_confirmed_seq := last_confirmed_seq tracker;
                 highest_seen_seq :=
                   Z.max (highest_seen_seq tracker)
                     (range_end seq (guarded_message_count seq count));
                 pending_sequences :=
                   mark_pending seq (guarded_message_count seq count)
                     (pending_sequences tracker) |}]> trackers_).
Proof.
  intros tracker Hlc Hhs Hseq. unfold determine_order_status, determine_order_status_at.
  fold tracker. unfold is_u32 in Hlc.
  pose proof (wrap32_le (last_confirmed_seq tracker + 1) ltac:(lia)) as Hw.
  fold (u32_add (last_confirmed_seq tracker) 1) in Hw.
  rewrite (proj2 (Z.eqb_neq seq 0)) by lia.
  rewrite (proj2 (Z.eqb_neq (highest_seen_seq tracker) 0)) by lia.
  rewrite andb_false_r.
  rewrite (proj2 (Z.eqb_neq seq _)) by lia.
  rewrite (proj2 (Z.ltb_ge seq _)) by lia. reflexivity.
Qed.

(** C1, as the code has it. On one channel, from the initial state, the
    packets (10,1), (15,1), (12,1) give FIRST, EARLY, EARLY and leave
    (last_confirmed_seq, highest_seen_seq, pending) = (10, 15, {12, 15}); and
    every sequenced packet with [last_confirmed < s <= highest_seen] and
    [s <> last_confirmed + 1] is classified EARLY. *)
Theorem scenario6_early (fuel : nat) (port unit : Z) :
  feed fuel [(10, 1, port, unit); (15, 1, port, unit); (12, 1, port, unit)] ∅ =
    Some ([OrderStatus.SEQUENCED_FIRST; OrderStatus.SEQUENCED_OUT_OF_ORDER_EARLY;
           OrderStatus.SEQUENCED_OUT_OF_ORDER_EARLY],
          {[ (port, unit) :=
               {| last_confirmed_seq := 10; highest_seen_seq := 15;
                  pending_sequences := {[ 12 := true; 15 := true ]} |} ]})
  /\ forall (seq count : Z) (trackers_ : SequenceManager),
       let tracker := tracker_at (port, unit) trackers_ in
       is_u32 (last_confirmed_seq tracker) ->
       last_confirmed_seq tracker < seq <= highest_seen_seq tracker ->
       seq <> last_confirmed_seq tracker + 1 ->
       fst <$> determine_order_status fuel seq count port unit trackers_ =
         Some OrderStatus.SEQUENCED_OUT_OF_ORDER_EARLY.
Proof.
  split.
  - single_channel port unit [(10, 1); (15, 1); (12, 1)].
    assert (H : feed_channel fuel [(10, 1); (15, 1); (12, 1)] SequenceTracker_default
                = Some ([OrderStatus.SEQUENCED_FIRST;
                         OrderStatus.SEQUENCED_OUT_OF_ORDER_EARLY;
                         OrderStatus.SEQUENCED_OUT_OF_ORDER_EARLY],
                        {| last_confirmed_seq := 10; highest_seen_seq := 15;
                           pending_sequences := {[ 12 := true; 15 := true ]} |}))
      by (vm_compute; reflexivity).
    rewrite H. reflexivity.
  - intros seq count m tracker Hlc Hseq Hne.
    subst tracker. unfold is_u32 in Hlc.
    rewrite beyond_expected_is_early by (unfold is_u32; lia). reflexivity.
Qed.

Lemma scenario6_early_witness :
  fst <$> determine_order_status 0 12 1 30501 1
            {[ (30501, 1) := {| last_confirmed_seq := 10; highest_seen_seq := 15;
                                pending_sequences := {[ 15 := true ]} |} ]}
  = Some OrderStatus.SEQUENCED_OUT_OF_ORDER_EARLY.
Proof.
  apply (proj2 (scenario6_early 0 30501 1) 12 1).
  - vm_compute. split; [discriminate|reflexivity].
  - vm_compute. split; [reflexivity|discriminate].
  - vm_compute. discriminate.
Defined.

(** C1 as stated fails: no amount of fuel makes the third verdict of
    (10,1), (15,1), (12,1) LATE. *)
Lemma scenario6_not_late :
  ~ exists (fuel : nat) (trackers' : SequenceManager),
      feed fuel [(10, 1, 30501, 1); (15, 1, 30501, 1); (12, 1, 30501, 1)] ∅ =
        Some ([OrderStatus.SEQUENCED_FIRST; OrderStatus.SEQUENCED_OUT_OF_ORDER_EARLY;
               OrderStatus.SEQUENCED_OUT_OF_ORDER_LATE], trackers').
Proof.
  intros (fuel & m & H).
  apply (feed_not_late _ _ _ _ _ manager_ok_empty) in H as [_ Hnot].
  apply Hnot. rewrite !elem_of_cons. tauto.
Qed.

(** ** Classifier *)

(** C6. [classify_packet_type] follows the ordered first-match rules:
    HEARTBEAT when seq = 0, count = 0 and len <= 20; otherwise ADMIN when
    seq = 0 and count = 0; otherwise UNSEQUENCED when seq = 0; otherwise DATA.
    So every packet with seq > 0 is DATA. *)
Theorem classify_packet_type_rules (seq count len : Z) :
  classify_packet_type seq count len = classification_rules seq count len
  /\ (0 < seq -> classify_packet_type seq count len = PacketType.DATA).
Proof.
  unfold classify_packet_type, classification_rules. split.
  - destruct (Z.eqb_spec seq 0) as [Hs|Hs], (Z.eqb_spec count 0) as [Hc|Hc],
      (Z.leb_spec len 20) as [Hl|Hl]; simpl;
      repeat case_decide; try reflexivity; lia.
  - intros Hpos. rewrite (proj2 (Z.eqb_neq seq 0)) by lia. reflexivity.
Qed.

Lemma byte_val_range (b : byte) : 0 <= byte_val b < 2 ^ 8.
Proof.
  unfold byte_val. pose proof (Byte.to_N_bounded b) as H.
  change (2 ^ 8) with 256. lia.
Qed.

Lemma load_u16_range (buffer : list byte) (offset : nat) :
  is_u16 (load_u16 buffer offset).
Proof.
  unfold is_u16, load_u16, load_le, byte_at.
  pose proof (byte_val_range (nth offset buffer x00)).
  pose proof (byte_val_range (nth (S offset) buffer x00)). lia.
Qed.

(** C5. [validate_packet buffer len] is true exactly when len >= 8, the
    little-endian u16 [hdr_length] at offset 0 is between 1 and 2048 (MAX_BUF)
    and [hdr_length <= len + 100]; a [hdr_length] of 0 or above 2048 is
    rejected. [len] is an [int] for which [len + 100] is representable. *)
Theorem validate_packet_iff (buffer : list byte) (len : Z)
    (Hlen : len + 100 <= INT_MAX) :
  let declared := load_u16 buffer 0 in
  (validate_packet buffer len = true <-> accepted declared len)
  /\ (declared = 0 -> validate_packet buffer len = false)
  /\ (Config.MAX_BUF < declared -> validate_packet buffer len = false)
  /\ Config.MAX_BUF = 2048.
Proof.
  intros declared. unfold validate_packet, accepted, le16toh_safe, header_of.
  cbn [hdr_length]. fold declared.
  pose proof (load_u16_range buffer 0) as Hrange.
  unfold is_u16 in Hrange. fold declared in Hrange.
  unfold sizeof_CboeSequencedUnitHeader, Config.MAX_BUF.
  destruct (Z.ltb_spec len 8), (Z.eqb_spec declared 0),
    (Z.ltb_spec 2048 declared), (Z.ltb_spec (len + 100) declared); simpl;
    repeat split; intros; try discriminate; try reflexivity; try lia.
Qed.

Lemma validate_packet_iff_witness :
  validate_packet [x08; x00; x00; x01; x00; x00; x00; x00] 8 = true.
Proof.
  assert (H : 8 + 100 <= INT_MAX) by (unfold INT_MAX; lia).
  apply (proj1 (validate_packet_iff [x08; x00; x00; x01; x00; x00; x00; x00] 8 H)).
  vm_compute. repeat split; discriminate.
Defined.

(** ** Statistics *)

Lemma u64_incr_eq (a : Z) : u64_incr a = a + 1 - 2 ^ 64 * ((a + 1) / 2 ^ 64).
Proof. unfold u64_incr, wrap64. apply Z.mod_eq. lia. Qed.

Lemma u64_incr_small (a : Z) : 0 <= a -> a + 1 < 2 ^ 64 -> u64_incr a = a + 1.
Proof. intros H0 H1. unfold u64_incr, wrap64. apply Z.mod_small. lia. Qed.

Lemma invalid_count_cons (d : Datagram) (ds : list Datagram) :
  invalid_count (d :: ds) =
    (if validate_packet (dg_buffer d) (dg_len d) then 0 else 1) + invalid_count ds.
Proof.
  unfold invalid_count. simpl.
  destruct (validate_packet (dg_buffer d) (dg_len d)); simpl; lia.
Qed.

Lemma invalid_count_nonneg (ds : list Datagram) : 0 <= invalid_count ds.
Proof. unfold invalid_count. lia. Qed.

Lemma count_order_status_frame (v : OrderStatus.t) (s : Statistics) :
  total_packets (count_order_status v s) = total_packets s
  /\ heartbeats_skipped (count_order_status v s) = heartbeats_skipped s
  /\ data_packets (count_order_status v s) = data_packets s
  /\ admin_packets (count_order_status v s) = admin_packets s
  /\ unsequenced_packets (count_order_status v s) = unsequenced_packets s.
Proof. destruct v; repeat split. Qed.

Section PipelineProperties.

Variable inet_aton : string -> option Z.

Lemma track_and_log_stats (fuel : nat) (now packet_id port : Z) (buffer : list byte)
    (len : Z) (src_ip : string) (sequence count unit : Z) (packet_type : PacketType.t)
    (stats : Statistics) (self self' : PacketProcessor) :
  track_and_log inet_aton fuel now packet_id port buffer len src_ip sequence count unit
    packet_type stats self = Some self' ->
  exists v, stats_ self' = count_order_status v stats.
Proof.
  unfold track_and_log.
  destruct (determine_order_status _ _ _ _ _ _) as [[v m]|]; simpl; [|discriminate].
  intros [= <-]. exists v. reflexivity.
Qed.

Lemma process_datagram_counted (fuel : nat) (d : Datagram) (self self' : PacketProcessor) :
  process_datagram inet_aton fuel d self = Some self' ->
  total_packets (stats_ self') = u64_incr (total_packets (stats_ self))
  /\ counted (validate_packet (dg_buffer d) (dg_len d)) (stats_ self) (stats_ self').
Proof.
  unfold process_datagram, process_packet.
  destruct (validate_packet (dg_buffer d) (dg_len d)); simpl.
  2: { intros [= <-]. split; [reflexivity|]. apply counted_invalid; reflexivity. }
  destruct (classify_packet_type _ _ _).
  - unfold Config.SKIP_HEARTBEATS. intros [= <-].
    split; [reflexivity|]. apply counted_heartbeat; reflexivity.
  - intros H. apply track_and_log_stats in H as [v ->].
    destruct (count_order_status_frame v (count_admin (count_total (stats_ self))))
      as (Et & Eh & Ed & Ea & Eu).
    split; [rewrite Et; reflexivity|].
    apply counted_admin; [reflexivity|rewrite Eh|rewrite Ed|rewrite Ea|rewrite Eu];
      reflexivity.
  - intros H. apply track_and_log_stats in H as [v ->].
    destruct (count_order_status_frame v (count_unsequenced (count_total (stats_ self))))
      as (Et & Eh & Ed & Ea & Eu).
    split; [rewrite Et; reflexivity|].
    apply counted_unsequenced; [reflexivity|rewrite Eh|rewrite Ed|rewrite Ea|rewrite Eu];
      reflexivity.
  - intros H. apply track_and_log_stats in H as [v ->].
    destruct (count_order_status_frame v (count_data (count_total (stats_ self))))
      as (Et & Eh & Ed & Ea & Eu).
    split; [rewrite Et; reflexivity|].
    apply counted_data; [reflexivity|rewrite Eh|rewrite Ed|rewrite Ea|rewrite Eu];
      reflexivity.
Qed.

Lemma process_all_balanced_mod (fuel : nat) (ds : list Datagram) :
  forall (self self' : PacketProcessor) (k : Z),
    balanced_mod (stats_ self) k ->
    process_all inet_aton fuel ds self = Some self' ->
    balanced_mod (stats_ self') (k + invalid_count ds).
Proof.
  induction ds as [|d ds IH]; intros self self' k Hb Hrun; simpl in Hrun.
  - injection Hrun as <-. change (invalid_count []) with 0.
    rewrite Z.add_0_r. exact Hb.
  - destruct (process_datagram inet_aton fuel d self) as [self1|] eqn:Hstep;
      simpl in Hrun; [|discriminate].
    rewrite invalid_count_cons, Z.add_assoc. apply (IH self1 self' _); [|exact Hrun].
    destruct (process_datagram_counted _ _ _ _ Hstep) as [Htot Hc].
    destruct Hb as [q Hq]. unfold balanced_mod. rewrite Htot.
    pose proof (u64_incr_eq (total_packets (stats_ self))) as Et.
    destruct Hc as [-> Eh Ed Ea Eu| -> Eh Ed Ea Eu| -> Eh Ed Ea Eu| -> Eh Ed Ea Eu
                   | -> Eh Ed Ea Eu]; rewrite Eh, Ed, Ea, Eu.
    + exists (q + (total_packets (stats_ self) + 1) / 2 ^ 64). lia.
    + pose proof (u64_incr_eq (heartbeats_skipped (stats_ self))).
      exists (q + (total_packets (stats_ self) + 1) / 2 ^ 64
                - (heartbeats_skipped (stats_ self) + 1) / 2 ^ 64). lia.
    + pose proof (u64_incr_eq (data_packets (stats_ self))).
      exists (q + (total_packets (stats_ self) + 1) / 2 ^ 64
                - (data_packets (stats_ self) + 1) / 2 ^ 64). lia.
    + pose proof (u64_incr_eq (admin_packets (stats_ self))).
      exists (q + (total_packets (stats_ self) + 1) / 2 ^ 64
                - (admin_packets (stats_ self) + 1) / 2 ^ 64). lia.
    + pose proof (u64_incr_eq (unsequenced_packets (stats_ self))).
      exists (q + (total_packets (stats_ self) + 1) / 2 ^ 64
                - (unsequenced_packets (stats_ self) + 1) / 2 ^ 64). lia.
Qed.

Lemma process_all_balanced (fuel : nat) (ds : list Datagram) :
  forall (self self' : PacketProcessor) (n k : Z),
    balanced (stats_ self) n k ->
    n + Z.of_nat (List.length ds) < 2 ^ 64 ->
    process_all inet_aton fuel ds self = Some self' ->
    balanced (stats_ self') (n + Z.of_nat (List.length ds)) (k + invalid_count ds).
Proof.
  induction ds as [|d ds IH]; intros self self' n k Hb Hn Hrun; simpl in Hrun.
  - injection Hrun as <-. change (invalid_count []) with 0. simpl.
    rewrite !Z.add_0_r. exact Hb.
  - destruct (process_datagram inet_aton fuel d self) as [self1|] eqn:Hstep;
      simpl in Hrun; [|discriminate].
    rewrite invalid_count_cons, Z.add_assoc.
    cbn [List.length] in *. rewrite Nat2Z.inj_succ in *.
    replace (n + Z.succ (Z.of_nat (List.length ds)))
      with ((n + 1) + Z.of_nat (List.length ds)) by lia.
    apply (IH self1 self' _ _); [|lia|exact Hrun].
    destruct (process_datagram_counted _ _ _ _ Hstep) as [Htot Hc].
    destruct Hb as (Hh & Hd & Ha & Hu & Hk & Hn' & Hsum). unfold balanced.
    rewrite Htot, Hn', (u64_incr_small n) by lia.
    destruct Hc as [-> Eh Ed Ea Eu| -> Eh Ed Ea Eu| -> Eh Ed Ea Eu| -> Eh Ed Ea Eu
                   | -> Eh Ed Ea Eu]; rewrite Eh, Ed, Ea, Eu;
      rewrite ?u64_incr_small by lia; lia.
Qed.

(** C9. With heartbeat filtering compiled in, after every call of
    [process_packet] that returns, counting from the freshly constructed
    processor, [data + admin + unsequenced = total - invalid - heartbeats_skipped]
    where [invalid] is the number of packets [validate_packet] rejected: as an
    equation between [uint64_t] values always, and exactly as long as fewer
    than 2^64 packets were processed. *)
Theorem statistics_balance (fuel : nat) (ds : list Datagram) (self' : PacketProcessor) :
  process_all inet_aton fuel ds PacketProcessor_init = Some self' ->
  let s := stats_ self' in
  Config.SKIP_HEARTBEATS = true
  /\ wrap64 (data_packets s + admin_packets s + unsequenced_packets s)
     = wrap64 (total_packets s - invalid_count ds - heartbeats_skipped s)
  /\ (Z.of_nat (List.length ds) < 2 ^ 64 ->
      data_packets s + admin_packets s + unsequenced_packets s
      = total_packets s - invalid_count ds - heartbeats_skipped s).
Proof.
  intros Hrun s. split; [reflexivity|]. split.
  - assert (Hb : balanced_mod (stats_ PacketProcessor_init) 0) by (exists 0; reflexivity).
    destruct (process_all_balanced_mod _ _ _ _ _ Hb Hrun) as [q Hq].
    fold s in Hq. rewrite Z.add_0_l in Hq. rewrite Hq. unfold wrap64.
    apply Z_mod_plus_full.
  - intros Hlen.
    assert (Hb : balanced (stats_ PacketProcessor_init) 0 0)
      by (repeat split; simpl; lia).
    destruct (process_all_balanced _ _ _ _ _ _ Hb Hlen Hrun)
      as (_ & _ & _ & _ & _ & Htot & Hsum).
    fold s in Htot, Hsum. rewrite Z.add_0_l in *. lia.
Qed.

End PipelineProperties.

Lemma statistics_balance_witness :
  exists self',
    process_all (fun _ => None) 0 sample_capture PacketProcessor_init = Some self'
    /\ total_packets (stats_ self') = 4
    /\ invalid_count sample_capture = 1
    /\ data_packets (stats_ self') + admin_packets (stats_ self')
       + unsequenced_packets (stats_ self')
       = total_packets (stats_ self') - invalid_count sample_capture
         - heartbeats_skipped (stats_ self').
Proof.
  destruct (process_all (fun _ => None) 0 sample_capture PacketProcessor_init)
    as [self'|] eqn:H.
  2: { vm_compute in H. discriminate. }
  exists self'. split; [reflexivity|].
  split; [vm_compute in H; injection H as <-; reflexivity|].
  split; [reflexivity|].
  apply (statistics_balance _ _ _ _ H). simpl. lia.
Defined.

(** ** The binary record *)

Lemma byte_val_of_Z (z : Z) : byte_val (byte_of_Z z) = wrap8 z.
Proof.
  unfold byte_val, byte_of_Z, wrap8.
  pose proof (Z.mod_pos_bound z (2 ^ 8) ltac:(lia)) as Hb.
  destruct (Byte.of_N (Z.to_N (z mod 2 ^ 8))) as [b|] eqn:Hof.
  - apply Byte.to_of_N in Hof. rewrite Hof. lia.
  - apply Byte.of_N_None_iff in Hof. change (2 ^ 8) with 256 in *. lia.
Qed.

Lemma length_le_bytes (width : nat) : forall v, List.length (le_bytes width v) = width.
Proof. induction width as [|w IH]; intros v; simpl; [|rewrite IH]; reflexivity. Qed.

Lemma load_le_app (width : nat) (pre rest : list byte) :
  forall k, load_le width (pre ++ rest) (List.length pre + k) = load_le width rest k.
Proof.
  induction width as [|w IH]; intros k; [reflexivity|].
  cbn [load_le]. rewrite <- Nat.add_succ_r, IH. unfold byte_at.
  rewrite app_nth2_plus. reflexivity.
Qed.

Lemma load_le_skip (width width' : nat) (v : Z) (rest : list byte) (offset : nat) :
  (width' <= offset)%nat ->
  load_le width (le_bytes width' v ++ rest) offset = load_le width rest (offset - width').
Proof.
  intros Hle. replace offset with (List.length (le_bytes width' v) + (offset - width'))%nat at 1
    by (rewrite length_le_bytes; lia).
  apply load_le_app.
Qed.

Lemma load_le_bytes (width : nat) (rest : list byte) :
  forall v, load_le width (le_bytes width v ++ rest) 0 = v mod 2 ^ (8 * Z.of_nat width).
Proof.
  induction width as [|w IH]; intros v.
  - simpl. rewrite Z.mod_1_r. reflexivity.
  - cbn [load_le le_bytes app].
    change (byte_of_Z v :: le_bytes w (v / 2 ^ 8) ++ rest)
      with ([byte_of_Z v] ++ (le_bytes w (v / 2 ^ 8) ++ rest)).
    rewrite (load_le_app w [byte_of_Z v] _ 0), IH.
    unfold byte_at. cbn [app nth]. rewrite byte_val_of_Z. unfold wrap8.
    replace (8 * Z.of_nat (S w)) with (8 + 8 * Z.of_nat w) by lia.
    rewrite Z.pow_add_r by lia.
    rewrite (Z.rem_mul_r v (2 ^ 8) (2 ^ (8 * Z.of_nat w))) by lia.
    reflexivity.
Qed.

Lemma load_le_bytes_end (width : nat) (v : Z) :
  load_le width (le_bytes width v) 0 = v mod 2 ^ (8 * Z.of_nat width).
Proof. rewrite <- (app_nil_r (le_bytes width v)). apply load_le_bytes. Qed.

Lemma length_record_bytes (r : BinaryLogRecord.t) :
  Z.of_nat (List.length (record_bytes r)) = sizeof_BinaryLogRecord.
Proof. unfold record_bytes. rewrite !length_app, !length_le_bytes. reflexivity. Qed.

Ltac field_at :=
  unfold record_bytes, load_u64, load_u32, load_u16;
  repeat (rewrite load_le_skip by (cbv; lia); cbn [Nat.sub]);
  first [rewrite load_le_bytes | rewrite load_le_bytes_end]; reflexivity.

(** The fields of a serialized record sit at the offsets of the packed
    struct: 0, 8, 12, 16, 20, 22, 24, 25, 26, 27, 28. *)
Lemma record_bytes_layout (r : BinaryLogRecord.t) :
  load_u64 (record_bytes r) 0 = wrap64 (BinaryLogRecord.timestamp_ns r)
  /\ load_u32 (record_bytes r) 8 = wrap32 (BinaryLogRecord.packet_id r)
  /\ load_u32 (record_bytes r) 12 = wrap32 (BinaryLogRecord.sequence r)
  /\ load_u32 (record_bytes r) 16 = wrap32 (BinaryLogRecord.src_ip r)
  /\ load_u16 (record_bytes r) 20 = wrap16 (BinaryLogRecord.port r)
  /\ load_u16 (record_bytes r) 22 = wrap16 (BinaryLogRecord.length r)
  /\ load_le 1 (record_bytes r) 24 = wrap8 (BinaryLogRecord.count r)
  /\ load_le 1 (record_bytes r) 25 = wrap8 (BinaryLogRecord.unit r)
  /\ load_le 1 (record_bytes r) 26 = wrap8 (BinaryLogRecord.packet_type r)
  /\ load_le 1 (record_bytes r) 27 = wrap8 (BinaryLogRecord.order_status r)
  /\ load_u16 (record_bytes r) 28 = wrap16 (BinaryLogRecord.payload_length r).
Proof. repeat split; field_at. Qed.

(** C10. A call of [log_packet] hands exactly one entry to the binary logger:
    the 30 bytes of the packed [BinaryLogRecord], its fields in declaration
    order at offsets 0, 8, 12, 16, 20, 22, 24, 25, 26, 27 and 28, followed by
    exactly [payload_length = min(len, 256)] bytes from the start of the
    packet. [len] is the [uint16_t] argument and the buffer holds [len]
    bytes. *)
Theorem log_packet_one_entry (now packet_id port : Z) (buffer : list byte)
    (len sequence count unit : Z) (packet_type : PacketType.t)
    (order_status : OrderStatus.t) (src_ip : Z) (self : BinaryLogger)
    (Hlen : is_u16 len) (Hbuffer : len <= Z.of_nat (List.length buffer)) :
  let payload_length := Z.min len 256 in
  exists header payload : list byte,
    binary_logger_
      (log_packet now packet_id port buffer len sequence count unit packet_type
         order_status src_ip self)
    = binary_logger_ self ++ [header ++ payload]
    /\ Z.of_nat (List.length header) = sizeof_BinaryLogRecord
    /\ sizeof_BinaryLogRecord = 30
    /\ payload = take (Z.to_nat payload_length) buffer
    /\ Z.of_nat (List.length payload) = payload_length
    /\ load_u64 header 0 = wrap64 now
    /\ load_u32 header 8 = wrap32 packet_id
    /\ load_u32 header 12 = wrap32 sequence
    /\ load_u32 header 16 = wrap32 src_ip
    /\ load_u16 header 20 = wrap16 port
    /\ load_u16 header 22 = len
    /\ load_le 1 header 24 = wrap8 count
    /\ load_le 1 header 25 = wrap8 unit
    /\ load_le 1 header 26 = PacketType.to_u8 packet_type
    /\ load_le 1 header 27 = OrderStatus.to_u8 order_status
    /\ load_u16 header 28 = payload_length.
Proof.
  intros payload_length.
  assert (Hpl : Z.min (wrap16 len) (wrap16 256) = payload_length)
    by (rewrite (wrap16_small len Hlen); reflexivity).
  unfold log_packet. rewrite Hpl. cbn [binary_logger_].
  eexists. eexists. split; [reflexivity|].
  split; [apply length_record_bytes|]. split; [reflexivity|]. split; [reflexivity|].
  split; [rewrite length_take; subst payload_length; unfold is_u16 in Hlen; lia|].
  match goal with
  | |- context [record_bytes ?r] =>
      destruct (record_bytes_layout r)
        as (E0 & E8 & E12 & E16 & E20 & E22 & E24 & E25 & E26 & E27 & E28)
  end.
  cbn [BinaryLogRecord.timestamp_ns BinaryLogRecord.packet_id BinaryLogRecord.sequence
       BinaryLogRecord.src_ip BinaryLogRecord.port BinaryLogRecord.length
       BinaryLogRecord.count BinaryLogRecord.unit BinaryLogRecord.packet_type
       BinaryLogRecord.order_status BinaryLogRecord.payload_length] in *.
  repeat split; try assumption.
  - rewrite E22. apply wrap16_small, Hlen.
  - rewrite E26. destruct packet_type; reflexivity.
  - rewrite E27. destruct order_status; reflexivity.
  - rewrite E28. apply wrap16_small. subst payload_length. unfold is_u16 in *. lia.
Qed.

Lemma log_packet_one_entry_witness :
  exists header payload : list byte,
    binary_logger_
      (log_packet 1000 7 30501 [x09; x00; x01; x01; x01; x00; x00; x00; x41] 9 1 1 1
         PacketType.DATA OrderStatus.SEQUENCED_FIRST 0 BinaryLogger_init)
    = [header ++ payload]
    /\ Z.of_nat (List.length header) = 30
    /\ payload = [x09; x00; x01; x01; x01; x00; x00; x00; x41]
    /\ load_u16 header 28 = 9.
Proof.
  assert (Hlen : is_u16 9) by (unfold is_u16; lia).
  assert (Hbuffer : 9 <= Z.of_nat (List.length
                                    [x09; x00; x01; x01; x01; x00; x00; x00; x41]))
    by (simpl; lia).
  destruct (log_packet_one_entry 1000 7 30501 _ 9 1 1 1 PacketType.DATA
              OrderStatus.SEQUENCED_FIRST 0 BinaryLogger_init Hlen Hbuffer)
    as (header & payload & Hentry & Hsize & _ & Hpayload & _ & _ & _ & _ & _ & _ & _
        & _ & _ & _ & _ & Hstored).
  exists header, payload. repeat split; assumption.
Defined.

(** ** Fuel *)

Lemma scan_run_mono (fuel : nat) (pending : gmap Z bool) :
  forall (fuel' : nat) (confirmed_end r : Z),
    scan_run fuel pending confirmed_end = Some r -> (fuel <= fuel')%nat ->
    scan_run fuel' pending confirmed_end = Some r.
Proof.
  induction fuel as [|fuel IH]; intros fuel' ce r Hrun Hle; [discriminate|].
  destruct fuel' as [|fuel']; [lia|]. simpl in *.
  destruct (pending !! u32_add ce 1); [apply IH; [exact Hrun|lia]|exact Hrun].
Qed.

Lemma erase_run_mono (fuel : nat) (confirmed_end : Z) :
  forall (fuel' : nat) (pending r : gmap Z bool) (s : Z),
    erase_run fuel pending s confirmed_end = Some r -> (fuel <= fuel')%nat ->
    erase_run fuel' pending s confirmed_end = Some r.
Proof.
  induction fuel as [|fuel IH]; intros fuel' p r s Hrun Hle; [discriminate|].
  destruct fuel' as [|fuel']; [lia|]. simpl in *.
  destruct (s <=? confirmed_end); [apply IH; [exact Hrun|lia]|exact Hrun].
Qed.

Lemma absorb_pending_mono (gas gas' fuel : nat) :
  forall (fuel' : nat) (tracker r : SequenceTracker),
    absorb_pending gas fuel tracker = Some r -> (gas <= gas')%nat -> (fuel <= fuel')%nat ->
    absorb_pending gas' fuel' tracker = Some r.
Proof.
  induction fuel as [|fuel IH]; intros fuel' t r Hrun Hgas Hle; [discriminate|].
  destruct fuel' as [|fuel']; [lia|]. simpl in *.
  destruct (pending_sequences t !! u32_add (last_confirmed_seq t) 1); [|exact Hrun].
  destruct (scan_run gas _ _) as [ce|] eqn:Hscan; simpl in Hrun; [|discriminate].
  rewrite (scan_run_mono _ _ _ _ _ Hscan Hgas). simpl.
  destruct (erase_run gas _ _ _) as [p|] eqn:Herase; simpl in Hrun; [|discriminate].
  rewrite (erase_run_mono _ _ _ _ _ _ Herase Hgas). simpl.
  apply IH; [exact Hrun|exact Hgas|lia].
Qed.

(** More fuel never changes a result. *)
Lemma determine_order_status_at_mono (fuel fuel' : nat) (seq count : Z)
    (tracker : SequenceTracker) (r : OrderStatus.t * SequenceTracker) :
  determine_order_status_at fuel seq count tracker = Some r -> (fuel <= fuel')%nat ->
  determine_order_status_at fuel' seq count tracker = Some r.
Proof.
  unfold determine_order_status_at. intros Hrun Hle.
  destruct (_ && _); [exact Hrun|].
  destruct (seq =? _); [|exact Hrun].
  destruct (absorb_pending fuel fuel _) as [t1|] eqn:Habs; simpl in Hrun; [|discriminate].
  rewrite (absorb_pending_mono _ _ _ _ _ _ Habs Hle Hle). exact Hrun.
Qed.

(** The erase loop compares [s <= confirmed_end] in [uint32_t]: with
    [confirmed_end = UINT32_MAX] the test never fails. *)
Lemma erase_run_to_uint32_max (fuel : nat) :
  forall (pending : gmap Z bool) (s : Z),
    is_u32 s -> erase_run fuel pending s UINT32_MAX = None.
Proof.
  induction fuel as [|fuel IH]; intros p s Hs; [reflexivity|]. simpl.
  rewrite (proj2 (Z.leb_le s UINT32_MAX)) by (unfold is_u32, UINT32_MAX in *; lia).
  apply IH, wrap32_is_u32.
Qed.

(** So the in-order packet that absorbs a pending [UINT32_MAX] never returns. *)
Lemma absorbing_uint32_max_never_returns (fuel : nat) :
  feed_channel fuel [(4294967293, 1); (4294967295, 1); (4294967294, 1)]
    SequenceTracker_default = None.
Proof.
  destruct fuel as [|fuel]; [vm_compute; reflexivity|].
  cbn [feed_channel].
  change (determine_order_status_at (S fuel) 4294967293 1 SequenceTracker_default)
    with (Some (OrderStatus.SEQUENCED_FIRST,
                {| last_confirmed_seq := 4294967293; highest_seen_seq := 4294967293;
                   pending_sequences := ∅ |})).
  cbn [mbind option_bind].
  assert (H : determine_order_status_at (S fuel) 4294967295 1
                {| last_confirmed_seq := 4294967293; highest_seen_seq := 4294967293;
                   pending_sequences := ∅ |}
              = Some (OrderStatus.SEQUENCED_OUT_OF_ORDER_EARLY,
                      {| last_confirmed_seq := 4294967293;
                         highest_seen_seq := 4294967295;
                         pending_sequences := {[ 4294967295 := true ]} |}))
    by (vm_compute; reflexivity).
  rewrite H. cbn [mbind option_bind].
  assert (H' : determine_order_status_at (S fuel) 4294967294 1
                 {| last_confirmed_seq := 4294967293; highest_seen_seq := 4294967295;
                    pending_sequences := {[ 4294967295 := true ]} |} = None).
  { unfold determine_order_status_at.
    change (guarded_message_count 4294967294 1) with 1.
    change (range_end 4294967294 1) with 4294967294.
    cbn [last_confirmed_seq highest_seen_seq pending_sequences].
    change (u32_add 4294967293 1) with 4294967294.
    change ((4294967293 =? 0) && (4294967295 =? 0)) with false.
    change (4294967294 =? 4294967294) with true. cbv iota.
    cbn [absorb_pending last_confirmed_seq highest_seen_seq pending_sequences].
    change (u32_add 4294967294 1) with 4294967295.
    change (({[ 4294967295 := true ]} : gmap Z bool) !! 4294967295) with (Some true).
    cbv iota.
    change (scan_run (S fuel) {[ 4294967295 := true ]} 4294967295)
      with (Some 4294967295).
    cbn [mbind option_bind].
    rewrite (erase_run_to_uint32_max (S fuel)) by (unfold is_u32; lia).
    reflexivity. }
  rewrite H'. reflexivity.
Qed.

(** ** Termination of the absorption loops *)

Lemma u32_add_1_nonzero (a : Z) :
  is_u32 a -> u32_add a 1 <> 0 -> a < UINT32_MAX /\ u32_add a 1 = a + 1.
Proof.
  unfold is_u32, UINT32_MAX. intros Ha Hnz.
  destruct (decide (a = 4294967295)) as [->|Hne]; [contradiction Hnz; reflexivity|].
  split; [lia|]. apply u32_add_small. unfold is_u32. lia.
Qed.

(** The scan stops at the latest when [confirmed_end + 1] wraps to 0, which
    is never pending. *)
Lemma scan_run_terminates (pending : gmap Z bool) (n : nat) :
  forall confirmed_end : Z,
    is_u32 confirmed_end -> pending !! 0 = None ->
    Z.to_nat (UINT32_MAX - confirmed_end) = n ->
    exists r,
      scan_run (S n) pending confirmed_end = Some r
      /\ confirmed_end <= r <= UINT32_MAX
      /\ pending !! u32_add r 1 = None
      /\ (forall k, confirmed_end < k <= r -> is_Some (pending !! k)).
Proof.
  induction n as [|n IH]; intros ce Hce H0 Hn; cbn [scan_run];
    destruct (pending !! u32_add ce 1) as [b|] eqn:Hnext;
    try (exists ce; unfold is_u32, UINT32_MAX in *;
         repeat split; [lia|lia|exact Hnext|intros k Hk; lia]).
  - assert (Hnz : u32_add ce 1 <> 0) by congruence.
    apply (u32_add_1_nonzero _ Hce) in Hnz as [Hlt _]. lia.
  - assert (Hnz : u32_add ce 1 <> 0) by congruence.
    apply (u32_add_1_nonzero _ Hce) in Hnz as [Hlt Heq].
    rewrite Heq in *. unfold is_u32, UINT32_MAX in *.
    destruct (IH (ce + 1)) as (r & Hrun & Hr & Hstop & Hall);
      [unfold is_u32; lia|exact H0|lia|].
    exists r. repeat split; [exact Hrun|lia|lia|exact Hstop|].
    intros k Hk. destruct (decide (k = ce + 1)) as [->|Hne]; [eauto|].
    apply Hall. lia.
Qed.

(** Below [UINT32_MAX] the erase loop ends, and it touches no key above
    [confirmed_end]. *)
Lemma erase_run_terminates (confirmed_end : Z) (n : nat) :
  forall (pending : gmap Z bool) (s : Z),
    is_u32 s -> s <= confirmed_end + 1 -> confirmed_end < UINT32_MAX ->
    Z.to_nat (confirmed_end + 1 - s) = n ->
    exists r,
      erase_run (S n) pending s confirmed_end = Some r
      /\ (forall k, confirmed_end < k -> r !! k = pending !! k).
Proof.
  induction n as [|n IH]; intros p s Hs Hle Hmax Hn; cbn [erase_run].
  - rewrite (proj2 (Z.leb_gt s confirmed_end)) by lia. exists p. split; reflexivity.
  - rewrite (proj2 (Z.leb_le s confirmed_end)) by lia.
    unfold is_u32, UINT32_MAX in *.
    rewrite u32_add_small by (unfold is_u32; lia).
    destruct (IH (delete s p) (s + 1)) as (r & Hrun & Hframe);
      [unfold is_u32; lia|lia|unfold UINT32_MAX; lia|lia|].
    exists r. split; [exact Hrun|]. intros k Hk.
    rewrite (Hframe k Hk). apply lookup_delete_ne. lia.
Qed.

(** Unless [UINT32_MAX] is pending, the [while (true)] loop ends, after at
    most two rounds. *)
Lemma absorb_pending_terminates (tracker : SequenceTracker) :
  is_u32 (last_confirmed_seq tracker) ->
  pending_sequences tracker !! 0 = None ->
  pending_sequences tracker !! UINT32_MAX = None ->
  exists r, absorb_pending enough_fuel enough_fuel tracker = Some r.
Proof.
  intros Hlc H0 Hmax.
  enough (exists r, absorb_pending enough_fuel 2 tracker = Some r) as [r Hr].
  { exists r. apply (absorb_pending_mono _ _ _ _ _ _ Hr); unfold enough_fuel; lia. }
  cbn [absorb_pending].
  destruct (pending_sequences tracker !! u32_add (last_confirmed_seq tracker) 1)
    as [b|] eqn:Hnext; [|eauto].
  assert (Hnz : u32_add (last_confirmed_seq tracker) 1 <> 0) by congruence.
  apply (u32_add_1_nonzero _ Hlc) in Hnz as [Hlt Heq]. rewrite Heq in *.
  unfold is_u32, UINT32_MAX in Hlc, Hlt.
  destruct (scan_run_terminates (pending_sequences tracker) _
              (last_confirmed_seq tracker + 1) ltac:(unfold is_u32; lia) H0 eq_refl)
    as (ce & Hscan & Hce & Hstop & Hall).
  rewrite (scan_run_mono _ _ enough_fuel _ _ Hscan)
    by (unfold enough_fuel, UINT32_MAX; lia).
  cbn [mbind option_bind].
  assert (Hce_max : ce < UINT32_MAX).
  { destruct (decide (ce = UINT32_MAX)) as [->|Hne]; [|lia]. exfalso.
    destruct (decide (last_confirmed_seq tracker + 1 = UINT32_MAX)) as [E|E].
    - rewrite E in Hnext. congruence.
    - destruct (Hall UINT32_MAX ltac:(unfold UINT32_MAX in *; lia)) as [b' Hb'].
      congruence. }
  destruct (erase_run_terminates ce _ (pending_sequences tracker)
              (last_confirmed_seq tracker + 1) ltac:(unfold is_u32; lia)
              ltac:(lia) Hce_max eq_refl)
    as (p & Herase & Hframe).
  rewrite (erase_run_mono _ _ enough_fuel _ _ _ Herase)
    by (unfold enough_fuel, UINT32_MAX in *; lia).
  cbn [mbind option_bind last_confirmed_seq pending_sequences].
  unfold UINT32_MAX in Hce_max.
  rewrite u32_add_small in * by (unfold is_u32; lia).
  rewrite (Hframe (ce + 1)) by lia. rewrite Hstop. eauto.
Qed.

(** [determine_order_status] returns on every channel whose pending keys
    exclude 0 and [UINT32_MAX]. *)
Lemma determine_order_status_at_terminates (seq count : Z) (tracker : SequenceTracker) :
  pending_sequences tracker !! 0 = None ->
  pending_sequences tracker !! UINT32_MAX = None ->
  exists r, determine_order_status_at enough_fuel seq count tracker = Some r.
Proof.
  intros H0 Hmax. unfold determine_order_status_at.
  destruct (_ && _); [eauto|].
  destruct (seq =? _); [|destruct (seq <? _); eauto].
  destruct (absorb_pending_terminates
              {| last_confirmed_seq := range_end seq (guarded_message_count seq count);
                 highest_seen_seq := highest_seen_seq tracker;
                 pending_sequences := pending_sequences tracker |}
              (range_end_is_u32 _ _) H0 Hmax) as [r Hr].
  rewrite Hr. simpl. eauto.
Qed.

(** * Further properties of the tracker *)

(** ** What the absorption loops compute *)

Lemma scan_run_spec (pending : gmap Z bool) (gas : nat) :
  forall confirmed_end r : Z,
    is_u32 confirmed_end -> pending !! 0 = None ->
    scan_run gas pending confirmed_end = Some r ->
    confirmed_end <= r <= UINT32_MAX
    /\ pending !! u32_add r 1 = None
    /\ (forall k, confirmed_end < k <= r -> is_Some (pending !! k)).
Proof.
  induction gas as [|gas IH]; intros ce r Hce H0 Hrun; [discriminate|].
  cbn [scan_run] in Hrun.
  destruct (pending !! u32_add ce 1) as [b|] eqn:Hnext.
  - assert (Hnz : u32_add ce 1 <> 0) by congruence.
    apply (u32_add_1_nonzero _ Hce) in Hnz as [Hlt Heq]. rewrite Heq in *.
    unfold is_u32, UINT32_MAX in *.
    destruct (IH (ce + 1) r ltac:(unfold is_u32; lia) H0 Hrun) as (Hr & Hstop & Hall).
    repeat split; [lia|lia|exact Hstop|].
    intros k Hk. destruct (decide (k = ce + 1)) as [->|Hne]; [eauto|apply Hall; lia].
  - injection Hrun as <-. unfold is_u32, UINT32_MAX in *.
    repeat split; [lia|lia|exact Hnext|intros k Hk; lia].
Qed.

Lemma erase_run_spec (confirmed_end : Z) (gas : nat) :
  forall (pending r : gmap Z bool) (s : Z),
    is_u32 s -> is_u32 confirmed_end ->
    erase_run gas pending s confirmed_end = Some r ->
    confirmed_end < UINT32_MAX
    /\ forall k, r !! k = if decide (s <= k <= confirmed_end) then None else pending !! k.
Proof.
  induction gas as [|gas IH]; intros p r s Hs Hce Hrun; [discriminate|].
  assert (Hmax : confirmed_end < UINT32_MAX).
  { destruct (decide (confirmed_end = UINT32_MAX)) as [->|Hne].
    - rewrite erase_run_to_uint32_max in Hrun by exact Hs. discriminate.
    - unfold is_u32, UINT32_MAX in *. lia. }
  split; [exact Hmax|]. cbn [erase_run] in Hrun.
  destruct (Z.leb_spec s confirmed_end) as [Hle|Hgt].
  - unfold is_u32, UINT32_MAX in *.
    rewrite u32_add_small in Hrun by (unfold is_u32; lia).
    destruct (IH _ _ (s + 1) ltac:(unfold is_u32; lia) Hce Hrun) as [_ Hlook].
    intros k. rewrite Hlook.
    destruct (decide (k = s)) as [->|Hne].
    + rewrite lookup_delete_eq. repeat case_decide; try reflexivity; lia.
    + rewrite lookup_delete_ne by congruence. repeat case_decide; try reflexivity; lia.
  - injection Hrun as <-. intros k. case_decide; [lia|reflexivity].
Qed.

(** The in-order loop advances [last_confirmed_seq] over the pending
    sequences that follow it without a gap, removes exactly those from
    [pending], and stops in front of a sequence that is not pending. *)
Lemma absorb_pending_spec (gas fuel : nat) :
  forall tracker tracker' : SequenceTracker,
    is_u32 (last_confirmed_seq tracker) ->
    pending_sequences tracker !! 0 = None ->
    absorb_pending gas fuel tracker = Some tracker' ->
    highest_seen_seq tracker' = highest_seen_seq tracker
    /\ last_confirmed_seq tracker <= last_confirmed_seq tracker' <= UINT32_MAX
    /\ (forall k, last_confirmed_seq tracker < k <= last_confirmed_seq tracker' ->
                  is_Some (pending_sequences tracker !! k))
    /\ pending_sequences tracker' !! u32_add (last_confirmed_seq tracker') 1 = None
    /\ (forall k, pending_sequences tracker' !! k =
                    if decide (last_confirmed_seq tracker < k
                               <= last_confirmed_seq tracker')
                    then None else pending_sequences tracker !! k).
Proof.
  induction fuel as [|fuel IH]; intros t t' Hlc H0 Hrun; [discriminate|].
  cbn [absorb_pending] in Hrun.
  destruct (pending_sequences t !! u32_add (last_confirmed_seq t) 1) as [b|] eqn:Hnext.
  2: { injection Hrun as <-. unfold is_u32, UINT32_MAX in Hlc |- *.
       repeat split; [lia|lia|intros k Hk; lia|exact Hnext|].
       intros k. case_decide; [lia|reflexivity]. }
  assert (Hnz : u32_add (last_confirmed_seq t) 1 <> 0) by congruence.
  apply (u32_add_1_nonzero _ Hlc) in Hnz as [Hlt Heq]. rewrite Heq in *.
  destruct (scan_run gas _ _) as [ce|] eqn:Hscan; simpl in Hrun; [|discriminate].
  destruct (erase_run gas _ _ _) as [p|] eqn:Herase; simpl in Hrun; [|discriminate].
  unfold is_u32, UINT32_MAX in Hlc, Hlt.
  assert (Hs : is_u32 (last_confirmed_seq t + 1)) by (unfold is_u32; lia).
  destruct (scan_run_spec _ _ _ _ Hs H0 Hscan) as (Hce & Hstop & Hall).
  assert (Hce32 : is_u32 ce) by (unfold is_u32, UINT32_MAX in *; lia).
  destruct (erase_run_spec _ _ _ _ _ Hs Hce32 Herase) as [Hce_max Hlook].
  assert (H0' : p !! 0 = None)
    by (rewrite Hlook; case_decide; [reflexivity|exact H0]).
  destruct (IH (mkTracker ce (highest_seen_seq t) p) t' Hce32 H0' Hrun)
    as (Hhs & Hrange & Hrun_all & Hexp & Hlook').
  cbn [last_confirmed_seq highest_seen_seq pending_sequences] in *.
  repeat split; [exact Hhs|lia|lia| |exact Hexp|].
  - intros k Hk. destruct (decide (k <= ce)) as [Hle|Hgt].
    + destruct (decide (k = last_confirmed_seq t + 1)) as [->|Hne]; [eauto|].
      apply Hall. lia.
    + specialize (Hrun_all k ltac:(lia)). rewrite Hlook in Hrun_all.
      case_decide; [lia|exact Hrun_all].
  - intros k. rewrite Hlook', Hlook. repeat case_decide; try reflexivity; lia.
Qed.

(** ** The channel invariant *)

Lemma guarded_message_count_range (seq count : Z) :
  is_u32 seq -> is_u8 count ->
  1 <= guarded_message_count seq count <= Z.max count 1
  /\ seq + guarded_message_count seq count - 1 <= UINT32_MAX
  /\ (seq + Z.max count 1 - 1 <= UINT32_MAX ->
      guarded_message_count seq count = Z.max count 1).
Proof.
  intros Hs Hc. rewrite (guarded_message_count_spec seq count Hc).
  unfold is_u32, is_u8, UINT32_MAX in *.
  destruct (Z.ltb_spec (4294967295 - Z.max count 1 + 1) seq); lia.
Qed.

Lemma foldl_insert_lookup (f : Z -> Z) (l : list Z) :
  forall (p : gmap Z bool) (k : Z),
    foldl (fun p i => <[f i := true]> p) p l !! k =
      if decide (k ∈ f <$> l) then Some true else p !! k.
Proof.
  induction l as [|a l IH]; intros p k; cbn [foldl fmap list_fmap].
  - case_decide as H; [|reflexivity]. apply elem_of_nil in H. contradiction.
  - rewrite IH. fold (f <$> l). rewrite lookup_insert.
    destruct (decide (k ∈ f <$> l)) as [Hin|Hout].
    + rewrite decide_True by (apply list_elem_of_further, Hin). reflexivity.
    + destruct (decide (f a = k)) as [Ha|Ha].
      * rewrite decide_True by (rewrite <- Ha; apply list_elem_of_here). reflexivity.
      * rewrite decide_False; [reflexivity|]. intros Hc.
        apply elem_of_cons in Hc as [Hc|Hc]; [congruence|contradiction].
Qed.

(** The early branch marks exactly the sequences the packet covers. *)
Lemma mark_pending_lookup (seq message_count : Z) (pending : gmap Z bool) (k : Z) :
  is_u32 seq -> seq + message_count - 1 <= UINT32_MAX ->
  mark_pending seq message_count pending !! k =
    if decide (seq <= k < seq + message_count) then Some true else pending !! k.
Proof.
  intros Hs Hend. unfold mark_pending. rewrite foldl_insert_lookup.
  unfold is_u32, UINT32_MAX in *.
  destruct (decide (k ∈ u32_add seq <$> seqZ 0 message_count)) as [Hin|Hout];
    destruct (decide (seq <= k < seq + message_count)) as [Hk|Hk];
    try reflexivity; exfalso.
  - apply list_elem_of_fmap in Hin as (i & Hki & Hi). apply elem_of_seqZ in Hi.
    rewrite u32_add_small in Hki by (unfold is_u32; lia). lia.
  - apply Hout. apply list_elem_of_fmap. exists (k - seq). split.
    + rewrite u32_add_small by (unfold is_u32; lia). lia.
    + apply elem_of_seqZ. lia.
Qed.

Lemma tracker_inv_default : tracker_inv SequenceTracker_default.
Proof.
  split; cbn; unfold is_u32; try lia; try tauto.
  intros k [b Hb]. rewrite lookup_empty in Hb. discriminate.
Qed.

Lemma tracker_inv_no_zero (t : SequenceTracker) :
  tracker_inv t -> pending_sequences t !! 0 = None.
Proof.
  intros Hinv. destruct (pending_sequences t !! 0) as [b|] eqn:H; [|reflexivity].
  pose proof (inv_keys t Hinv 0 ltac:(eauto)). lia.
Qed.

(** One call keeps the invariant, and neither counter goes down. *)
Lemma determine_order_status_at_inv (fuel : nat) (seq count : Z)
    (tracker tracker' : SequenceTracker) (verdict : OrderStatus.t) :
  is_u32 seq -> seq <> 0 -> is_u8 count -> tracker_inv tracker ->
  determine_order_status_at fuel seq count tracker = Some (verdict, tracker') ->
  tracker_inv tracker'
  /\ last_confirmed_seq tracker <= last_confirmed_seq tracker'
  /\ highest_seen_seq tracker <= highest_seen_seq tracker'
  /\ 1 <= last_confirmed_seq tracker'.
Proof.
  intros Hs Hnz Hc Hinv.
  destruct (guarded_message_count_range seq count Hs Hc) as (Hm & Hend & _).
  destruct Hinv as [Hlc Hhs Hfresh Hkeys Hexp].
  unfold is_u32, UINT32_MAX in Hs, Hlc, Hhs, Hend.
  unfold determine_order_status_at.
  rewrite (range_end_exact seq (guarded_message_count seq count))
    by (unfold is_u32; lia).
  destruct (Z.eqb_spec (last_confirmed_seq tracker) 0) as [Hz|Hz]; cbn [andb].
  - destruct (Hfresh Hz) as [Hhz Hempty]. rewrite (proj2 (Z.eqb_eq _ 0) Hhz).
    intros [= _ <-]. cbn. split; [|lia].
    split; cbn; unfold is_u32, UINT32_MAX; try lia.
    + intros k [b Hb]. rewrite Hempty, lookup_empty in Hb. discriminate.
    + rewrite Hempty. apply lookup_empty.
  - destruct (Z.eqb_spec seq (u32_add (last_confirmed_seq tracker) 1)) as [Heq|Hne].
    + destruct (absorb_pending _ _ _) as [t1|] eqn:Habs; cbn; [|discriminate].
      intros [= _ <-].
      assert (Hnz' : u32_add (last_confirmed_seq tracker) 1 <> 0) by congruence.
      apply (u32_add_1_nonzero (last_confirmed_seq tracker)
               ltac:(unfold is_u32; lia)) in Hnz' as [Hlt Hsucc].
      rewrite Hsucc in Heq.
      assert (H0 : pending_sequences tracker !! 0 = None).
      { destruct (pending_sequences tracker !! 0) as [b|] eqn:H; [|reflexivity].
        pose proof (Hkeys 0 ltac:(eauto)). lia. }
      apply absorb_pending_spec in Habs; [|cbn; unfold is_u32; lia|exact H0].
      destruct Habs as (Hhs' & Hrange & _ & Hexp' & Hlook).
      cbn [last_confirmed_seq highest_seen_seq pending_sequences] in *.
      unfold UINT32_MAX in Hrange.
      split; [|lia].
      split; unfold is_u32, UINT32_MAX; try lia; try exact Hexp'.
      intros k. rewrite Hlook. case_decide; [intros [b Hb]; discriminate|apply Hkeys].
    + destruct (Z.ltb_spec seq (u32_add (last_confirmed_seq tracker) 1)) as [Hlt|Hge].
      * intros [= _ <-]. split; [|lia]. split; assumption.
      * intros [= _ <-].
        cbn [last_confirmed_seq highest_seen_seq pending_sequences].
        split; [|lia].
        split; cbn [last_confirmed_seq highest_seen_seq pending_sequences];
          unfold is_u32, UINT32_MAX; try lia.
        -- intros k. rewrite mark_pending_lookup by (unfold is_u32, UINT32_MAX; lia).
           case_decide; [lia|apply Hkeys].
        -- rewrite mark_pending_lookup by (unfold is_u32, UINT32_MAX; lia).
           case_decide; [lia|exact Hexp].
Qed.

(** ** From one entry to the map, from one call to a sequence of calls *)

Section FeedInvariant.

(** [P] holds of every entry a call starts from, the default one included;
    [P'] of every entry a call leaves behind. *)
Variables P P' : SequenceTracker -> Prop.
Variable Q : Z * Z * Z * Z -> Prop.

Hypothesis P_default : P SequenceTracker_default.
Hypothesis P'_P : forall tracker, P' tracker -> P tracker.

Hypothesis P_step :
  forall fuel seq count port unit tracker verdict tracker',
    Q (seq, count, port, unit) -> seq <> 0 -> P tracker ->
    determine_order_status_at fuel seq count tracker = Some (verdict, tracker') ->
    P' tracker'.

Lemma tracker_at_entries (key : Z * Z) (trackers_ : SequenceManager) :
  (forall k t, trackers_ !! k = Some t -> P' t) -> P (tracker_at key trackers_).
Proof.
  intros Hall. unfold tracker_at.
  destruct (trackers_ !! key) as [t|] eqn:Hk; cbn;
    [apply P'_P, (Hall _ _ Hk)|exact P_default].
Qed.

Lemma determine_order_status_entries (fuel : nat) (seq count port unit : Z)
    (trackers_ trackers' : SequenceManager) (verdict : OrderStatus.t) :
  Q (seq, count, port, unit) ->
  (forall k t, trackers_ !! k = Some t -> P' t) ->
  determine_order_status fuel seq count port unit trackers_ = Some (verdict, trackers') ->
  forall k t, trackers' !! k = Some t -> P' t.
Proof.
  intros HQ Hall. unfold determine_order_status.
  destruct (Z.eqb_spec seq 0) as [Hz|Hnz]; [intros [= _ <-]; exact Hall|].
  destruct (determine_order_status_at _ _ _ _) as [[v t1]|] eqn:Hat; cbn; [|discriminate].
  intros [= _ <-] k t Hk.
  destruct (decide ((port, unit) = k)) as [<-|Hne].
  - rewrite lookup_insert_eq in Hk. injection Hk as <-.
    apply (P_step _ _ _ _ _ _ _ _ HQ Hnz (tracker_at_entries _ _ Hall) Hat).
  - rewrite lookup_insert_ne in Hk by exact Hne. apply (Hall _ _ Hk).
Qed.

Lemma feed_entries (fuel : nat) (calls : list (Z * Z * Z * Z)) :
  forall (trackers_ trackers' : SequenceManager) (verdicts : list OrderStatus.t),
    Forall Q calls ->
    (forall k t, trackers_ !! k = Some t -> P' t) ->
    feed fuel calls trackers_ = Some (verdicts, trackers') ->
    forall k t, trackers' !! k = Some t -> P' t.
Proof.
  induction calls as [|[[[seq count] port] unit] rest IH]; intros m m' vs HQ Hall Hfeed.
  - injection Hfeed as _ <-. exact Hall.
  - inversion HQ as [|? ? Hcall Hrest]; subst. cbn [feed] in Hfeed.
    destruct (determine_order_status _ _ _ _ _ _) as [[v m1]|] eqn:Hstep;
      cbn in Hfeed; [|discriminate].
    destruct (feed fuel rest m1) as [[vs1 m2]|] eqn:Hfeed1; cbn in Hfeed; [|discriminate].
    injection Hfeed as _ <-.
    apply (IH _ _ _ Hrest (determine_order_status_entries _ _ _ _ _ _ _ _ Hcall Hall Hstep)
             Hfeed1).
Qed.

End FeedInvariant.

Lemma no_entries (P : SequenceTracker -> Prop) :
  forall (k : Z * Z) (t : SequenceTracker), (∅ : SequenceManager) !! k = Some t -> P t.
Proof. intros k t Hk. rewrite lookup_empty in Hk. discriminate. Qed.

Lemma call_ok_step (fuel : nat) (seq count port unit : Z) (tracker : SequenceTracker)
    (verdict : OrderStatus.t) (tracker' : SequenceTracker) :
  call_ok (seq, count, port, unit) -> seq <> 0 -> tracker_inv tracker ->
  determine_order_status_at fuel seq count tracker = Some (verdict, tracker') ->
  tracker_inv tracker' /\ 1 <= last_confirmed_seq tracker'.
Proof.
  intros [Hs Hc] Hnz Hinv Hat. cbn in Hs, Hc.
  destruct (determine_order_status_at_inv _ _ _ _ _ _ Hs Hnz Hc Hinv Hat)
    as (Hinv' & _ & _ & Hpos).
  split; [exact Hinv'|exact Hpos].
Qed.

Lemma feed_tracker_inv (fuel : nat) (calls : list (Z * Z * Z * Z))
    (verdicts : list OrderStatus.t) (trackers' : SequenceManager) :
  Forall call_ok calls ->
  feed fuel calls ∅ = Some (verdicts, trackers') ->
  forall k t, trackers' !! k = Some t -> tracker_inv t /\ 1 <= last_confirmed_seq t.
Proof.
  intros Hcalls Hfeed.
  apply (feed_entries tracker_inv (fun t => tracker_inv t /\ 1 <= last_confirmed_seq t)
           call_ok tracker_inv_default (fun t H => proj1 H) call_ok_step
           fuel calls ∅ trackers' verdicts Hcalls (no_entries _) Hfeed).
Qed.

(** X1. Between calls with [uint32_t] sequences and [uint8_t] counts, every
    channel that has an entry satisfies: [last_confirmed_seq] is at least 1,
    every pending sequence lies between 1 and [UINT32_MAX] (0 is never
    pending), and the next expected sequence [last_confirmed_seq + 1]
    (modulo 2^32) is not pending. *)
Theorem pending_excludes_zero_and_expected (fuel : nat) (calls : list (Z * Z * Z * Z))
    (verdicts : list OrderStatus.t) (trackers' : SequenceManager)
    (port unit : Z) (tracker : SequenceTracker) :
  Forall call_ok calls ->
  feed fuel calls ∅ = Some (verdicts, trackers') ->
  get_tracker port unit trackers' = Some tracker ->
  1 <= last_confirmed_seq tracker <= UINT32_MAX
  /\ is_u32 (highest_seen_seq tracker)
  /\ (forall k, is_Some (pending_sequences tracker !! k) -> 1 <= k <= UINT32_MAX)
  /\ pending_sequences tracker !! 0 = None
  /\ pending_sequences tracker !! u32_add (last_confirmed_seq tracker) 1 = None.
Proof.
  intros Hcalls Hfeed Hget.
  destruct (feed_tracker_inv _ _ _ _ Hcalls Hfeed _ _ Hget) as [Hinv Hpos].
  pose proof (inv_confirmed _ Hinv) as Hlc. unfold is_u32, UINT32_MAX in *.
  repeat split; try lia.
  - apply (inv_highest _ Hinv).
  - apply (inv_highest _ Hinv).
  - apply (inv_keys _ Hinv k H).
  - apply (inv_keys _ Hinv k H).
  - apply (tracker_inv_no_zero _ Hinv).
  - apply (inv_expected _ Hinv).
Qed.

Lemma pending_excludes_zero_and_expected_witness :
  1 <= 10 <= UINT32_MAX
  /\ ({[ 12 := true; 15 := true ]} : gmap Z bool) !! 0 = None
  /\ ({[ 12 := true; 15 := true ]} : gmap Z bool) !! u32_add 10 1 = None.
Proof.
  assert (Hcalls : Forall call_ok
                     [(10, 1, 30501, 1); (15, 1, 30501, 1); (12, 1, 30501, 1)])
    by (repeat constructor; cbn; unfold is_u32 || unfold is_u8; lia).
  assert (Hfeed : feed 0 [(10, 1, 30501, 1); (15, 1, 30501, 1); (12, 1, 30501, 1)] ∅
                  = Some ([OrderStatus.SEQUENCED_FIRST;
                           OrderStatus.SEQUENCED_OUT_OF_ORDER_EARLY;
                           OrderStatus.SEQUENCED_OUT_OF_ORDER_EARLY],
                          {[ (30501, 1) :=
                               {| last_confirmed_seq := 10; highest_seen_seq := 15;
                                  pending_sequences := {[ 12 := true; 15 := true ]} |} ]}))
    by (vm_compute; reflexivity).
  assert (Hget : get_tracker 30501 1
                   {[ (30501, 1) :=
                        {| last_confirmed_seq := 10; highest_seen_seq := 15;
                           pending_sequences := {[ 12 := true; 15 := true ]} |} ]}
                 = Some {| last_confirmed_seq := 10; highest_seen_seq := 15;
                           pending_sequences := {[ 12 := true; 15 := true ]} |})
    by (vm_compute; reflexivity).
  destruct (pending_excludes_zero_and_expected _ _ _ _ _ _ _ Hcalls Hfeed Hget)
    as (Hlc & _ & _ & Hzero & Hexpected).
  split; [exact Hlc|]. split; [exact Hzero|exact Hexpected].
Defined.

(** ** Channels are independent *)

Lemma tracker_at_insert_ne (key key' : Z * Z) (tracker : SequenceTracker)
    (trackers_ : SequenceManager) :
  key <> key' -> tracker_at key' (<[key := tracker]> trackers_) = tracker_at key' trackers_.
Proof. intros Hne. unfold tracker_at. rewrite lookup_insert_ne by exact Hne. reflexivity. Qed.

(** X2. Calls on two different channels commute: made in either order they
    return the same two verdicts and leave the same map; in particular a call
    never reads or changes another channel's entry. *)
Theorem calls_on_different_channels_commute (fuel : nat)
    (seq1 count1 port1 unit1 seq2 count2 port2 unit2 : Z)
    (trackers_ trackers1 trackers12 : SequenceManager) (verdict1 verdict2 : OrderStatus.t) :
  (port1, unit1) <> (port2, unit2) ->
  determine_order_status fuel seq1 count1 port1 unit1 trackers_ = Some (verdict1, trackers1) ->
  determine_order_status fuel seq2 count2 port2 unit2 trackers1 = Some (verdict2, trackers12) ->
  exists trackers2,
    determine_order_status fuel seq2 count2 port2 unit2 trackers_ = Some (verdict2, trackers2)
    /\ determine_order_status fuel seq1 count1 port1 unit1 trackers2
       = Some (verdict1, trackers12)
    /\ get_tracker port2 unit2 trackers1 = get_tracker port2 unit2 trackers_
    /\ get_tracker port1 unit1 trackers2 = get_tracker port1 unit1 trackers_.
Proof.
  intros Hne. unfold determine_order_status, get_tracker.
  destruct (seq1 =? 0), (seq2 =? 0).
  - intros [= <- <-] [= <- <-]. eauto.
  - intros [= <- <-].
    destruct (determine_order_status_at fuel seq2 _ _) as [[v2 t2]|]; cbn; [|discriminate].
    intros [= <- <-]. eexists. split; [reflexivity|].
    split; [reflexivity|]. split; [reflexivity|].
    apply lookup_insert_ne. congruence.
  - destruct (determine_order_status_at fuel seq1 _ _) as [[v1 t1]|] eqn:H1;
      cbn; [|discriminate].
    intros [= <- <-] [= <- <-]. eexists. split; [reflexivity|].
    rewrite H1. cbn. split; [reflexivity|]. split; [|reflexivity].
    apply lookup_insert_ne. exact Hne.
  - destruct (determine_order_status_at fuel seq1 _ _) as [[v1 t1]|] eqn:H1;
      cbn; [|discriminate].
    intros [= <- <-]. rewrite tracker_at_insert_ne by exact Hne.
    destruct (determine_order_status_at fuel seq2 _ _) as [[v2 t2]|]; cbn; [|discriminate].
    intros [= <- <-]. eexists. split; [reflexivity|].
    rewrite tracker_at_insert_ne by congruence. rewrite H1. cbn.
    split; [f_equal; f_equal; apply insert_insert_ne; congruence|].
    split; [apply lookup_insert_ne; exact Hne|apply lookup_insert_ne; congruence].
Qed.

Lemma calls_on_different_channels_commute_witness :
  exists trackers2,
    determine_order_status 0 5 1 30502 2 ∅ = Some (OrderStatus.SEQUENCED_FIRST, trackers2)
    /\ determine_order_status 0 10 1 30501 1 trackers2
       = Some (OrderStatus.SEQUENCED_FIRST,
               {[ (30501, 1) := {| last_confirmed_seq := 10; highest_seen_seq := 10;
                                   pending_sequences := ∅ |};
                  (30502, 2) := {| last_confirmed_seq := 5; highest_seen_seq := 5;
                                   pending_sequences := ∅ |} ]}).
Proof.
  assert (Hne : (30501, 1) <> (30502, 2)) by discriminate.
  assert (H1 : determine_order_status 0 10 1 30501 1 ∅
               = Some (OrderStatus.SEQUENCED_FIRST,
                       {[ (30501, 1) :=
                            {| last_confirmed_seq := 10; highest_seen_seq := 10;
                               pending_sequences := ∅ |} ]}))
    by (vm_compute; reflexivity).
  assert (H2 : determine_order_status 0 5 1 30502 2
                 {[ (30501, 1) :=
                      {| last_confirmed_seq := 10; highest_seen_seq := 10;
                         pending_sequences := ∅ |} ]}
               = Some (OrderStatus.SEQUENCED_FIRST,
                       {[ (30501, 1) :=
                            {| last_confirmed_seq := 10; highest_seen_seq := 10;
                               pending_sequences := ∅ |};
                          (30502, 2) :=
                            {| last_confirmed_seq := 5; highest_seen_seq := 5;
                               pending_sequences := ∅ |} ]}))
    by (vm_compute; reflexivity).
  destruct (calls_on_different_channels_commute _ _ _ _ _ _ _ _ _ _ _ _ _ _ Hne H1 H2)
    as (m2 & H2' & H1' & _).
  exists m2. split; assumption.
Defined.

(** ** The entries of the map *)

Lemma sequenced_channels_cons (seq count port unit : Z) (calls : list (Z * Z * Z * Z)) :
  sequenced_channels ((seq, count, port, unit) :: calls) =
    if seq =? 0 then sequenced_channels calls
    else {[ (port, unit) ]} ∪ sequenced_channels calls.
Proof.
  unfold sequenced_channels. cbn [List.filter fst snd].
  destruct (seq =? 0); cbn [negb]; [reflexivity|].
  cbn [fmap list_fmap]. apply list_to_set_cons.
Qed.

Lemma feed_dom (fuel : nat) (calls : list (Z * Z * Z * Z)) :
  forall (trackers_ trackers' : SequenceManager) (verdicts : list OrderStatus.t),
    feed fuel calls trackers_ = Some (verdicts, trackers') ->
    dom trackers' = dom trackers_ ∪ sequenced_channels calls.
Proof.
  induction calls as [|[[[seq count] port] unit] rest IH]; intros m m' vs Hfeed.
  - injection Hfeed as _ <-. unfold sequenced_channels. cbn.
    rewrite union_empty_r_L. reflexivity.
  - cbn [feed] in Hfeed.
    destruct (determine_order_status _ _ _ _ _ _) as [[v m1]|] eqn:Hstep;
      cbn in Hfeed; [|discriminate].
    destruct (feed fuel rest m1) as [[vs1 m2]|] eqn:Hfeed1; cbn in Hfeed; [|discriminate].
    injection Hfeed as _ <-. rewrite (IH _ _ _ Hfeed1), sequenced_channels_cons.
    unfold determine_order_status in Hstep.
    destruct (seq =? 0); [injection Hstep as _ <-; reflexivity|].
    destruct (determine_order_status_at _ _ _ _) as [[v1 t1]|]; cbn in Hstep;
      [|discriminate].
    injection Hstep as _ <-. rewrite dom_insert_L.
    rewrite (union_comm_L {[(port, unit)]} (dom m)), (union_assoc_L (dom m)).
    reflexivity.
Qed.

(** X3. After any sequence of calls on a fresh manager, [get_tracker] returns
    an entry exactly for the channels that received a packet with a non-zero
    sequence, and [get_tracker_count] is the number of such channels: packets
    with sequence 0 create no entry. *)
Theorem entries_are_the_sequenced_channels (fuel : nat) (calls : list (Z * Z * Z * Z))
    (verdicts : list OrderStatus.t) (trackers' : SequenceManager) :
  feed fuel calls ∅ = Some (verdicts, trackers') ->
  get_tracker_count trackers' = size (sequenced_channels calls)
  /\ forall port unit,
       is_Some (get_tracker port unit trackers') <-> (port, unit) ∈ sequenced_channels calls.
Proof.
  intros Hfeed. apply feed_dom in Hfeed. rewrite dom_empty_L, union_empty_l_L in Hfeed.
  unfold get_tracker_count, get_tracker. rewrite <- Hfeed. split.
  - symmetry. apply size_dom.
  - intros port unit. symmetry. apply elem_of_dom.
Qed.

Lemma entries_are_the_sequenced_channels_witness :
  get_tracker_count
    ({[ (30501, 1) := {| last_confirmed_seq := 10; highest_seen_seq := 10;
                         pending_sequences := ∅ |} ]} : SequenceManager)
  = size (sequenced_channels [(0, 0, 30501, 7); (10, 1, 30501, 1); (10, 1, 30501, 1)]).
Proof.
  assert (Hfeed : feed 0 [(0, 0, 30501, 7); (10, 1, 30501, 1); (10, 1, 30501, 1)] ∅
                  = Some ([OrderStatus.UNSEQUENCED; OrderStatus.SEQUENCED_FIRST;
                           OrderStatus.SEQUENCED_DUPLICATE],
                          {[ (30501, 1) :=
                               {| last_confirmed_seq := 10; highest_seen_seq := 10;
                                  pending_sequences := ∅ |} ]}))
    by (vm_compute; reflexivity).
  exact (proj1 (entries_are_the_sequenced_channels _ _ _ _ Hfeed)).
Defined.

(** ** Verdicts and what they do to the entry *)

(** X4. A replay of an already confirmed sequence ([1 <= seq <=
    last_confirmed_seq]) on a channel whose [last_confirmed_seq] is below
    [UINT32_MAX] returns SEQUENCED_DUPLICATE and leaves the whole map
    unchanged, whatever the count. *)
Theorem confirmed_replay_is_duplicate (fuel : nat) (seq count port unit : Z)
    (trackers_ : SequenceManager) (tracker : SequenceTracker) :
  get_tracker port unit trackers_ = Some tracker ->
  last_confirmed_seq tracker < UINT32_MAX ->
  1 <= seq <= last_confirmed_seq tracker ->
  determine_order_status fuel seq count port unit trackers_ =
    Some (OrderStatus.SEQUENCED_DUPLICATE, trackers_).
Proof.
  intros Hget Hmax Hseq. apply duplicate_leaves_state_unchanged;
    unfold tracker_at; unfold get_tracker in Hget; rewrite Hget; assumption.
Qed.

Lemma confirmed_replay_is_duplicate_witness :
  determine_order_status 0 7 3 30501 1
    {[ (30501, 1) := {| last_confirmed_seq := 10; highest_seen_seq := 10;
                        pending_sequences := ∅ |} ]}
  = Some (OrderStatus.SEQUENCED_DUPLICATE,
          {[ (30501, 1) := {| last_confirmed_seq := 10; highest_seen_seq := 10;
                              pending_sequences := ∅ |} ]}).
Proof.
  apply (confirmed_replay_is_duplicate 0 7 3 30501 1 _
           {| last_confirmed_seq := 10; highest_seen_seq := 10;
              pending_sequences := ∅ |}).
  - vm_compute. reflexivity.
  - cbn. unfold UINT32_MAX. lia.
  - cbn. lia.
Defined.

Lemma reachable_tracker_at (fuel : nat) (calls : list (Z * Z * Z * Z))
    (verdicts : list OrderStatus.t) (trackers_ : SequenceManager) (key : Z * Z) :
  Forall call_ok calls ->
  feed fuel calls ∅ = Some (verdicts, trackers_) ->
  tracker_inv (tracker_at key trackers_).
Proof.
  intros Hcalls Hfeed. unfold tracker_at.
  destruct (trackers_ !! key) as [t|] eqn:Hk; cbn.
  - apply (feed_tracker_inv _ _ _ _ Hcalls Hfeed _ _ Hk).
  - apply tracker_inv_default.
Qed.

(** X5. On every channel, a call never lowers [last_confirmed_seq] or
    [highest_seen_seq] (a missing entry counting as 0), for [uint32_t]
    sequences and [uint8_t] counts. *)
Theorem counters_never_decrease (fuel0 fuel : nat) (calls : list (Z * Z * Z * Z))
    (verdicts : list OrderStatus.t) (seq count port unit : Z)
    (trackers_ trackers' : SequenceManager) (verdict : OrderStatus.t) :
  Forall call_ok calls ->
  feed fuel0 calls ∅ = Some (verdicts, trackers_) ->
  is_u32 seq -> is_u8 count ->
  determine_order_status fuel seq count port unit trackers_ = Some (verdict, trackers') ->
  forall port' unit',
    last_confirmed_seq (tracker_at (port', unit') trackers_)
      <= last_confirmed_seq (tracker_at (port', unit') trackers')
    /\ highest_seen_seq (tracker_at (port', unit') trackers_)
       <= highest_seen_seq (tracker_at (port', unit') trackers').
Proof.
  intros Hcalls Hfeed Hs Hc Hstep port' unit'.
  unfold determine_order_status in Hstep.
  destruct (Z.eqb_spec seq 0) as [Hz|Hnz]; [injection Hstep as _ <-; lia|].
  destruct (determine_order_status_at _ _ _ _) as [[v t1]|] eqn:Hat; cbn in Hstep;
    [|discriminate].
  injection Hstep as _ <-.
  destruct (decide ((port, unit) = (port', unit'))) as [<-|Hne].
  - rewrite tracker_at_insert.
    pose proof (reachable_tracker_at _ _ _ _ (port, unit) Hcalls Hfeed) as Hinv.
    destruct (determine_order_status_at_inv _ _ _ _ _ _ Hs Hnz Hc Hinv Hat)
      as (_ & Hlc & Hhs & _).
    split; assumption.
  - rewrite tracker_at_insert_ne by exact Hne. lia.
Qed.

Lemma counters_never_decrease_witness :
  last_confirmed_seq
    (tracker_at (30501, 1)
       {[ (30501, 1) := {| last_confirmed_seq := 10; highest_seen_seq := 15;
                           pending_sequences := {[ 15 := true ]} |} ]})
  <= last_confirmed_seq
       (tracker_at (30501, 1)
          {[ (30501, 1) := {| last_confirmed_seq := 10; highest_seen_seq := 15;
                              pending_sequences := {[ 12 := true; 15 := true ]} |} ]})
  /\ highest_seen_seq
       (tracker_at (30501, 1)
          {[ (30501, 1) := {| last_confirmed_seq := 10; highest_seen_seq := 15;
                              pending_sequences := {[ 15 := true ]} |} ]})
     <= highest_seen_seq
          (tracker_at (30501, 1)
             {[ (30501, 1) := {| last_confirmed_seq := 10; highest_seen_seq := 15;
                                 pending_sequences := {[ 12 := true; 15 := true ]} |} ]}).
Proof.
  assert (Hcalls : Forall call_ok [(10, 1, 30501, 1); (15, 1, 30501, 1)])
    by (repeat constructor; cbn; unfold is_u32 || unfold is_u8; lia).
  assert (Hfeed : feed 0 [(10, 1, 30501, 1); (15, 1, 30501, 1)] ∅
                  = Some ([OrderStatus.SEQUENCED_FIRST;
                           OrderStatus.SEQUENCED_OUT_OF_ORDER_EARLY],
                          {[ (30501, 1) :=
                               {| last_confirmed_seq := 10; highest_seen_seq := 15;
                                  pending_sequences := {[ 15 := true ]} |} ]}))
    by (vm_compute; reflexivity).
  assert (Hstep : determine_order_status 0 12 1 30501 1
                    {[ (30501, 1) :=
                         {| last_confirmed_seq := 10; highest_seen_seq := 15;
                            pending_sequences := {[ 15 := true ]} |} ]}
                  = Some (OrderStatus.SEQUENCED_OUT_OF_ORDER_EARLY,
                          {[ (30501, 1) :=
                               {| last_confirmed_seq := 10; highest_seen_seq := 15;
                                  pending_sequences := {[ 12 := true; 15 := true ]} |} ]}))
    by (vm_compute; reflexivity).
  assert (Hs : is_u32 12) by (unfold is_u32; lia).
  assert (Hc : is_u8 1) by (unfold is_u8; lia).
  exact (counters_never_decrease 0 0 _ _ 12 1 30501 1 _ _ _
           Hcalls Hfeed Hs Hc Hstep 30501 1).
Defined.

(** X6. When a call on a reachable channel returns SEQUENCED_IN_ORDER, the
    packet started at [last_confirmed_seq + 1]; with [e] the last sequence it
    covers, the new [last_confirmed_seq] is the end of the longest run of
    pending sequences following [e] without a gap ([e] itself if [e + 1] was
    not pending), exactly that run is removed from [pending] (pending
    sequences up to [e] stay), and [highest_seen_seq] is not changed. *)
Theorem in_order_absorbs_the_following_run (fuel0 fuel : nat)
    (calls : list (Z * Z * Z * Z)) (verdicts : list OrderStatus.t)
    (seq count port unit : Z) (trackers_ trackers' : SequenceManager) :
  Forall call_ok calls ->
  feed fuel0 calls ∅ = Some (verdicts, trackers_) ->
  is_u32 seq -> is_u8 count ->
  determine_order_status fuel seq count port unit trackers_
    = Some (OrderStatus.SEQUENCED_IN_ORDER, trackers') ->
  let before := tracker_at (port, unit) trackers_ in
  let after := tracker_at (port, unit) trackers' in
  let e := seq + guarded_message_count seq count - 1 in
  seq = last_confirmed_seq before + 1
  /\ highest_seen_seq after = highest_seen_seq before
  /\ e <= last_confirmed_seq after <= UINT32_MAX
  /\ (forall k, e < k <= last_confirmed_seq after ->
                is_Some (pending_sequences before !! k))
  /\ pending_sequences before !! u32_add (last_confirmed_seq after) 1 = None
  /\ (forall k, pending_sequences after !! k =
                  if decide (e < k <= last_confirmed_seq after) then None
                  else pending_sequences before !! k).
Proof.
  intros Hcalls Hfeed Hs Hc Hstep before after e.
  pose proof (reachable_tracker_at _ _ _ _ (port, unit) Hcalls Hfeed) as Hinv.
  fold before in Hinv.
  unfold determine_order_status in Hstep.
  destruct (Z.eqb_spec seq 0) as [Hz|Hnz]; [discriminate|].
  fold before in Hstep.
  destruct (determine_order_status_at _ _ _ _) as [[v t1]|] eqn:Hat; cbn in Hstep;
    [|discriminate].
  injection Hstep as -> Hm. subst after. rewrite <- Hm, tracker_at_insert. clear Hm.
  destruct (guarded_message_count_range seq count Hs Hc) as (Hm & Hend & _).
  destruct Hinv as [Hlc Hhs Hfresh Hkeys Hexp].
  unfold is_u32, UINT32_MAX in Hs, Hlc, Hend.
  unfold determine_order_status_at in Hat.
  rewrite (range_end_exact seq (guarded_message_count seq count))
    in Hat by (unfold is_u32; lia).
  fold e in Hat.
  destruct (_ && _); [discriminate|].
  destruct (Z.eqb_spec seq (u32_add (last_confirmed_seq before) 1)) as [Heq|Hne].
  2: { destruct (seq <? _); [destruct (seq <=? _)|]; discriminate. }
  destruct (absorb_pending _ _ _) as [t2|] eqn:Habs; cbn in Hat; [|discriminate].
  injection Hat as ->.
  assert (Hnz' : u32_add (last_confirmed_seq before) 1 <> 0) by congruence.
  apply (u32_add_1_nonzero (last_confirmed_seq before)
           ltac:(unfold is_u32; lia)) in Hnz' as [Hlt Hsucc].
  assert (H0 : pending_sequences before !! 0 = None).
  { destruct (pending_sequences before !! 0) as [b|] eqn:H; [|reflexivity].
    pose proof (Hkeys 0 ltac:(eauto)). lia. }
  apply absorb_pending_spec in Habs; [|cbn; unfold is_u32; subst e; lia|exact H0].
  cbn [last_confirmed_seq highest_seen_seq pending_sequences] in Habs.
  destruct Habs as (Hhs' & Hrange & Hrun & Hexp' & Hlook).
  split; [congruence|]. split; [exact Hhs'|]. split; [exact Hrange|].
  split; [exact Hrun|]. split; [|exact Hlook].
  rewrite Hlook in Hexp'. case_decide as Hk; [|exact Hexp'].
  exfalso. unfold UINT32_MAX in *.
  destruct (decide (last_confirmed_seq t1 = 4294967295)) as [Ht|Ht].
  - rewrite Ht in Hk. change (u32_add 4294967295 1) with 0 in Hk. subst e. lia.
  - rewrite u32_add_small in Hk by (unfold is_u32; lia). lia.
Qed.

Lemma in_order_absorbs_the_following_run_witness :
  2 = last_confirmed_seq
        (tracker_at (30501, 1)
           {[ (30501, 1) := {| last_confirmed_seq := 1; highest_seen_seq := 3;
                               pending_sequences := {[ 3 := true ]} |} ]}) + 1
  /\ 2 + guarded_message_count 2 1 - 1
     <= last_confirmed_seq
          (tracker_at (30501, 1)
             {[ (30501, 1) := {| last_confirmed_seq := 3; highest_seen_seq := 3;
                                 pending_sequences := ∅ |} ]})
     <= UINT32_MAX.
Proof.
  assert (Hcalls : Forall call_ok [(1, 1, 30501, 1); (3, 1, 30501, 1)])
    by (repeat constructor; cbn; unfold is_u32 || unfold is_u8; lia).
  assert (Hfeed : feed 0 [(1, 1, 30501, 1); (3, 1, 30501, 1)] ∅
                  = Some ([OrderStatus.SEQUENCED_FIRST;
                           OrderStatus.SEQUENCED_OUT_OF_ORDER_EARLY],
                          {[ (30501, 1) :=
                               {| last_confirmed_seq := 1; highest_seen_seq := 3;
                                  pending_sequences := {[ 3 := true ]} |} ]}))
    by (vm_compute; reflexivity).
  assert (Hstep : determine_order_status 2 2 1 30501 1
                    {[ (30501, 1) :=
                         {| last_confirmed_seq := 1; highest_seen_seq := 3;
                            pending_sequences := {[ 3 := true ]} |} ]}
                  = Some (OrderStatus.SEQUENCED_IN_ORDER,
                          {[ (30501, 1) :=
                               {| last_confirmed_seq := 3; highest_seen_seq := 3;
                                  pending_sequences := ∅ |} ]}))
    by (vm_compute; reflexivity).
  assert (Hs : is_u32 2) by (unfold is_u32; lia).
  assert (Hc : is_u8 1) by (unfold is_u8; lia).
  destruct (in_order_absorbs_the_following_run _ _ _ _ _ _ _ _ _ _
              Hcalls Hfeed Hs Hc Hstep) as (Hseq & _ & Hrange & _).
  split; [exact Hseq|exact Hrange].
Defined.

(** ** Which calls return *)

Lemma below_top_step (fuel : nat) (seq count port unit : Z) (tracker : SequenceTracker)
    (verdict : OrderStatus.t) (tracker' : SequenceTracker) :
  below_top (seq, count, port, unit) -> seq <> 0 ->
  tracker_inv tracker /\ pending_sequences tracker !! UINT32_MAX = None ->
  determine_order_status_at fuel seq count tracker = Some (verdict, tracker') ->
  tracker_inv tracker' /\ pending_sequences tracker' !! UINT32_MAX = None.
Proof.
  intros [[Hs Hc] Htop] Hnz [Hinv Hmax] Hat. cbn in Hs, Hc, Htop.
  split; [apply (determine_order_status_at_inv _ _ _ _ _ _ Hs Hnz Hc Hinv Hat)|].
  destruct (guarded_message_count_range seq count Hs Hc) as (Hm & Hend & _).
  pose proof (tracker_inv_no_zero _ Hinv) as H0.
  unfold determine_order_status_at in Hat.
  destruct (_ && _); [injection Hat as _ <-; exact Hmax|].
  destruct (seq =? _).
  - destruct (absorb_pending _ _ _) as [t1|] eqn:Habs; cbn in Hat; [|discriminate].
    injection Hat as _ <-.
    apply absorb_pending_spec in Habs; [|apply range_end_is_u32|exact H0].
    destruct Habs as (_ & _ & _ & _ & Hlook). rewrite Hlook.
    case_decide; [reflexivity|exact Hmax].
  - destruct (seq <? _); injection Hat as _ <-; [exact Hmax|].
    cbn [pending_sequences].
    rewrite mark_pending_lookup by (assumption || lia).
    case_decide; [lia|exact Hmax].
Qed.

Lemma feed_returns (calls : list (Z * Z * Z * Z)) :
  forall trackers_ : SequenceManager,
    Forall below_top calls ->
    (forall k t, trackers_ !! k = Some t ->
                 tracker_inv t /\ pending_sequences t !! UINT32_MAX = None) ->
    exists verdicts trackers', feed enough_fuel calls trackers_ = Some (verdicts, trackers').
Proof.
  induction calls as [|[[[seq count] port] unit] rest IH]; intros m Hcalls Hall.
  - cbn. eauto.
  - inversion Hcalls as [|? ? Hcall Hrest]; subst.
    assert (Hstep : exists v m1,
               determine_order_status enough_fuel seq count port unit m = Some (v, m1)).
    { unfold determine_order_status. destruct (seq =? 0); [eauto|].
      assert (Ht : tracker_inv (tracker_at (port, unit) m)
                   /\ pending_sequences (tracker_at (port, unit) m) !! UINT32_MAX = None).
      { unfold tracker_at. destruct (m !! (port, unit)) as [t|] eqn:Hk; cbn.
        - apply (Hall _ _ Hk).
        - split; [apply tracker_inv_default|apply lookup_empty]. }
      destruct Ht as [Hinv Hmax].
      destruct (determine_order_status_at_terminates seq count _
                  (tracker_inv_no_zero _ Hinv) Hmax) as [[v t1] Hat].
      rewrite Hat. cbn. eauto. }
    destruct Hstep as (v & m1 & Hstep). cbn [feed]. rewrite Hstep. cbn.
    destruct (IH m1 Hrest) as (vs & m2 & Hfeed).
    + apply (determine_order_status_entries
               (fun t => tracker_inv t /\ pending_sequences t !! UINT32_MAX = None)
               (fun t => tracker_inv t /\ pending_sequences t !! UINT32_MAX = None)
               below_top (conj tracker_inv_default (lookup_empty _)) (fun t H => H)
               below_top_step _ _ _ _ _ _ _ _ Hcall Hall Hstep).
    + rewrite Hfeed. cbn. eauto.
Qed.

(** X7. [determine_order_status] returns on every call of every sequence of
    calls made on a fresh manager, provided no packet covers the sequence
    [UINT32_MAX] ([seq + max(count, 1) <= UINT32_MAX]): all three loops of the
    in-order branch end. *)
Theorem calls_below_top_return (calls : list (Z * Z * Z * Z)) :
  Forall below_top calls ->
  exists verdicts trackers',
    feed enough_fuel calls ∅ = Some (verdicts, trackers')
    /\ List.length verdicts = List.length calls.
Proof.
  intros Hcalls.
  destruct (feed_returns calls ∅ Hcalls (no_entries _)) as (vs & m' & Hfeed).
  exists vs, m'. split; [exact Hfeed|].
  clear Hcalls. revert vs m' Hfeed. generalize (∅ : SequenceManager).
  induction calls as [|[[[seq count] port] unit] rest IH]; intros m vs m' Hfeed.
  - injection Hfeed as <- _. reflexivity.
  - cbn [feed] in Hfeed.
    destruct (determine_order_status _ _ _ _ _ _) as [[v m1]|]; cbn in Hfeed;
      [|discriminate].
    destruct (feed enough_fuel rest m1) as [[vs1 m2]|] eqn:Hrest; cbn in Hfeed;
      [|discriminate].
    injection Hfeed as <- _. cbn. f_equal. apply (IH _ _ _ Hrest).
Qed.

Lemma calls_below_top_return_witness :
  exists verdicts trackers',
    feed enough_fuel [(1, 1, 30501, 1); (3, 2, 30501, 1); (2, 1, 30501, 1)] ∅
    = Some (verdicts, trackers')
    /\ List.length verdicts = 3%nat.
Proof.
  apply (calls_below_top_return [(1, 1, 30501, 1); (3, 2, 30501, 1); (2, 1, 30501, 1)]).
  repeat constructor; cbn; unfold is_u32 || unfold is_u8 || unfold UINT32_MAX; lia.
Defined.

Lemma absorb_pending_up_to_top (gas fuel : nat) (tracker : SequenceTracker) :
  is_u32 (last_confirmed_seq tracker) ->
  last_confirmed_seq tracker < UINT32_MAX ->
  pending_sequences tracker !! 0 = None ->
  (forall k, last_confirmed_seq tracker < k <= UINT32_MAX ->
             is_Some (pending_sequences tracker !! k)) ->
  absorb_pending gas fuel tracker = None.
Proof.
  intros Hlc Hlt H0 Hall. destruct fuel as [|fuel]; [reflexivity|].
  cbn [absorb_pending]. unfold is_u32, UINT32_MAX in Hlc, Hlt.
  rewrite u32_add_small by (unfold is_u32; lia).
  destruct (Hall (last_confirmed_seq tracker + 1) ltac:(unfold UINT32_MAX; lia))
    as [b ->].
  destruct (scan_run gas _ _) as [r|] eqn:Hscan; [|reflexivity]. cbn.
  apply scan_run_spec in Hscan; [|unfold is_u32; lia|exact H0].
  destruct Hscan as (Hr & Hstop & _).
  assert (r = UINT32_MAX) as ->.
  { destruct (decide (r = UINT32_MAX)) as [E|E]; [exact E|]. exfalso.
    unfold UINT32_MAX in *.
    rewrite u32_add_small in Hstop by (unfold is_u32; lia).
    destruct (Hall (r + 1) ltac:(unfold UINT32_MAX; lia)) as [b' Hb']. congruence. }
  rewrite erase_run_to_uint32_max by (unfold is_u32; lia). reflexivity.
Qed.

(** X8. An in-order packet after whose last sequence [e] every sequence up
    to [UINT32_MAX] is pending never returns: the scan reaches
    [confirmed_end = UINT32_MAX], and the erase loop's test
    [s <= confirmed_end] cannot fail for a [uint32_t]. *)
Theorem absorbing_up_to_uint32_max_never_returns (fuel : nat) (seq count port unit : Z)
    (trackers_ : SequenceManager) :
  let tracker := tracker_at (port, unit) trackers_ in
  let e := seq + Z.max count 1 - 1 in
  tracker_inv tracker ->
  1 <= last_confirmed_seq tracker ->
  seq = last_confirmed_seq tracker + 1 ->
  is_u8 count ->
  e < UINT32_MAX ->
  (forall k, e < k <= UINT32_MAX -> is_Some (pending_sequences tracker !! k)) ->
  determine_order_status fuel seq count port unit trackers_ = None.
Proof.
  intros tracker e Hinv Hpos Hseq Hc He Hall.
  pose proof (inv_confirmed _ Hinv) as Hlc.
  pose proof (tracker_inv_no_zero _ Hinv) as H0.
  unfold is_u32, UINT32_MAX in Hlc, He. unfold is_u8 in Hc. subst e.
  assert (Hs : is_u32 seq) by (unfold is_u32; lia).
  destruct (guarded_message_count_range seq count Hs Hc) as (_ & _ & Hm).
  specialize (Hm ltac:(unfold UINT32_MAX; lia)).
  unfold determine_order_status, determine_order_status_at. fold tracker.
  rewrite (proj2 (Z.eqb_neq seq 0)) by lia.
  rewrite (proj2 (Z.eqb_neq (last_confirmed_seq tracker) 0)) by lia. cbn [andb].
  rewrite u32_add_small by (unfold is_u32; lia).
  rewrite (proj2 (Z.eqb_eq seq _) Hseq).
  rewrite Hm, range_end_exact by (unfold is_u32; lia).
  rewrite absorb_pending_up_to_top; cbn; try reflexivity;
    unfold is_u32, UINT32_MAX; try lia; try assumption.
Qed.

Lemma tracker_at_singleton (key : Z * Z) (tracker : SequenceTracker) :
  tracker_at key {[ key := tracker ]} = tracker.
Proof. unfold tracker_at. rewrite lookup_singleton_eq. reflexivity. Qed.

Lemma absorbing_up_to_uint32_max_never_returns_witness :
  determine_order_status 5 4294967294 1 30501 1
    {[ (30501, 1) := {| last_confirmed_seq := 4294967293;
                        highest_seen_seq := 4294967295;
                        pending_sequences := {[ 4294967295 := true ]} |} ]} = None.
Proof.
  apply absorbing_up_to_uint32_max_never_returns; rewrite ?tracker_at_singleton.
  - split; cbn; unfold is_u32, UINT32_MAX; try lia.
    + intros k [b Hb]. apply lookup_singleton_Some in Hb as [<- _]. lia.
    + apply lookup_singleton_ne. vm_compute. discriminate.
  - cbn. lia.
  - reflexivity.
  - unfold is_u8. lia.
  - unfold UINT32_MAX. lia.
  - cbn. unfold UINT32_MAX. intros k Hk.
    assert (k = 4294967295) as -> by lia. rewrite lookup_singleton_eq. eauto.
Defined.

(** ** Gap-free streams *)

Lemma stream_end_le (calls : list (Z * Z)) : forall seq, seq <= stream_end seq calls.
Proof.
  induction calls as [|[s c] rest IH]; intros seq; cbn; [lia|].
  specialize (IH (seq + Z.max c 1)). lia.
Qed.

Lemma contiguous_nonzero (calls : list (Z * Z)) :
  forall seq, 1 <= seq -> contiguous seq calls ->
              Forall (fun call : Z * Z => call.1 <> 0) calls.
Proof.
  induction calls as [|[s c] rest IH]; intros seq Hseq Hcont; [constructor|].
  destruct Hcont as (-> & _ & Hrest). constructor; [cbn; lia|].
  apply (IH (seq + Z.max c 1)); [lia|exact Hrest].
Qed.

Lemma feed_channel_in_order (fuel : nat) (calls : list (Z * Z)) :
  forall confirmed highest : Z,
    1 <= confirmed -> contiguous (confirmed + 1) calls ->
    stream_end (confirmed + 1) calls - 1 <= UINT32_MAX ->
    feed_channel (S fuel) calls
      {| last_confirmed_seq := confirmed; highest_seen_seq := highest;
         pending_sequences := ∅ |}
    = Some (replicate (List.length calls) OrderStatus.SEQUENCED_IN_ORDER,
            {| last_confirmed_seq := stream_end (confirmed + 1) calls - 1;
               highest_seen_seq := highest; pending_sequences := ∅ |}).
Proof.
  induction calls as [|[seq count] rest IH]; intros a h Ha Hcont Hend.
  - cbn. f_equal. f_equal. f_equal. lia.
  - destruct Hcont as (-> & Hc & Hrest). cbn [stream_end] in Hend |- *.
    pose proof (stream_end_le rest (a + 1 + Z.max count 1)) as Hle.
    unfold is_u8 in Hc. unfold UINT32_MAX in Hend.
    assert (Hs : is_u32 (a + 1)) by (unfold is_u32; lia).
    destruct (guarded_message_count_range (a + 1) count Hs Hc) as (_ & _ & Hm).
    specialize (Hm ltac:(unfold UINT32_MAX; lia)).
    cbn [feed_channel]. unfold determine_order_status_at.
    cbn [last_confirmed_seq highest_seen_seq pending_sequences].
    rewrite (proj2 (Z.eqb_neq a 0)) by lia. cbn [andb].
    rewrite u32_add_small by (unfold is_u32; lia).
    rewrite Z.eqb_refl, Hm, range_end_exact by (unfold is_u32; lia).
    cbn [absorb_pending last_confirmed_seq pending_sequences].
    rewrite lookup_empty. cbn [mbind option_bind].
    replace (a + 1 + Z.max count 1 - 1) with (a + Z.max count 1) by lia.
    replace (a + 1 + Z.max count 1) with (a + Z.max count 1 + 1) in * by lia.
    rewrite (IH (a + Z.max count 1) h) by (assumption || lia).
    reflexivity.
Qed.

(** X9. A gap-free stream on a fresh channel, each packet starting at the
    sequence after the last one the packet before it covered, gets FIRST for
    its first packet and IN_ORDER for all others; [pending] stays empty,
    [last_confirmed_seq] ends at the last sequence covered, and
    [highest_seen_seq] stays at the last sequence of the first packet. *)
Theorem gap_free_stream_is_in_order (fuel : nat) (port unit seq count : Z)
    (rest : list (Z * Z)) :
  1 <= seq ->
  contiguous seq ((seq, count) :: rest) ->
  stream_end seq ((seq, count) :: rest) - 1 <= UINT32_MAX ->
  feed (S fuel) (on_channel port unit <$> (seq, count) :: rest) ∅ =
    Some (OrderStatus.SEQUENCED_FIRST
            :: replicate (List.length rest) OrderStatus.SEQUENCED_IN_ORDER,
          {[ (port, unit) :=
               {| last_confirmed_seq := stream_end seq ((seq, count) :: rest) - 1;
                  highest_seen_seq := seq + Z.max count 1 - 1;
                  pending_sequences := ∅ |} ]}).
Proof.
  intros Hseq Hcont Hend.
  rewrite feed_single_channel
    by (first [discriminate | apply (contiguous_nonzero _ seq Hseq Hcont)]).
  rewrite tracker_at_empty.
  destruct Hcont as (_ & Hc & Hrest). cbn [stream_end] in Hend |- *.
  pose proof (stream_end_le rest (seq + Z.max count 1)) as Hle.
  unfold is_u8 in Hc. unfold UINT32_MAX in Hend.
  assert (Hs : is_u32 seq) by (unfold is_u32; lia).
  destruct (guarded_message_count_range seq count Hs Hc) as (_ & _ & Hm).
  specialize (Hm ltac:(unfold UINT32_MAX; lia)).
  cbn [feed_channel]. unfold determine_order_status_at at 1.
  cbn [SequenceTracker_default last_confirmed_seq highest_seen_seq pending_sequences
       Z.eqb andb].
  rewrite Hm, range_end_exact by (unfold is_u32; lia).
  cbn [mbind option_bind].
  assert (Hsucc : seq + Z.max count 1 - 1 + 1 = seq + Z.max count 1) by lia.
  rewrite (feed_channel_in_order fuel rest (seq + Z.max count 1 - 1)
             (seq + Z.max count 1 - 1)) by (rewrite ?Hsucc; assumption || lia).
  rewrite Hsucc. reflexivity.
Qed.

Lemma gap_free_stream_is_in_order_witness :
  feed 1 [(10, 3, 30501, 1); (13, 1, 30501, 1); (14, 0, 30501, 1)] ∅ =
    Some ([OrderStatus.SEQUENCED_FIRST; OrderStatus.SEQUENCED_IN_ORDER;
           OrderStatus.SEQUENCED_IN_ORDER],
          {[ (30501, 1) := {| last_confirmed_seq := 14; highest_seen_seq := 12;
                              pending_sequences := ∅ |} ]}).
Proof.
  apply (gap_free_stream_is_in_order 0 30501 1 10 3 [(13, 1); (14, 0)]).
  - lia.
  - cbn. unfold is_u8. repeat split; lia.
  - cbn. unfold UINT32_MAX. lia.
Defined.

(** X10. The first sequenced packet on a channel without an entry (a fresh
    manager, a manager after [clear], a channel not seen before) is FIRST,
    and sets both counters to the last sequence the packet covers,
    [seq + max(count, 1) - 1], or to [seq] when that exceeds [UINT32_MAX]. *)
Theorem first_packet_on_a_channel (fuel : nat) (seq count port unit : Z)
    (trackers_ : SequenceManager) :
  is_u32 seq -> seq <> 0 -> is_u8 count ->
  get_tracker port unit trackers_ = None ->
  let covered := if UINT32_MAX <? seq + Z.max count 1 - 1 then seq
                 else seq + Z.max count 1 - 1 in
  determine_order_status fuel seq count port unit trackers_ =
    Some (OrderStatus.SEQUENCED_FIRST,
          <[(port, unit) := {| last_confirmed_seq := covered; highest_seen_seq := covered;
                               pending_sequences := ∅ |}]> trackers_)
  /\ determine_order_status fuel seq count port unit (clear trackers_) =
       Some (OrderStatus.SEQUENCED_FIRST,
             {[ (port, unit) := {| last_confirmed_seq := covered;
                                   highest_seen_seq := covered;
                                   pending_sequences := ∅ |} ]})
  /\ get_tracker_count (clear trackers_) = 0%nat.
Proof.
  intros Hs Hnz Hc Hget covered.
  assert (Hre : range_end seq (guarded_message_count seq count) = covered).
  { destruct (guarded_message_count_range seq count Hs Hc) as (Hm & Hend & _).
    rewrite range_end_exact by (unfold is_u32, UINT32_MAX in *; lia).
    subst covered. rewrite (guarded_message_count_spec seq count Hc).
    unfold is_u32, is_u8, UINT32_MAX in *.
    destruct (Z.ltb_spec (4294967295 - Z.max count 1 + 1) seq),
      (Z.ltb_spec 4294967295 (seq + Z.max count 1 - 1)); lia. }
  unfold determine_order_status, clear, get_tracker_count.
  rewrite (proj2 (Z.eqb_neq seq 0) Hnz). unfold tracker_at.
  unfold get_tracker in Hget. rewrite Hget, lookup_empty.
  unfold determine_order_status_at. cbn. rewrite Hre.
  repeat split.
Qed.

Lemma first_packet_on_a_channel_witness :
  determine_order_status 0 4294967295 3 30501 1 ∅ =
    Some (OrderStatus.SEQUENCED_FIRST,
          <[(30501, 1) := {| last_confirmed_seq := 4294967295;
                             highest_seen_seq := 4294967295;
                             pending_sequences := ∅ |}]> ∅).
Proof.
  assert (Hs : is_u32 4294967295) by (unfold is_u32; lia).
  assert (Hnz : 4294967295 <> 0) by lia.
  assert (Hc : is_u8 3) by (unfold is_u8; lia).
  exact (proj1 (first_packet_on_a_channel 0 4294967295 3 30501 1 ∅ Hs Hnz Hc
                  (lookup_empty _))).
Defined.

(** * Further properties of the pipeline *)

Lemma wrap16_idem (z : Z) : wrap16 (wrap16 z) = wrap16 z.
Proof. unfold wrap16. apply Z.mod_mod. lia. Qed.

Lemma binary_logger_log_console (m : ConsoleMessage) (logger : BinaryLogger) :
  binary_logger_ (log_console m logger) = binary_logger_ logger.
Proof. reflexivity. Qed.

Lemma binary_logger_after_report (stats : Statistics) (logger : BinaryLogger) :
  binary_logger_
    (if total_packets stats mod Config.FLUSH_INTERVAL =? 0
     then flush (if should_report_statistics stats
                 then print_performance_report stats logger else logger)
     else (if should_report_statistics stats
           then print_performance_report stats logger else logger))
  = binary_logger_ logger.
Proof.
  destruct (_ =? 0), (should_report_statistics stats); reflexivity.
Qed.

Section JournalProperties.

Variable inet_aton : string -> option Z.

(** What one packet does to the tracker and the journal. *)
Lemma process_datagram_journal (fuel : nat) (d : Datagram) (self self' : PacketProcessor) :
  process_datagram inet_aton fuel d self = Some self' ->
  if journaled d then
    exists verdict,
      determine_order_status fuel (call_of d).1.1.1 (call_of d).1.1.2 (call_of d).1.2
        (call_of d).2 (sequence_manager_ self)
      = Some (verdict, sequence_manager_ self')
      /\ binary_logger_ (logger_ self')
         = binary_logger_ (logger_ self)
           ++ [journal_entry d (ip_to_binary inet_aton (dg_src_ip d)) verdict]
  else
    sequence_manager_ self' = sequence_manager_ self
    /\ binary_logger_ (logger_ self') = binary_logger_ (logger_ self).
Proof.
  unfold process_datagram, process_packet, journaled, call_of.
  cbn [fst snd].
  destruct (validate_packet (dg_buffer d) (dg_len d)); cbn [negb andb].
  2: { intros [= <-]. split; reflexivity. }
  destruct (classify_packet_type _ _ _) eqn:Hclass; cbn [bool_decide negb];
    try (rewrite bool_decide_eq_false_2 by discriminate; cbn [negb]);
    try (rewrite bool_decide_eq_true_2 by reflexivity; cbn [negb]).
  - unfold Config.SKIP_HEARTBEATS. intros [= <-]. split; reflexivity.
  - unfold track_and_log.
    destruct (determine_order_status _ _ _ _ _ _) as [[v m]|]; cbn [mbind option_bind];
      [|discriminate].
    intros [= <-]. exists v. cbn [sequence_manager_ logger_]. split; [reflexivity|].
    rewrite binary_logger_after_report. unfold log_packet, journal_entry, record_of.
    cbn [binary_logger_]. rewrite Hclass, wrap16_idem. reflexivity.
  - unfold track_and_log.
    destruct (determine_order_status _ _ _ _ _ _) as [[v m]|]; cbn [mbind option_bind];
      [|discriminate].
    intros [= <-]. exists v. cbn [sequence_manager_ logger_]. split; [reflexivity|].
    rewrite binary_logger_after_report. unfold log_packet, journal_entry, record_of.
    cbn [binary_logger_]. rewrite Hclass, wrap16_idem. reflexivity.
  - unfold track_and_log.
    destruct (determine_order_status _ _ _ _ _ _) as [[v m]|]; cbn [mbind option_bind];
      [|discriminate].
    intros [= <-]. exists v. cbn [sequence_manager_ logger_]. split; [reflexivity|].
    rewrite binary_logger_after_report. unfold log_packet, journal_entry, record_of.
    cbn [binary_logger_]. rewrite Hclass, wrap16_idem. reflexivity.
Qed.

Lemma process_all_journal (fuel : nat) (ds : list Datagram) :
  forall self self' : PacketProcessor,
    process_all inet_aton fuel ds self = Some self' ->
    exists verdicts,
      feed fuel (call_of <$> List.filter journaled ds) (sequence_manager_ self)
      = Some (verdicts, sequence_manager_ self')
      /\ binary_logger_ (logger_ self')
         = binary_logger_ (logger_ self)
           ++ zip_with (fun d v => journal_entry d (ip_to_binary inet_aton (dg_src_ip d)) v)
                (List.filter journaled ds) verdicts.
Proof.
  induction ds as [|d ds IH]; intros self self' Hrun; cbn [process_all] in Hrun.
  - injection Hrun as <-. exists []. split; [reflexivity|]. cbn.
    rewrite app_nil_r. reflexivity.
  - destruct (process_datagram inet_aton fuel d self) as [self1|] eqn:Hstep;
      cbn in Hrun; [|discriminate].
    apply process_datagram_journal in Hstep.
    destruct (IH _ _ Hrun) as (vs & Hfeed & Hjournal).
    cbn [List.filter]. destruct (journaled d).
    + destruct Hstep as (v & Hcall & Hentry). exists (v :: vs).
      cbn [fmap list_fmap feed zip_with].
      destruct (call_of d) as [[[seq count] port] unit] eqn:Hc. cbn [fst snd] in Hcall.
      rewrite Hcall. cbn [mbind option_bind].
      fold (call_of <$> List.filter journaled ds). rewrite Hfeed.
      split; [reflexivity|].
      rewrite Hjournal, Hentry, <- app_assoc. reflexivity.
    + destruct Hstep as [Hm Hj]. exists vs. rewrite <- Hm, <- Hj.
      split; [exact Hfeed|exact Hjournal].
Qed.

Lemma feed_length (fuel : nat) (calls : list (Z * Z * Z * Z)) :
  forall (trackers_ trackers' : SequenceManager) (verdicts : list OrderStatus.t),
    feed fuel calls trackers_ = Some (verdicts, trackers') ->
    List.length verdicts = List.length calls.
Proof.
  induction calls as [|[[[seq count] port] unit] rest IH]; intros m m' vs Hfeed.
  - injection Hfeed as <- _. reflexivity.
  - cbn [feed] in Hfeed.
    destruct (determine_order_status _ _ _ _ _ _) as [[v m1]|]; cbn in Hfeed;
      [|discriminate].
    destruct (feed fuel rest m1) as [[vs1 m2]|] eqn:Hrest; cbn in Hfeed; [|discriminate].
    injection Hfeed as <- _. cbn. f_equal. apply (IH _ _ _ Hrest).
Qed.

(** X11. After a capture is processed by a freshly constructed processor,
    the tracker has seen exactly the packets that passed validation and are
    not heartbeats, in arrival order, each as
    [(hdr_sequence, hdr_count, port, hdr_unit)]; and the journal holds exactly
    one entry per such packet, in the same order, built from the packet and
    the verdict the tracker gave it. Rejected packets and heartbeats reach
    neither. *)
Theorem journal_and_tracker_see_accepted_packets (fuel : nat) (ds : list Datagram)
    (self' : PacketProcessor) :
  process_all inet_aton fuel ds PacketProcessor_init = Some self' ->
  exists verdicts,
    feed fuel (call_of <$> List.filter journaled ds) ∅
    = Some (verdicts, sequence_manager_ self')
    /\ List.length verdicts = List.length (List.filter journaled ds)
    /\ binary_logger_ (logger_ self')
       = zip_with (fun d v => journal_entry d (ip_to_binary inet_aton (dg_src_ip d)) v)
           (List.filter journaled ds) verdicts.
Proof.
  intros Hrun. destruct (process_all_journal _ _ _ _ Hrun) as (vs & Hfeed & Hjournal).
  exists vs. split; [exact Hfeed|]. split; [|exact Hjournal].
  rewrite (feed_length _ _ _ _ _ Hfeed). apply length_fmap.
Qed.

End JournalProperties.

Lemma journal_and_tracker_see_accepted_packets_witness :
  exists self' verdicts,
    process_all (fun _ => None) 0 sample_capture PacketProcessor_init = Some self'
    /\ List.length verdicts = 2%nat
    /\ binary_logger_ (logger_ self')
       = zip_with (fun d v => journal_entry d 0 v)
           (List.filter journaled sample_capture) verdicts.
Proof.
  destruct (process_all (fun _ => None) 0 sample_capture PacketProcessor_init)
    as [self'|] eqn:H.
  2: { vm_compute in H. discriminate. }
  destruct (journal_and_tracker_see_accepted_packets _ _ _ _ H)
    as (vs & _ & Hlen & Hjournal).
  exists self', vs. split; [reflexivity|]. split; [exact Hlen|exact Hjournal].
Defined.

Section OrderCounters.

Variable inet_aton : string -> option Z.

Lemma unsequenced_verdict (fuel : nat) (count port unit : Z) (trackers_ : SequenceManager) :
  determine_order_status fuel 0 count port unit trackers_
  = Some (OrderStatus.UNSEQUENCED, trackers_).
Proof. reflexivity. Qed.

Lemma classify_not_data (seq count len : Z) :
  classify_packet_type seq count len <> PacketType.DATA -> seq = 0.
Proof.
  unfold classify_packet_type. destruct (Z.eqb_spec seq 0); [tauto|congruence].
Qed.

(** One packet adds at most one to [data_packets], and one to
    [out_of_order_packets] or [duplicate_packets] only if it does. *)
Lemma process_datagram_order_counters (fuel : nat) (d : Datagram)
    (self self' : PacketProcessor) :
  process_datagram inet_aton fuel d self = Some self' ->
  let s := stats_ self in
  let s' := stats_ self' in
  (data_packets s' = data_packets s
   /\ out_of_order_packets s' = out_of_order_packets s
   /\ duplicate_packets s' = duplicate_packets s)
  \/ (data_packets s' = u64_incr (data_packets s)
      /\ ((out_of_order_packets s' = out_of_order_packets s
           /\ duplicate_packets s' = duplicate_packets s)
          \/ (out_of_order_packets s' = u64_incr (out_of_order_packets s)
              /\ duplicate_packets s' = duplicate_packets s)
          \/ (out_of_order_packets s' = out_of_order_packets s
              /\ duplicate_packets s' = u64_incr (duplicate_packets s)))).
Proof.
  unfold process_datagram, process_packet.
  destruct (validate_packet (dg_buffer d) (dg_len d)); cbn [negb].
  2: { intros [= <-]. left. repeat split. }
  destruct (classify_packet_type _ _ _) eqn:Hclass.
  - unfold Config.SKIP_HEARTBEATS. intros [= <-]. left. repeat split.
  - assert (Hz : le32toh_safe (hdr_sequence (header_of (dg_buffer d))) = 0)
      by (apply (classify_not_data _ _ _ ltac:(rewrite Hclass; discriminate))).
    unfold track_and_log. rewrite Hz, unsequenced_verdict. cbn [mbind option_bind].
    intros [= <-]. left. repeat split.
  - assert (Hz : le32toh_safe (hdr_sequence (header_of (dg_buffer d))) = 0)
      by (apply (classify_not_data _ _ _ ltac:(rewrite Hclass; discriminate))).
    unfold track_and_log. rewrite Hz, unsequenced_verdict. cbn [mbind option_bind].
    intros [= <-]. left. repeat split.
  - unfold track_and_log.
    destruct (determine_order_status _ _ _ _ _ _) as [[v m]|]; cbn [mbind option_bind];
      [|discriminate].
    intros [= <-]. right. destruct v; cbn; split; try reflexivity; tauto.
Qed.

Lemma process_all_order_counters (fuel : nat) (ds : list Datagram) :
  forall (self self' : PacketProcessor) (n : Z),
    (0 <= out_of_order_packets (stats_ self) /\ 0 <= duplicate_packets (stats_ self)
     /\ out_of_order_packets (stats_ self) + duplicate_packets (stats_ self)
        <= data_packets (stats_ self) <= n) ->
    n + Z.of_nat (List.length ds) < 2 ^ 64 ->
    process_all inet_aton fuel ds self = Some self' ->
    0 <= out_of_order_packets (stats_ self') /\ 0 <= duplicate_packets (stats_ self')
    /\ out_of_order_packets (stats_ self') + duplicate_packets (stats_ self')
       <= data_packets (stats_ self') <= n + Z.of_nat (List.length ds).
Proof.
  induction ds as [|d ds IH]; intros self self' n Hinv Hn Hrun; cbn [process_all] in Hrun.
  - injection Hrun as <-. cbn. lia.
  - destruct (process_datagram inet_aton fuel d self) as [self1|] eqn:Hstep;
      cbn in Hrun; [|discriminate].
    cbn [List.length] in *. rewrite Nat2Z.inj_succ in *.
    replace (n + Z.succ (Z.of_nat (List.length ds)))
      with ((n + 1) + Z.of_nat (List.length ds)) by lia.
    apply (IH self1 self' (n + 1)); [|lia|exact Hrun].
    apply process_datagram_order_counters in Hstep. cbn zeta in Hstep.
    destruct Hstep as [(-> & -> & ->)|[-> [(-> & ->)|[(-> & ->)|(-> & ->)]]]];
      rewrite ?u64_incr_small by lia; lia.
Qed.

(** X12. While fewer than 2^64 packets have been processed, the out-of-order
    and duplicate counters together never exceed [data_packets]: only a
    packet counted as DATA (non-zero sequence) can be counted as out of order
    or duplicate. *)
Theorem order_counters_bounded_by_data (fuel : nat) (ds : list Datagram)
    (self' : PacketProcessor) :
  process_all inet_aton fuel ds PacketProcessor_init = Some self' ->
  Z.of_nat (List.length ds) < 2 ^ 64 ->
  0 <= out_of_order_packets (stats_ self')
  /\ 0 <= duplicate_packets (stats_ self')
  /\ out_of_order_packets (stats_ self') + duplicate_packets (stats_ self')
     <= data_packets (stats_ self') <= Z.of_nat (List.length ds).
Proof.
  intros Hrun Hlen.
  apply (process_all_order_counters fuel ds PacketProcessor_init self' 0);
    [cbn; lia|lia|exact Hrun].
Qed.

End OrderCounters.

Lemma order_counters_bounded_by_data_witness :
  exists self',
    process_all (fun _ => None) 0 sample_capture PacketProcessor_init = Some self'
    /\ out_of_order_packets (stats_ self') + duplicate_packets (stats_ self')
       <= data_packets (stats_ self') <= 4.
Proof.
  destruct (process_all (fun _ => None) 0 sample_capture PacketProcessor_init)
    as [self'|] eqn:H.
  2: { vm_compute in H. discriminate. }
  exists self'. split; [reflexivity|].
  apply (order_counters_bounded_by_data _ _ _ _ H). cbn. lia.
Defined.

(** * The reader *)

Lemma wrap8_small (z : Z) : is_u8 z -> wrap8 z = z.
Proof. unfold is_u8, wrap8. intros H. apply Z.mod_small. lia. Qed.

Lemma wrap64_small (z : Z) : is_u64 z -> wrap64 z = z.
Proof. unfold is_u64, wrap64. intros H. apply Z.mod_small. lia. Qed.

Lemma length_record_bytes_nat (r : BinaryLogRecord.t) :
  List.length (record_bytes r) = 30%nat.
Proof. unfold record_bytes. rewrite !length_app, !length_le_bytes. reflexivity. Qed.

(** Decoding the 30 bytes of a record gives the record back. *)
Lemma record_of_bytes_record_bytes (r : BinaryLogRecord.t) (payload : list byte) :
  well_formed (r, payload) -> record_of_bytes (record_bytes r) = r.
Proof.
  intros (H0 & H1 & H2 & H3 & H4 & H5 & H6 & H7 & H8 & H9 & H10 & _).
  destruct (record_bytes_layout r)
    as (E0 & E8 & E12 & E16 & E20 & E22 & E24 & E25 & E26 & E27 & E28).
  unfold record_of_bytes.
  rewrite E0, E8, E12, E16, E20, E22, E24, E25, E26, E27, E28.
  rewrite (wrap64_small _ H0), (wrap32_small _ H1), (wrap32_small _ H2),
    (wrap32_small _ H3), (wrap16_small _ H4), (wrap16_small _ H5),
    (wrap8_small _ H6), (wrap8_small _ H7), (wrap8_small _ H8),
    (wrap8_small _ H9), (wrap16_small _ H10).
  destruct r; reflexivity.
Qed.

Lemma read_record_entry (self : BinaryLogReader) (entry : BinaryLogRecord.t * list byte)
    (rest : list byte) :
  in_step self -> well_formed entry -> file self = entry_bytes entry ++ rest ->
  read_record self =
    (Some entry,
     {| file := rest; good := true; file_size := file_size self;
        bytes_read := bytes_read self + Z.of_nat (List.length (entry_bytes entry)) |}).
Proof.
  destruct entry as [r payload]. intros (Hgood & Hpos & Hsize & Hmax) Hwf Hfile.
  pose proof (record_of_bytes_record_bytes r payload Hwf) as Hdecode.
  destruct Hwf as (_ & _ & _ & _ & _ & _ & _ & _ & _ & _ & Hpl & Hlen).
  unfold entry_bytes in *. cbn [fst snd] in *.
  rewrite Hfile, !length_app, length_record_bytes_nat in Hsize.
  unfold read_record, stream_read. rewrite Hgood, Hfile.
  rewrite (proj2 (Z.leb_gt _ _)) by lia.
  rewrite !length_app, length_record_bytes_nat.
  rewrite (proj2 (Nat.leb_le 30 _)) by lia.
  rewrite <- app_assoc.
  rewrite (take_app_length' (record_bytes r) _ 30),
    (drop_app_length' (record_bytes r) _ 30), length_record_bytes_nat
    by (symmetry; apply length_record_bytes_nat).
  cbn [negb]. change (Z.of_nat 30 =? sizeof_BinaryLogRecord) with true. cbn [negb].
  rewrite Hdecode. unfold add_bytes_read, sizeof_BinaryLogRecord.
  cbn [good file file_size bytes_read]. unfold is_u16 in Hpl.
  rewrite (wrap64_small (bytes_read self + 30)) by (unfold is_u64; lia).
  destruct (Z.ltb_spec 0 (BinaryLogRecord.payload_length r)) as [Hgt|Hle].
  - rewrite length_app.
    rewrite (proj2 (Nat.leb_le _ _)) by lia.
    rewrite (take_app_length' payload rest), (drop_app_length' payload rest) by lia.
    rewrite Hlen, Z.eqb_refl. cbn [negb good file file_size bytes_read].
    rewrite wrap64_small by (unfold is_u64; lia).
    replace (Z.of_nat (30 + List.length payload))
      with (30 + BinaryLogRecord.payload_length r) by lia.
    rewrite Z.add_assoc. reflexivity.
  - assert (payload = []) as -> by (destruct payload; [reflexivity|cbn in Hlen; lia]).
    cbn [app List.length]. rewrite Nat.add_0_r. reflexivity.
Qed.

Lemma read_all_step (fuel : nat) (self : BinaryLogReader) :
  read_all (S fuel) self =
    match read_record self with
    | (None, _) => Some []
    | (Some entry, self') => entries ← read_all fuel self'; Some (entry :: entries)
    end.
Proof. reflexivity. Qed.

Lemma read_all_entries (entries : list (BinaryLogRecord.t * list byte)) :
  forall (self : BinaryLogReader) (rest : list byte),
    in_step self -> Forall well_formed entries ->
    file self = flat_map entry_bytes entries ++ rest ->
    (read_record
       {| file := rest; good := true; file_size := file_size self;
          bytes_read := file_size self - Z.of_nat (List.length rest) |}).1 = None ->
    read_all (S (List.length entries)) self = Some entries.
Proof.
  induction entries as [|entry entries IH]; intros self rest Hstep Hwf Hfile Hrest.
  - cbn [flat_map app] in Hfile. cbn [List.length]. rewrite read_all_step.
    destruct Hstep as (Hgood & Hpos & Hsize & Hmax). rewrite Hfile in Hsize.
    replace (file_size self - Z.of_nat (List.length rest)) with (bytes_read self)
      in Hrest by lia.
    replace self with {| file := rest; good := true; file_size := file_size self;
                         bytes_read := bytes_read self |}
      by (destruct self; cbn in *; congruence).
    destruct (read_record _) as [[e|] self']; [discriminate|reflexivity].
  - inversion Hwf as [|? ? Hentry Hothers]; subst.
    cbn [flat_map] in Hfile. rewrite <- app_assoc in Hfile.
    cbn [List.length]. rewrite read_all_step.
    rewrite (read_record_entry self entry _ Hstep Hentry Hfile).
    destruct Hstep as (Hgood & Hpos & Hsize & Hmax).
    rewrite Hfile, length_app in Hsize.
    rewrite (IH _ rest); [reflexivity| |exact Hothers|reflexivity|exact Hrest].
    unfold in_step. cbn [good file file_size bytes_read].
    repeat split; [lia|lia|exact Hmax].
Qed.

Lemma reader_reads_back_the_entries_aux (entries : list (BinaryLogRecord.t * list byte)) :
  Forall well_formed entries ->
  Z.of_nat (List.length (flat_map entry_bytes entries)) < 2 ^ 64 ->
  read_all (S (List.length entries))
    (BinaryLogReader_open (flat_map entry_bytes entries)) = Some entries.
Proof.
  intros Hwf Hmax. apply (read_all_entries entries _ []).
  - unfold in_step, BinaryLogReader_open. cbn. repeat split; [lia|exact Hmax].
  - exact Hwf.
  - cbn. rewrite app_nil_r. reflexivity.
  - unfold read_record. cbn [file_size bytes_read BinaryLogReader_open List.length].
    rewrite Z.sub_0_r, Z.leb_refl. reflexivity.
Qed.

(** X13. Reading back a file that is the concatenation of entries, each the
    30 bytes of a record whose fields fit their types followed by the
    [payload_length] payload bytes it declares, returns exactly those records
    and payloads, in order, and then stops. *)
Theorem reader_reads_back_the_entries (entries : list (BinaryLogRecord.t * list byte)) :
  Forall well_formed entries ->
  Z.of_nat (List.length (flat_map entry_bytes entries)) < 2 ^ 64 ->
  read_all (S (List.length entries))
    (BinaryLogReader_open (flat_map entry_bytes entries)) = Some entries.
Proof. apply reader_reads_back_the_entries_aux. Qed.

Lemma sample_entry_well_formed : well_formed sample_entry.
Proof. unfold sample_entry, well_formed, is_u64, is_u32, is_u16, is_u8. cbn. lia. Qed.

Lemma reader_reads_back_the_entries_witness :
  read_all 3 (BinaryLogReader_open (flat_map entry_bytes [sample_entry; sample_entry]))
  = Some [sample_entry; sample_entry].
Proof.
  apply (reader_reads_back_the_entries [sample_entry; sample_entry]).
  - repeat constructor; apply sample_entry_well_formed.
  - vm_compute. reflexivity.
Defined.

Lemma read_record_truncated (self : BinaryLogReader)
    (entry : BinaryLogRecord.t * list byte) (n : nat) :
  in_step self -> well_formed entry ->
  (n < List.length (entry_bytes entry))%nat ->
  file self = take n (entry_bytes entry) ->
  (read_record self).1 = None.
Proof.
  destruct entry as [r payload]. intros (Hgood & Hpos & Hsize & Hmax) Hwf Hn Hfile.
  pose proof (record_of_bytes_record_bytes r payload Hwf) as Hdecode.
  destruct Hwf as (_ & _ & _ & _ & _ & _ & _ & _ & _ & _ & Hpl & Hlen).
  unfold entry_bytes in *. cbn [fst snd] in *.
  rewrite length_app, length_record_bytes_nat in Hn.
  assert (Hflen : List.length (file self) = n)
    by (rewrite Hfile, length_take, length_app, length_record_bytes_nat; lia).
  unfold read_record, stream_read. rewrite Hgood.
  destruct (Z.leb_spec (file_size self) (bytes_read self)); [reflexivity|].
  rewrite Hflen. destruct (Nat.leb_spec 30 n) as [Hge|Hlt].
  - assert (Hhead : take 30 (file self) = record_bytes r).
    { rewrite Hfile, take_take, Nat.min_l by lia.
      apply take_app_length'. symmetry. apply length_record_bytes_nat. }
    rewrite Hhead, length_record_bytes_nat.
    change (Z.of_nat 30 =? sizeof_BinaryLogRecord) with true. cbn [negb].
    rewrite Hdecode. unfold add_bytes_read. cbn [good file file_size bytes_read].
    rewrite (proj2 (Z.ltb_lt 0 _)) by lia.
    rewrite length_drop, Hflen.
    rewrite (proj2 (Nat.leb_gt _ _)) by lia.
    rewrite length_drop, Hflen.
    rewrite (proj2 (Z.eqb_neq _ _)) by lia. reflexivity.
  - rewrite Hflen. rewrite (proj2 (Z.eqb_neq _ _)) by (unfold sizeof_BinaryLogRecord; lia).
    reflexivity.
Qed.

(** X14. When the file ends in the middle of a record (in its header or in
    its payload), the reader returns all complete records before it and
    drops the incomplete one. *)
Theorem truncated_last_record_is_dropped (entries : list (BinaryLogRecord.t * list byte))
    (entry : BinaryLogRecord.t * list byte) (n : nat) :
  Forall well_formed entries -> well_formed entry ->
  (n < List.length (entry_bytes entry))%nat ->
  Z.of_nat (List.length (flat_map entry_bytes entries ++ take n (entry_bytes entry)))
    < 2 ^ 64 ->
  read_all (S (List.length entries))
    (BinaryLogReader_open (flat_map entry_bytes entries ++ take n (entry_bytes entry)))
  = Some entries.
Proof.
  intros Hwf Hentry Hn Hmax.
  apply (read_all_entries entries _ (take n (entry_bytes entry))).
  - unfold in_step, BinaryLogReader_open. cbn. repeat split; [lia|exact Hmax].
  - exact Hwf.
  - reflexivity.
  - apply (read_record_truncated _ entry n); [|exact Hentry|exact Hn|reflexivity].
    unfold in_step, BinaryLogReader_open. cbn [good file file_size bytes_read].
    rewrite length_app in *. repeat split; [lia|lia|exact Hmax].
Qed.

Lemma truncated_last_record_is_dropped_witness :
  read_all 2
    (BinaryLogReader_open (flat_map entry_bytes [sample_entry]
                           ++ take 35 (entry_bytes sample_entry)))
  = Some [sample_entry].
Proof.
  apply (truncated_last_record_is_dropped [sample_entry] sample_entry 35).
  - repeat constructor; apply sample_entry_well_formed.
  - apply sample_entry_well_formed.
  - vm_compute. lia.
  - vm_compute. reflexivity.
Defined.

Lemma load_le_range (width : nat) (buffer : list byte) :
  forall offset, 0 <= load_le width buffer offset < 2 ^ (8 * Z.of_nat width).
Proof.
  induction width as [|w IH]; intros offset; [cbn; lia|].
  cbn [load_le]. specialize (IH (S offset)).
  pose proof (byte_val_range (nth offset buffer x00)) as Hb. fold (byte_at buffer offset) in Hb.
  replace (8 * Z.of_nat (S w)) with (8 + 8 * Z.of_nat w) by lia.
  rewrite Z.pow_add_r by lia. nia.
Qed.

Section ReadingTheJournalBack.

Variable inet_aton : string -> option Z.

(** [inet_aton] stores the address in a 32-bit [s_addr]. *)
Hypothesis inet_aton_u32 : forall text s_addr, inet_aton text = Some s_addr -> is_u32 s_addr.

Lemma ip_to_binary_u32 (text : string) : is_u32 (ip_to_binary inet_aton text).
Proof.
  unfold ip_to_binary. destruct (inet_aton text) as [a|] eqn:H.
  - apply (inet_aton_u32 _ _ H).
  - unfold is_u32. lia.
Qed.

Lemma stored_well_formed (d : Datagram) (order_status : OrderStatus.t) :
  capture_ok d ->
  well_formed (stored d (ip_to_binary inet_aton (dg_src_ip d)) order_status).
Proof.
  intros [Hnow Hlen]. unfold stored, well_formed, record_of.
  cbn [BinaryLogRecord.timestamp_ns BinaryLogRecord.packet_id BinaryLogRecord.sequence
       BinaryLogRecord.src_ip BinaryLogRecord.port BinaryLogRecord.length
       BinaryLogRecord.count BinaryLogRecord.unit BinaryLogRecord.packet_type
       BinaryLogRecord.order_status BinaryLogRecord.payload_length].
  pose proof (Z.mod_pos_bound (dg_len d) (2 ^ 16) ltac:(lia)) as Hw.
  pose proof (Z.mod_le (dg_len d) (2 ^ 16) ltac:(lia) ltac:(lia)) as Hle.
  fold (wrap16 (dg_len d)) in Hw, Hle.
  split; [exact Hnow|]. split; [apply wrap32_is_u32|].
  split; [apply (load_le_range 4)|]. split; [apply ip_to_binary_u32|].
  split; [apply Z.mod_pos_bound; lia|]. split; [exact Hw|].
  split; [apply byte_val_range|]. split; [apply byte_val_range|].
  split; [unfold is_u8; destruct (classify_packet_type _ _ _); cbn; lia|].
  split; [unfold is_u8; destruct order_status; cbn; lia|].
  split; [unfold is_u16; lia|].
  rewrite length_take. lia.
Qed.

Lemma journal_bytes (ds : list Datagram) :
  forall verdicts : list OrderStatus.t,
    List.concat
      (zip_with (fun d v => journal_entry d (ip_to_binary inet_aton (dg_src_ip d)) v)
         ds verdicts)
    = flat_map entry_bytes
        (zip_with (fun d v => stored d (ip_to_binary inet_aton (dg_src_ip d)) v)
           ds verdicts).
Proof.
  induction ds as [|d ds IH]; intros [|v vs]; try reflexivity.
  cbn [zip_with List.concat flat_map]. rewrite IH. reflexivity.
Qed.

Lemma stored_all_well_formed (ds : list Datagram) :
  forall verdicts : list OrderStatus.t,
    Forall capture_ok ds ->
    Forall well_formed
      (zip_with (fun d v => stored d (ip_to_binary inet_aton (dg_src_ip d)) v)
         ds verdicts).
Proof.
  induction ds as [|d ds IH]; intros [|v vs] Hok; try constructor.
  - inversion Hok; subst. apply stored_well_formed. assumption.
  - inversion Hok; subst. apply IH. assumption.
Qed.

(** The journal of a capture, read back. *)
Lemma journal_reads_back_aux (fuel : nat) (ds : list Datagram) (self' : PacketProcessor) :
  Forall capture_ok ds ->
  process_all inet_aton fuel ds PacketProcessor_init = Some self' ->
  Z.of_nat (List.length (List.concat (binary_logger_ (logger_ self')))) < 2 ^ 64 ->
  exists verdicts,
    feed fuel (call_of <$> List.filter journaled ds) ∅
    = Some (verdicts, sequence_manager_ self')
    /\ read_all (S (List.length (List.filter journaled ds)))
         (BinaryLogReader_open (List.concat (binary_logger_ (logger_ self'))))
       = Some (zip_with (fun d v => stored d (ip_to_binary inet_aton (dg_src_ip d)) v)
                 (List.filter journaled ds) verdicts).
Proof.
  intros Hok Hrun Hmax.
  destruct (process_all_journal inet_aton _ _ _ _ Hrun) as (vs & Hfeed & Hjournal).
  exists vs. split; [exact Hfeed|].
  cbn [PacketProcessor_init logger_ binary_logger_ log_console BinaryLogger_init app]
    in Hjournal.
  rewrite Hjournal, journal_bytes in *.
  assert (Hlen : List.length (List.filter journaled ds)
                 = List.length
                     (zip_with (fun d v => stored d (ip_to_binary inet_aton (dg_src_ip d)) v)
                        (List.filter journaled ds) vs)).
  { rewrite length_zip_with. apply feed_length in Hfeed.
    rewrite length_fmap in Hfeed. lia. }
  rewrite Hlen. apply reader_reads_back_the_entries_aux; [|exact Hmax].
  apply stored_all_well_formed.
  clear -Hok. induction ds as [|d ds IH]; [constructor|].
  inversion Hok; subst. cbn [List.filter].
  destruct (journaled d); [constructor; [assumption|]|]; apply IH; assumption.
Qed.

(** X15. Reading back the concatenation of the journal entries a capture
    produced (the strings [log_packet] hands to the logger, one after the
    other; what the sink writes around them is not part of the model)
    returns, in order, one record per packet that passed validation and the
    heartbeat filter, with the fields [process_packet] logged (clock reading,
    packet id, header sequence, source address, port, length, count, unit,
    classification, verdict) and the first [min(len, 256)] bytes of the
    packet. *)
Theorem journal_reads_back (fuel : nat) (ds : list Datagram) (self' : PacketProcessor) :
  Forall capture_ok ds ->
  process_all inet_aton fuel ds PacketProcessor_init = Some self' ->
  Z.of_nat (List.length (List.concat (binary_logger_ (logger_ self')))) < 2 ^ 64 ->
  exists verdicts,
    feed fuel (call_of <$> List.filter journaled ds) ∅
    = Some (verdicts, sequence_manager_ self')
    /\ read_all (S (List.length (List.filter journaled ds)))
         (BinaryLogReader_open (List.concat (binary_logger_ (logger_ self'))))
       = Some (zip_with (fun d v => stored d (ip_to_binary inet_aton (dg_src_ip d)) v)
                 (List.filter journaled ds) verdicts).
Proof. apply journal_reads_back_aux. Qed.

End ReadingTheJournalBack.

Lemma journal_reads_back_witness :
  exists self' verdicts,
    process_all (fun _ => None) 0 sample_capture PacketProcessor_init = Some self'
    /\ read_all 3 (BinaryLogReader_open (List.concat (binary_logger_ (logger_ self'))))
       = Some (zip_with (fun d v => stored d 0 v)
                 (List.filter journaled sample_capture) verdicts).
Proof.
  destruct (process_all (fun _ => None) 0 sample_capture PacketProcessor_init)
    as [self'|] eqn:H.
  2: { vm_compute in H. discriminate. }
  assert (Haton : forall (text : string) (s_addr : Z),
             (fun _ : string => @None Z) text = Some s_addr -> is_u32 s_addr)
    by (intros text a Ha; discriminate).
  assert (Hok : Forall capture_ok sample_capture)
    by (repeat constructor; unfold is_u64; cbn; lia).
  assert (Hmax : Z.of_nat (List.length (List.concat (binary_logger_ (logger_ self'))))
                 < 2 ^ 64).
  { vm_compute in H. injection H as <-. vm_compute. reflexivity. }
  destruct (journal_reads_back _ Haton 0 sample_capture self' Hok H Hmax)
    as (vs & _ & Hread).
  exists self', vs. split; [reflexivity|exact Hread].
Defined.

(** * Message types and message framing *)

Lemma lookup_in_sound {A : Type} (id_of : A -> Z) (table : list A) (id : Z) (info : A) :
  lookup_in id_of table id = Some info -> info ∈ table /\ id_of info = id.
Proof.
  induction table as [|e rest IH]; cbn [lookup_in]; [discriminate|].
  destruct (Z.eqb_spec (id_of e) id) as [Heq|Hne].
  - intros [= <-]. split; [apply list_elem_of_here|exact Heq].
  - intros H. destruct (IH H) as [Hin Hid]. split; [apply list_elem_of_further, Hin|exact Hid].
Qed.

Lemma lookup_in_none {A : Type} (id_of : A -> Z) (table : list A) (id : Z) :
  lookup_in id_of table id = None <-> id ∉ id_of <$> table.
Proof.
  induction table as [|e rest IH]; cbn [lookup_in fmap list_fmap].
  - split; [intros _; apply not_elem_of_nil|reflexivity].
  - fold (id_of <$> rest). rewrite not_elem_of_cons.
    destruct (Z.eqb_spec (id_of e) id) as [Heq|Hne].
    + split; [discriminate|]. intros [Hne _]. congruence.
    + rewrite IH. split; [intros H; split; [congruence|exact H]|tauto].
Qed.

(** X16. [lookup_message_type], in the receiver and in the reader, finds
    every entry of its table by its id (no entry is shadowed by an earlier
    one with the same id); what it returns is an entry of the table with the
    id asked for; it returns the null pointer exactly for the ids the table
    does not list; and the two tables list the same ids with the same names
    and descriptions, in the same order. *)
Theorem lookup_message_type_finds_every_entry :
  (forall info, info ∈ CBOE_MESSAGE_TYPES ->
                lookup_message_type (MessageTypeInfo.type_id info) = Some info)
  /\ (forall info, info ∈ Reader.CBOE_MESSAGE_TYPES ->
                   Reader.lookup_message_type (Reader.type_id info) = Some info)
  /\ (forall id info, lookup_message_type id = Some info ->
                      info ∈ CBOE_MESSAGE_TYPES /\ MessageTypeInfo.type_id info = id)
  /\ (forall id info, Reader.lookup_message_type id = Some info ->
                      info ∈ Reader.CBOE_MESSAGE_TYPES /\ Reader.type_id info = id)
  /\ (forall id, lookup_message_type id = None <->
                 id ∉ MessageTypeInfo.type_id <$> CBOE_MESSAGE_TYPES)
  /\ (forall id, Reader.lookup_message_type id = None <->
                 id ∉ Reader.type_id <$> Reader.CBOE_MESSAGE_TYPES)
  /\ (fun info => (Reader.type_id info, Reader.name info, Reader.description info))
       <$> Reader.CBOE_MESSAGE_TYPES
     = (fun info => (MessageTypeInfo.type_id info, MessageTypeInfo.name info,
                     MessageTypeInfo.description info))
       <$> CBOE_MESSAGE_TYPES.
Proof.
  split; [|split; [|split; [|split; [|split; [|split]]]]].
  - apply Forall_forall. unfold CBOE_MESSAGE_TYPES.
    repeat (constructor; [reflexivity|]). constructor.
  - apply Forall_forall. unfold Reader.CBOE_MESSAGE_TYPES.
    repeat (constructor; [reflexivity|]). constructor.
  - intros id info. apply lookup_in_sound.
  - intros id info. apply lookup_in_sound.
  - intros id. apply lookup_in_none.
  - intros id. apply lookup_in_none.
  - reflexivity.
Qed.


Lemma byte_at_range (payload : list byte) (offset : nat) :
  0 <= byte_at payload offset < 2 ^ 8.
Proof. apply byte_val_range. Qed.

Lemma frames_from_empty (payload : list byte) (offset : Z) (frames : list (Z * Z)) :
  Z.of_nat (List.length payload) < offset + 2 ->
  frames_from payload offset frames -> frames = [].
Proof. intros Hsize Hframes. inversion Hframes; [reflexivity|lia]. Qed.

(** The viewer's loop lists the first [remaining] frames. *)
Lemma parse_messages_loop_frames (payload : list byte) (remaining : nat) :
  forall (offset : Z) (frames : list (Z * Z)),
    frames_from payload offset frames ->
    parse_messages_loop remaining payload offset
    = (fun frame => message_line frame.1 frame.2) <$> take remaining frames.
Proof.
  induction remaining as [|remaining IH]; intros offset frames Hframes; [reflexivity|].
  cbn [parse_messages_loop].
  pose proof (byte_at_range payload (Z.to_nat offset)) as Hlen.
  inversion Hframes as [Hstop|rest Hhead Hnz Hend Hrest]; subst.
  - cbn [take fmap list_fmap].
    destruct (Z.ltb_spec offset (Z.of_nat (List.length payload))); [|reflexivity].
    cbn [negb].
    destruct (Z.ltb_spec (Z.of_nat (List.length payload)) (offset + 2)); [reflexivity|].
    destruct (Z.eqb_spec (byte_at payload (Z.to_nat offset)) 0); [reflexivity|].
    cbn [orb].
    destruct (Z.ltb_spec (Z.of_nat (List.length payload))
                (offset + byte_at payload (Z.to_nat offset))); [reflexivity|lia].
  - rewrite (proj2 (Z.ltb_lt offset _)) by lia. cbn [negb].
    rewrite (proj2 (Z.ltb_ge _ (offset + 2))) by lia.
    rewrite (proj2 (Z.eqb_neq _ 0) Hnz). cbn [orb].
    rewrite (proj2 (Z.ltb_ge _ _)) by lia.
    cbn [take fmap list_fmap fst snd]. f_equal. apply IH, Hrest.
Qed.

(** The statistics' loop counts the type of every frame. *)
Lemma count_messages_loop_frames (payload : list byte) (fuel : nat) :
  forall (offset : Z) (frames : list (Z * Z)) (counts : gmap Z Z),
    frames_from payload offset frames ->
    (List.length frames < fuel)%nat ->
    count_messages_loop fuel payload offset counts
    = Some (foldl (fun c frame => bump frame.1 c) counts frames).
Proof.
  induction fuel as [|fuel IH]; intros offset frames counts Hframes Hfuel; [lia|].
  cbn [count_messages_loop].
  pose proof (byte_at_range payload (Z.to_nat offset)) as Hlen.
  inversion Hframes as [Hstop|rest Hhead Hnz Hend Hrest]; subst.
  - cbn [foldl].
    destruct (Z.ltb_spec (Z.of_nat (List.length payload)) (offset + 2)); [reflexivity|].
    destruct (Z.eqb_spec (byte_at payload (Z.to_nat offset)) 0); [reflexivity|].
    cbn [orb].
    destruct (Z.ltb_spec (Z.of_nat (List.length payload))
                (offset + byte_at payload (Z.to_nat offset))); [reflexivity|lia].
  - rewrite (proj2 (Z.ltb_ge _ (offset + 2))) by lia.
    rewrite (proj2 (Z.eqb_neq _ 0) Hnz). cbn [orb].
    rewrite (proj2 (Z.ltb_ge _ _)) by lia.
    cbn [foldl fst snd List.length] in *.
    destruct (Z.leb_spec (Z.of_nat (List.length payload))
                (offset + byte_at payload (Z.to_nat offset))) as [Hdone|Hmore].
    + assert (rest = []) as -> by (eapply frames_from_empty; [|exact Hrest]; lia).
      reflexivity.
    + apply IH; [exact Hrest|lia].
Qed.

(** Every payload has its frames, fewer than its size. *)
Lemma frames_from_exist (payload : list byte) (n : nat) :
  forall offset : Z,
    0 <= offset -> Z.to_nat (Z.of_nat (List.length payload) - offset) = n ->
    exists frames,
      frames_from payload offset frames
      /\ Z.of_nat (List.length frames) <= Z.of_nat (List.length payload) - offset
         \/ frames_from payload offset frames /\ frames = [].
Proof.
  induction n as [n IH] using lt_wf_ind. intros offset Hpos Hn.
  pose proof (byte_at_range payload (Z.to_nat offset)) as Hlen.
  destruct (Z_lt_le_dec (Z.of_nat (List.length payload)) (offset + 2)) as [Hshort|Hhead].
  { exists []. right. split; [apply frames_stop; lia|reflexivity]. }
  destruct (Z.eq_dec (byte_at payload (Z.to_nat offset)) 0) as [Hz|Hnz].
  { exists []. right. split; [apply frames_stop; lia|reflexivity]. }
  destruct (Z_lt_le_dec (Z.of_nat (List.length payload))
              (offset + byte_at payload (Z.to_nat offset))) as [Hover|Hend].
  { exists []. right. split; [apply frames_stop; lia|reflexivity]. }
  destruct (IH (Z.to_nat (Z.of_nat (List.length payload)
                          - (offset + byte_at payload (Z.to_nat offset))))
              ltac:(lia) (offset + byte_at payload (Z.to_nat offset)) ltac:(lia) eq_refl)
    as (rest & [[Hrest Hcount]|[Hrest ->]]).
  - eexists. left. split; [apply (frames_step _ _ rest); assumption|].
    cbn [List.length]. lia.
  - eexists. left. split; [apply (frames_step _ _ []); assumption|].
    cbn [List.length]. lia.
Qed.

(** X18. In a payload of at least 8 bytes the viewer ([parse_payload_messages])
    and the statistics (the message loop of [LogStatistics::update]) walk the
    same messages from offset 8 (each with its two-byte header inside the
    payload, a non-zero length, ending inside the payload): the viewer lists
    the first 100 of them, the statistics count the type of each, and the
    loop ends. *)
Theorem viewer_and_statistics_walk_the_same_messages (payload : list byte)
    (counts : gmap Z Z) :
  sizeof_CboeSequencedUnitHeader <= Z.of_nat (List.length payload) ->
  Z.of_nat (List.length payload) + 255 <= INT_MAX ->
  exists frames,
    frames_from payload sizeof_CboeSequencedUnitHeader frames
    /\ parse_payload_messages payload
       = (fun frame => message_line frame.1 frame.2) <$> take 100 frames
    /\ count_messages_loop (S (List.length payload)) payload
         sizeof_CboeSequencedUnitHeader counts
       = Some (foldl (fun c frame => bump frame.1 c) counts frames).
Proof.
  intros Hsize _. unfold sizeof_CboeSequencedUnitHeader in *.
  destruct (frames_from_exist payload _ 8 ltac:(lia) eq_refl)
    as (frames & [[Hframes Hcount]|[Hframes ->]]).
  - exists frames. split; [exact Hframes|]. split.
    + unfold parse_payload_messages, sizeof_CboeSequencedUnitHeader.
      rewrite (proj2 (Z.ltb_ge _ 8)) by lia. apply parse_messages_loop_frames, Hframes.
    + apply count_messages_loop_frames; [exact Hframes|lia].
  - exists []. split; [exact Hframes|]. split.
    + unfold parse_payload_messages, sizeof_CboeSequencedUnitHeader.
      rewrite (proj2 (Z.ltb_ge _ 8)) by lia. apply parse_messages_loop_frames, Hframes.
    + apply count_messages_loop_frames; [exact Hframes|cbn; lia].
Qed.

Lemma viewer_and_statistics_walk_the_same_messages_witness :
  exists frames,
    parse_payload_messages
      [x0d; x00; x02; x01; x01; x00; x00; x00; x03; x97; x00; x02; x2d]
    = (fun frame => message_line frame.1 frame.2) <$> take 100 frames
    /\ count_messages_loop 14
         [x0d; x00; x02; x01; x01; x00; x00; x00; x03; x97; x00; x02; x2d] 8 ∅
       = Some (foldl (fun c frame => bump frame.1 c) ∅ frames).
Proof.
  destruct (viewer_and_statistics_walk_the_same_messages
              [x0d; x00; x02; x01; x01; x00; x00; x00; x03; x97; x00; x02; x2d] ∅)
    as (frames & _ & Hparse & Hcount).
  - unfold sizeof_CboeSequencedUnitHeader. cbn. lia.
  - unfold INT_MAX. cbn. lia.
  - exists frames. split; [exact Hparse|exact Hcount].
Defined.

(** * The reader's statistics *)

Lemma bump_lookup (k k' : Z) (counts : gmap Z Z) :
  default 0 (bump k counts !! k')
  = if decide (k = k') then u64_incr (default 0 (counts !! k))
    else default 0 (counts !! k').
Proof.
  unfold bump. destruct (decide (k = k')) as [->|Hne].
  - rewrite lookup_insert_eq. reflexivity.
  - rewrite lookup_insert_ne by exact Hne. reflexivity.
Qed.

(** A histogram built with [counts[key]++] holds the number of occurrences
    of each key, while no counter wraps. *)
Lemma foldl_bump_count {A : Type} (key : A -> Z) (xs : list A) (k : Z) :
  forall counts : gmap Z Z,
    0 <= default 0 (counts !! k) ->
    default 0 (counts !! k) + Z.of_nat (List.length xs) < 2 ^ 64 ->
    default 0 (foldl (fun c x => bump (key x) c) counts xs !! k)
    = default 0 (counts !! k)
      + Z.of_nat (List.length (List.filter (fun x => key x =? k) xs)).
Proof.
  induction xs as [|x xs IH]; intros counts Hpos Hmax; cbn [foldl List.filter List.length].
  - lia.
  - cbn [List.length] in Hmax. rewrite Nat2Z.inj_succ in Hmax.
    pose proof (bump_lookup (key x) k counts) as Hb.
    destruct (Z.eqb_spec (key x) k) as [Heq|Hne].
    + rewrite decide_True in Hb by exact Heq.
      replace (counts !! key x) with (counts !! k) in Hb by (rewrite Heq; reflexivity).
      rewrite u64_incr_small in Hb by lia.
      rewrite IH; rewrite Hb; cbn [List.length]; lia.
    + rewrite decide_False in Hb by exact Hne.
      rewrite IH; rewrite Hb; lia.
Qed.

Lemma foldl_bump_dom {A : Type} (key : A -> Z) (xs : list A) (k : Z) :
  forall counts : gmap Z Z,
    foldl (fun c x => bump (key x) c) counts xs !! k = None
    <-> counts !! k = None /\ k ∉ key <$> xs.
Proof.
  induction xs as [|x xs IH]; intros counts; cbn [foldl fmap list_fmap].
  - split; [intros H; split; [exact H|apply not_elem_of_nil]|tauto].
  - fold (key <$> xs). rewrite IH, not_elem_of_cons. unfold bump.
    destruct (decide (key x = k)) as [Heq|Hne].
    + rewrite Heq, lookup_insert_eq. split; [intros [H _]; discriminate|].
      intros [_ [H _]]. congruence.
    + rewrite lookup_insert_ne by exact Hne.
      split; [intros [H1 H2]; repeat split; [exact H1|congruence|exact H2]|tauto].
Qed.

(** A counter incremented on a condition holds the number of elements that
    satisfy it, while it does not wrap. *)
Lemma foldl_incr_where {A : Type} (test : A -> bool) (xs : list A) :
  forall n : Z,
    0 <= n -> n + Z.of_nat (List.length xs) < 2 ^ 64 ->
    foldl (fun n x => if test x then u64_incr n else n) n xs
    = n + Z.of_nat (List.length (List.filter test xs)).
Proof.
  induction xs as [|x xs IH]; intros n Hpos Hmax; cbn [foldl List.filter List.length].
  - lia.
  - cbn [List.length] in Hmax. rewrite Nat2Z.inj_succ in Hmax.
    destruct (test x).
    + rewrite IH; rewrite u64_incr_small by lia; cbn [List.length]; lia.
    + rewrite IH; lia.
Qed.

Lemma filter_true_length {A : Type} (xs : list A) :
  List.length (List.filter (fun _ => true) xs) = List.length xs.
Proof. induction xs as [|x xs IH]; cbn; [reflexivity|f_equal; exact IH]. Qed.

Lemma filter_length_le {A : Type} (test : A -> bool) (xs : list A) :
  (List.length (List.filter test xs) <= List.length xs)%nat.
Proof. induction xs as [|x xs IH]; cbn; [lia|destruct (test x); cbn; lia]. Qed.

(** A running minimum is below its start and below every element taken into
    it, and it is the start or one of these elements. *)
Lemma foldl_min_where {A : Type} (test : A -> bool) (f : A -> Z) (xs : list A) :
  forall m : Z,
    let m' := foldl (fun m x => if test x then Z.min m (f x) else m) m xs in
    m' <= m
    /\ (forall x, x ∈ xs -> test x = true -> m' <= f x)
    /\ (m' = m \/ exists x, x ∈ xs /\ test x = true /\ m' = f x).
Proof.
  induction xs as [|x xs IH]; intros m; cbn [foldl]; cbn zeta.
  - split; [lia|]. split; [intros x Hx; inversion Hx|left; reflexivity].
  - specialize (IH (if test x then Z.min m (f x) else m)). cbn zeta in IH.
    destruct IH as (Hle & Hall & Hatt).
    split; [destruct (test x); lia|]. split.
    + intros y Hy Hty. apply elem_of_cons in Hy as [->|Hy]; [|apply Hall; assumption].
      rewrite Hty in Hle |- *. lia.
    + destruct Hatt as [Heq|(y & Hy & Hty & Heq)].
      * destruct (test x) eqn:Htx; [|left; exact Heq].
        rewrite Heq. destruct (Z.min_spec m (f x)) as [[_ Hm]|[_ Hm]]; rewrite Hm.
        -- left. reflexivity.
        -- right. exists x. split; [apply list_elem_of_here|]. split; [exact Htx|reflexivity].
      * right. exists y. split; [apply list_elem_of_further, Hy|]. split; assumption.
Qed.

Lemma foldl_max_where {A : Type} (test : A -> bool) (f : A -> Z) (xs : list A) :
  forall m : Z,
    let m' := foldl (fun m x => if test x then Z.max m (f x) else m) m xs in
    m <= m'
    /\ (forall x, x ∈ xs -> test x = true -> f x <= m')
    /\ (m' = m \/ exists x, x ∈ xs /\ test x = true /\ m' = f x).
Proof.
  induction xs as [|x xs IH]; intros m; cbn [foldl]; cbn zeta.
  - split; [lia|]. split; [intros x Hx; inversion Hx|left; reflexivity].
  - specialize (IH (if test x then Z.max m (f x) else m)). cbn zeta in IH.
    destruct IH as (Hle & Hall & Hatt).
    split; [destruct (test x); lia|]. split.
    + intros y Hy Hty. apply elem_of_cons in Hy as [->|Hy]; [|apply Hall; assumption].
      rewrite Hty in Hle |- *. lia.
    + destruct Hatt as [Heq|(y & Hy & Hty & Heq)].
      * destruct (test x) eqn:Htx; [|left; exact Heq].
        rewrite Heq. destruct (Z.max_spec m (f x)) as [[_ Hm]|[_ Hm]]; rewrite Hm.
        -- right. exists x. split; [apply list_elem_of_here|]. split; [exact Htx|reflexivity].
        -- left. reflexivity.
      * right. exists y. split; [apply list_elem_of_further, Hy|]. split; assumption.
Qed.

(** The message loop returns when it has more gas than the payload has
    bytes. *)
Lemma count_messages_loop_returns (gas : nat) (payload : list byte) (counts : gmap Z Z) :
  (List.length payload < gas)%nat ->
  exists counted,
    count_messages_loop gas payload sizeof_CboeSequencedUnitHeader counts = Some counted.
Proof.
  intros Hgas. unfold sizeof_CboeSequencedUnitHeader.
  destruct (frames_from_exist payload _ 8 ltac:(lia) eq_refl)
    as (frames & [[Hframes Hcount]|[Hframes ->]]).
  - eexists. apply count_messages_loop_frames; [exact Hframes|lia].
  - eexists. apply count_messages_loop_frames; [exact Hframes|cbn; lia].
Qed.

(** What one [update] does to each member but the message histogram. *)
Lemma update_fields (gas : nat) (record : BinaryLogRecord.t) (payload : list byte)
    (s s' : LogStatistics.t) :
  LogStatistics.update gas record payload s = Some s' ->
  LogStatistics.total_records s' = u64_incr (LogStatistics.total_records s)
  /\ LogStatistics.packet_type_counts s'
     = bump (BinaryLogRecord.packet_type record) (LogStatistics.packet_type_counts s)
  /\ LogStatistics.order_status_counts s'
     = bump (BinaryLogRecord.order_status record) (LogStatistics.order_status_counts s)
  /\ LogStatistics.port_counts s'
     = bump (BinaryLogRecord.port record) (LogStatistics.port_counts s)
  /\ LogStatistics.unit_counts s'
     = bump (BinaryLogRecord.unit record) (LogStatistics.unit_counts s)
  /\ LogStatistics.min_timestamp s'
     = Z.min (LogStatistics.min_timestamp s) (BinaryLogRecord.timestamp_ns record)
  /\ LogStatistics.max_timestamp s'
     = Z.max (LogStatistics.max_timestamp s) (BinaryLogRecord.timestamp_ns record)
  /\ LogStatistics.min_sequence s'
     = (if 0 <? BinaryLogRecord.sequence record
        then Z.min (LogStatistics.min_sequence s) (BinaryLogRecord.sequence record)
        else LogStatistics.min_sequence s)
  /\ LogStatistics.max_sequence s'
     = (if 0 <? BinaryLogRecord.sequence record
        then Z.max (LogStatistics.max_sequence s) (BinaryLogRecord.sequence record)
        else LogStatistics.max_sequence s)
  /\ LogStatistics.out_of_order_count s'
     = (if (BinaryLogRecord.order_status record =? 4)
           || (BinaryLogRecord.order_status record =? 3)
        then u64_incr (LogStatistics.out_of_order_count s)
        else LogStatistics.out_of_order_count s)
  /\ LogStatistics.duplicate_count s'
     = (if BinaryLogRecord.order_status record =? 5
        then u64_incr (LogStatistics.duplicate_count s)
        else LogStatistics.duplicate_count s).
Proof.
  unfold LogStatistics.update.
  destruct (if sizeof_CboeSequencedUnitHeader <=? Z.of_nat (List.length payload)
            then _ else _) as [counted|]; cbn [mbind option_bind]; [|discriminate].
  intros [= <-]. cbn. repeat split.
Qed.

Lemma update_returns (gas : nat) (record : BinaryLogRecord.t) (payload : list byte)
    (s : LogStatistics.t) :
  (List.length payload < gas)%nat ->
  exists s', LogStatistics.update gas record payload s = Some s'.
Proof.
  intros Hgas. unfold LogStatistics.update.
  destruct (sizeof_CboeSequencedUnitHeader <=? Z.of_nat (List.length payload)).
  - destruct (count_messages_loop_returns gas payload (LogStatistics.message_type_counts s)
                Hgas) as [counted ->].
    cbn [mbind option_bind]. eexists. reflexivity.
  - cbn [mbind option_bind]. eexists. reflexivity.
Qed.

Lemma update_all_returns (gas : nat) (entries : list (BinaryLogRecord.t * list byte)) :
  forall s : LogStatistics.t,
    Forall (fun entry => (List.length entry.2 < gas)%nat) entries ->
    exists s', update_all gas entries s = Some s'.
Proof.
  induction entries as [|[record payload] entries IH]; intros s Hgas; cbn [update_all].
  - eexists. reflexivity.
  - inversion Hgas as [|? ? Hhead Htail]; subst. cbn [snd] in Hhead.
    destruct (update_returns gas record payload s Hhead) as [s1 ->].
    cbn [mbind option_bind]. apply IH, Htail.
Qed.

(** Each member after a run of updates, as a fold over the entries. *)
Lemma update_all_fields (gas : nat) (entries : list (BinaryLogRecord.t * list byte)) :
  forall s s' : LogStatistics.t,
    update_all gas entries s = Some s' ->
    LogStatistics.total_records s'
    = foldl (fun n entry => if (fun _ : BinaryLogRecord.t * list byte => true) entry
                            then u64_incr n else n)
        (LogStatistics.total_records s) entries
    /\ LogStatistics.packet_type_counts s'
       = foldl (fun c entry => bump (BinaryLogRecord.packet_type entry.1) c)
           (LogStatistics.packet_type_counts s) entries
    /\ LogStatistics.order_status_counts s'
       = foldl (fun c entry => bump (BinaryLogRecord.order_status entry.1) c)
           (LogStatistics.order_status_counts s) entries
    /\ LogStatistics.port_counts s'
       = foldl (fun c entry => bump (BinaryLogRecord.port entry.1) c)
           (LogStatistics.port_counts s) entries
    /\ LogStatistics.unit_counts s'
       = foldl (fun c entry => bump (BinaryLogRecord.unit entry.1) c)
           (LogStatistics.unit_counts s) entries
    /\ LogStatistics.min_timestamp s'
       = foldl (fun m entry => if (fun _ : BinaryLogRecord.t * list byte => true) entry
                               then Z.min m (BinaryLogRecord.timestamp_ns entry.1) else m)
           (LogStatistics.min_timestamp s) entries
    /\ LogStatistics.max_timestamp s'
       = foldl (fun m entry => if (fun _ : BinaryLogRecord.t * list byte => true) entry
                               then Z.max m (BinaryLogRecord.timestamp_ns entry.1) else m)
           (LogStatistics.max_timestamp s) entries
    /\ LogStatistics.min_sequence s'
       = foldl (fun m entry => if 0 <? BinaryLogRecord.sequence entry.1
                               then Z.min m (BinaryLogRecord.sequence entry.1) else m)
           (LogStatistics.min_sequence s) entries
    /\ LogStatistics.max_sequence s'
       = foldl (fun m entry => if 0 <? BinaryLogRecord.sequence entry.1
                               then Z.max m (BinaryLogRecord.sequence entry.1) else m)
           (LogStatistics.max_sequence s) entries
    /\ LogStatistics.out_of_order_count s'
       = foldl (fun n entry => if (BinaryLogRecord.order_status entry.1 =? 4)
                                  || (BinaryLogRecord.order_status entry.1 =? 3)
                               then u64_incr n else n)
           (LogStatistics.out_of_order_count s) entries
    /\ LogStatistics.duplicate_count s'
       = foldl (fun n entry => if BinaryLogRecord.order_status entry.1 =? 5
                               then u64_incr n else n)
           (LogStatistics.duplicate_count s) entries.
Proof.
  induction entries as [|[record payload] entries IH]; intros s s' Hrun;
    cbn [update_all] in Hrun.
  - injection Hrun as <-. cbn [foldl]. repeat split.
  - destruct (LogStatistics.update gas record payload s) as [s1|] eqn:Hstep;
      cbn [mbind option_bind] in Hrun; [|discriminate].
    apply update_fields in Hstep.
    destruct Hstep as (H1 & H2 & H3 & H4 & H5 & H6 & H7 & H8 & H9 & H10 & H11).
    specialize (IH _ _ Hrun). cbn [foldl fst].
    rewrite <- H1, <- H2, <- H3, <- H4, <- H5, <- H6, <- H7, <- H8, <- H9, <- H10, <- H11.
    exact IH.
Qed.

(** The members after a run of updates from the initial statistics. *)
Lemma statistics_count_every_record_aux (gas : nat)
    (entries : list (BinaryLogRecord.t * list byte)) :
  Forall (fun entry => (List.length entry.2 < gas)%nat) entries ->
  Z.of_nat (List.length entries) < 2 ^ 64 ->
  exists stats,
    update_all gas entries LogStatistics.init = Some stats
    /\ LogStatistics.total_records stats = Z.of_nat (List.length entries)
    /\ (forall k, default 0 (LogStatistics.packet_type_counts stats !! k)
                  = records_where (fun r => BinaryLogRecord.packet_type r =? k) entries)
    /\ (forall k, default 0 (LogStatistics.order_status_counts stats !! k)
                  = records_where (fun r => BinaryLogRecord.order_status r =? k) entries)
    /\ (forall k, default 0 (LogStatistics.port_counts stats !! k)
                  = records_where (fun r => BinaryLogRecord.port r =? k) entries)
    /\ (forall k, default 0 (LogStatistics.unit_counts stats !! k)
                  = records_where (fun r => BinaryLogRecord.unit r =? k) entries)
    /\ (forall k, LogStatistics.packet_type_counts stats !! k = None
                  <-> k ∉ (fun entry => BinaryLogRecord.packet_type entry.1) <$> entries)
    /\ (forall k, LogStatistics.order_status_counts stats !! k = None
                  <-> k ∉ (fun entry => BinaryLogRecord.order_status entry.1) <$> entries)
    /\ LogStatistics.out_of_order_count stats
       = records_where (fun r => (BinaryLogRecord.order_status r =? 4)
                                 || (BinaryLogRecord.order_status r =? 3)) entries
    /\ LogStatistics.duplicate_count stats
       = records_where (fun r => BinaryLogRecord.order_status r =? 5) entries.
Proof.
  intros Hgas Hmax.
  destruct (update_all_returns gas entries LogStatistics.init Hgas) as [stats Hrun].
  exists stats. split; [exact Hrun|].
  apply update_all_fields in Hrun.
  destruct Hrun as (H1 & H2 & H3 & H4 & H5 & _ & _ & _ & _ & H10 & H11).
  cbn [LogStatistics.init LogStatistics.total_records LogStatistics.packet_type_counts
       LogStatistics.order_status_counts LogStatistics.port_counts
       LogStatistics.unit_counts LogStatistics.out_of_order_count
       LogStatistics.duplicate_count] in H1, H2, H3, H4, H5, H10, H11.
  unfold records_where.
  pose proof (foldl_incr_where (fun _ : BinaryLogRecord.t * list byte => true)
                entries 0 ltac:(lia) ltac:(lia)) as Htotal.
  rewrite filter_true_length in Htotal.
  pose proof (foldl_incr_where
                (fun entry : BinaryLogRecord.t * list byte =>
                   (BinaryLogRecord.order_status entry.1 =? 4)
                   || (BinaryLogRecord.order_status entry.1 =? 3))
                entries 0 ltac:(lia) ltac:(lia)) as Hooo.
  pose proof (foldl_incr_where
                (fun entry : BinaryLogRecord.t * list byte =>
                   BinaryLogRecord.order_status entry.1 =? 5)
                entries 0 ltac:(lia) ltac:(lia)) as Hdup.
  split; [rewrite H1; exact Htotal|].
  split; [intros k; rewrite H2, foldl_bump_count; rewrite lookup_empty; cbn [default];
          [reflexivity|lia|lia]|].
  split; [intros k; rewrite H3, foldl_bump_count; rewrite lookup_empty; cbn [default];
          [reflexivity|lia|lia]|].
  split; [intros k; rewrite H4, foldl_bump_count; rewrite lookup_empty; cbn [default];
          [reflexivity|lia|lia]|].
  split; [intros k; rewrite H5, foldl_bump_count; rewrite lookup_empty; cbn [default];
          [reflexivity|lia|lia]|].
  split; [intros k; rewrite H2, foldl_bump_dom, lookup_empty; tauto|].
  split; [intros k; rewrite H3, foldl_bump_dom, lookup_empty; tauto|].
  split; [rewrite H10; exact Hooo|].
  rewrite H11. exact Hdup.
Qed.

(** X19. [LogStatistics::update], applied to a list of records with their
    payloads (fewer than 2^64 of them), returns for each (the message loop
    ends), and afterwards [total_records] is the number of records; each of
    the four histograms holds under every key the number of records with
    that packet type, order status, port or unit; a packet type or order
    status that no record has is not a key of its histogram;
    [out_of_order_count] is the number of records whose status is
    out-of-order early or late, and [duplicate_count] the number of records
    whose status is duplicate. *)
Theorem statistics_count_every_record (gas : nat)
    (entries : list (BinaryLogRecord.t * list byte)) :
  Forall (fun entry => (List.length entry.2 < gas)%nat) entries ->
  Z.of_nat (List.length entries) < 2 ^ 64 ->
  exists stats,
    update_all gas entries LogStatistics.init = Some stats
    /\ LogStatistics.total_records stats = Z.of_nat (List.length entries)
    /\ (forall k, default 0 (LogStatistics.packet_type_counts stats !! k)
                  = records_where (fun r => BinaryLogRecord.packet_type r =? k) entries)
    /\ (forall k, default 0 (LogStatistics.order_status_counts stats !! k)
                  = records_where (fun r => BinaryLogRecord.order_status r =? k) entries)
    /\ (forall k, default 0 (LogStatistics.port_counts stats !! k)
                  = records_where (fun r => BinaryLogRecord.port r =? k) entries)
    /\ (forall k, default 0 (LogStatistics.unit_counts stats !! k)
                  = records_where (fun r => BinaryLogRecord.unit r =? k) entries)
    /\ (forall k, LogStatistics.packet_type_counts stats !! k = None
                  <-> k ∉ (fun entry => BinaryLogRecord.packet_type entry.1) <$> entries)
    /\ (forall k, LogStatistics.order_status_counts stats !! k = None
                  <-> k ∉ (fun entry => BinaryLogRecord.order_status entry.1) <$> entries)
    /\ LogStatistics.out_of_order_count stats
       = records_where (fun r => (BinaryLogRecord.order_status r =? 4)
                                 || (BinaryLogRecord.order_status r =? 3)) entries
    /\ LogStatistics.duplicate_count stats
       = records_where (fun r => BinaryLogRecord.order_status r =? 5) entries.
Proof. apply statistics_count_every_record_aux. Qed.

Lemma statistics_count_every_record_witness :
  exists stats,
    update_all 10 [sample_entry; sample_entry] LogStatistics.init = Some stats
    /\ LogStatistics.total_records stats = 2
    /\ default 0 (LogStatistics.packet_type_counts stats !! 3) = 2.
Proof.
  destruct (statistics_count_every_record 10 [sample_entry; sample_entry])
    as (stats & Hrun & Htotal & Htypes & _).
  - repeat constructor; cbn; lia.
  - cbn. lia.
  - exists stats. split; [exact Hrun|]. split; [exact Htotal|].
    rewrite Htypes. reflexivity.
Defined.

(** X20. After [LogStatistics::update] has been applied to a list of
    records, every record's timestamp lies between [min_timestamp] and
    [max_timestamp], and the sequence of every record with a non-zero
    sequence lies between [min_sequence] and [max_sequence]; each bound is
    its initial value or the value of one of these records, so records with
    sequence 0 never enter the sequence range. *)
Theorem statistics_ranges (gas : nat) (entries : list (BinaryLogRecord.t * list byte)) :
  Forall (fun entry => (List.length entry.2 < gas)%nat) entries ->
  exists stats,
    update_all gas entries LogStatistics.init = Some stats
    /\ (forall entry, entry ∈ entries ->
          LogStatistics.min_timestamp stats <= BinaryLogRecord.timestamp_ns entry.1
          <= LogStatistics.max_timestamp stats)
    /\ (forall entry, entry ∈ entries -> 0 < BinaryLogRecord.sequence entry.1 ->
          LogStatistics.min_sequence stats <= BinaryLogRecord.sequence entry.1
          <= LogStatistics.max_sequence stats)
    /\ (LogStatistics.min_timestamp stats = UINT64_MAX
        \/ exists entry, entry ∈ entries
             /\ LogStatistics.min_timestamp stats = BinaryLogRecord.timestamp_ns entry.1)
    /\ (LogStatistics.max_timestamp stats = 0
        \/ exists entry, entry ∈ entries
             /\ LogStatistics.max_timestamp stats = BinaryLogRecord.timestamp_ns entry.1)
    /\ (LogStatistics.min_sequence stats = UINT32_MAX
        \/ exists entry, entry ∈ entries /\ 0 < BinaryLogRecord.sequence entry.1
             /\ LogStatistics.min_sequence stats = BinaryLogRecord.sequence entry.1)
    /\ (LogStatistics.max_sequence stats = 0
        \/ exists entry, entry ∈ entries /\ 0 < BinaryLogRecord.sequence entry.1
             /\ LogStatistics.max_sequence stats = BinaryLogRecord.sequence entry.1).
Proof.
  intros Hgas.
  destruct (update_all_returns gas entries LogStatistics.init Hgas) as [stats Hrun].
  exists stats. split; [exact Hrun|].
  apply update_all_fields in Hrun.
  destruct Hrun as (_ & _ & _ & _ & _ & H6 & H7 & H8 & H9 & _ & _).
  cbn [LogStatistics.init LogStatistics.min_timestamp LogStatistics.max_timestamp
       LogStatistics.min_sequence LogStatistics.max_sequence] in H6, H7, H8, H9.
  pose proof (foldl_min_where (fun _ => true)
                (fun entry : BinaryLogRecord.t * list byte =>
                   BinaryLogRecord.timestamp_ns entry.1) entries UINT64_MAX) as Hmin.
  pose proof (foldl_max_where (fun _ => true)
                (fun entry : BinaryLogRecord.t * list byte =>
                   BinaryLogRecord.timestamp_ns entry.1) entries 0) as Hmax.
  pose proof (foldl_min_where
                (fun entry : BinaryLogRecord.t * list byte =>
                   0 <? BinaryLogRecord.sequence entry.1)
                (fun entry => BinaryLogRecord.sequence entry.1) entries UINT32_MAX)
    as Hsmin.
  pose proof (foldl_max_where
                (fun entry : BinaryLogRecord.t * list byte =>
                   0 <? BinaryLogRecord.sequence entry.1)
                (fun entry => BinaryLogRecord.sequence entry.1) entries 0) as Hsmax.
  cbn beta iota zeta in Hmin, Hmax, Hsmin, Hsmax.
  rewrite <- H6 in Hmin. rewrite <- H7 in Hmax.
  rewrite <- H8 in Hsmin. rewrite <- H9 in Hsmax.
  destruct Hmin as (_ & Hmin & Hmin'). destruct Hmax as (_ & Hmax & Hmax').
  destruct Hsmin as (_ & Hsmin & Hsmin'). destruct Hsmax as (_ & Hsmax & Hsmax').
  split.
  { intros entry Hin. split; [apply Hmin|apply Hmax]; auto. }
  split.
  { intros entry Hin Hseq.
    split; [apply Hsmin|apply Hsmax]; auto; apply Z.ltb_lt; exact Hseq. }
  split.
  { destruct Hmin' as [H|(entry & Hin & _ & H)]; [left; exact H|].
    right. exists entry. split; assumption. }
  split.
  { destruct Hmax' as [H|(entry & Hin & _ & H)]; [left; exact H|].
    right. exists entry. split; assumption. }
  split.
  { destruct Hsmin' as [H|(entry & Hin & Hseq & H)]; [left; exact H|].
    right. exists entry. apply Z.ltb_lt in Hseq. repeat split; assumption. }
  destruct Hsmax' as [H|(entry & Hin & Hseq & H)]; [left; exact H|].
  right. exists entry. apply Z.ltb_lt in Hseq. repeat split; assumption.
Qed.

Lemma statistics_ranges_witness :
  exists stats,
    update_all 10 [sample_entry] LogStatistics.init = Some stats
    /\ LogStatistics.min_sequence stats <= 42 <= LogStatistics.max_sequence stats.
Proof.
  destruct (statistics_ranges 10 [sample_entry]) as (stats & Hrun & _ & Hseq & _).
  - repeat constructor; cbn; lia.
  - exists stats. split; [exact Hrun|].
    apply (Hseq sample_entry); [apply list_elem_of_here|cbn; lia].
Defined.

(** ** The loop of [main] *)

Lemma main_loop_read_all (gas : nat) (opts : Options.t) (fuel : nat) :
  forall (reader : BinaryLogReader) (n : Z) (stats : LogStatistics.t)
         (entries : list (BinaryLogRecord.t * list byte)),
    read_all fuel reader = Some entries ->
    main_loop fuel gas opts reader n stats
    = (stats' ← update_all gas
                  (List.filter (fun entry => pass_filter opts entry.1) entries) stats;
       Some (foldl (fun n entry =>
                      if (fun _ : BinaryLogRecord.t * list byte => true) entry
                      then u64_incr n else n) n entries,
             stats')).
Proof.
  induction fuel as [|fuel IH]; intros reader n stats entries Hread;
    cbn [read_all] in Hread; [discriminate|].
  cbn [main_loop].
  destruct (read_record reader) as [[[record payload]|] reader'].
  - destruct (read_all fuel reader') as [rest|] eqn:Hrest;
      cbn [mbind option_bind] in Hread; [|discriminate].
    injection Hread as <-. cbn [List.filter foldl fst].
    destruct (pass_filter opts record).
    + cbn [update_all].
      destruct (LogStatistics.update gas record payload stats) as [stats1|];
        cbn [mbind option_bind]; [|reflexivity].
      apply IH, Hrest.
    + cbn [mbind option_bind]. apply IH, Hrest.
  - injection Hread as <-. reflexivity.
Qed.

Lemma pass_filter_default (record : BinaryLogRecord.t) :
  pass_filter Options.init record = true.
Proof. reflexivity. Qed.

Lemma filter_all {A : Type} (test : A -> bool) (xs : list A) :
  (forall x, test x = true) -> List.filter test xs = xs.
Proof.
  intros Hall. induction xs as [|x xs IH]; cbn; [reflexivity|].
  rewrite Hall, IH. reflexivity.
Qed.

(** X21. On a file that is the concatenation of well-formed entries, the loop
    of [main] ends with [records_processed] equal to the number of records in
    the file, whatever the filters, and with the statistics [update] gives on
    the records that pass the filters, in file order. A record passes when
    it matches every filter that is set: a port filter of 0, a sequence
    bound of 0 and a packet type of 255 are not set. *)
Theorem analysis_covers_the_records_that_pass (gas : nat) (opts : Options.t)
    (entries : list (BinaryLogRecord.t * list byte)) :
  Forall well_formed entries ->
  Z.of_nat (List.length (flat_map entry_bytes entries)) < 2 ^ 64 ->
  Z.of_nat (List.length entries) < 2 ^ 64 ->
  Forall (fun entry => (List.length entry.2 < gas)%nat) entries ->
  (exists stats,
      main_loop (S (List.length entries)) gas opts
        (BinaryLogReader_open (flat_map entry_bytes entries)) 0 LogStatistics.init
      = Some (Z.of_nat (List.length entries), stats)
      /\ update_all gas (List.filter (fun entry => pass_filter opts entry.1) entries)
           LogStatistics.init
         = Some stats)
  /\ (forall record,
         pass_filter opts record = true
         <-> (Options.filter_port opts = 0
              \/ BinaryLogRecord.port record = Options.filter_port opts)
             /\ (Options.filter_packet_type opts = 255
                 \/ BinaryLogRecord.packet_type record = Options.filter_packet_type opts)
             /\ (Options.filter_sequence_start opts <= 0
                 \/ Options.filter_sequence_start opts <= BinaryLogRecord.sequence record)
             /\ (Options.filter_sequence_end opts <= 0
                 \/ BinaryLogRecord.sequence record <= Options.filter_sequence_end opts)).
Proof.
  intros Hwf Hsize Hmax Hgas. split.
  - pose proof (reader_reads_back_the_entries_aux entries Hwf Hsize) as Hread.
    rewrite (main_loop_read_all gas opts _ _ 0 LogStatistics.init _ Hread).
    assert (Hgas' : Forall (fun entry : BinaryLogRecord.t * list byte =>
                              (List.length entry.2 < gas)%nat)
                      (List.filter (fun entry => pass_filter opts entry.1) entries)).
    { clear -Hgas. induction entries as [|e entries IH]; [constructor|].
      inversion Hgas; subst. cbn [List.filter].
      destruct (pass_filter opts e.1); [constructor; [assumption|]|]; apply IH; assumption. }
    destruct (update_all_returns gas _ LogStatistics.init Hgas') as [stats Hrun].
    pose proof (foldl_incr_where (fun _ : BinaryLogRecord.t * list byte => true)
                  entries 0 ltac:(lia) ltac:(lia)) as Htotal.
    rewrite filter_true_length in Htotal.
    exists stats. rewrite Hrun, Htotal. split; reflexivity.
  - intros record. unfold pass_filter.
    destruct (Z.eqb_spec (Options.filter_port opts) 0);
      destruct (Z.eqb_spec (BinaryLogRecord.port record) (Options.filter_port opts));
      destruct (Z.eqb_spec (Options.filter_packet_type opts) 255);
      destruct (Z.eqb_spec (BinaryLogRecord.packet_type record)
                  (Options.filter_packet_type opts));
      destruct (Z.ltb_spec 0 (Options.filter_sequence_start opts));
      destruct (Z.ltb_spec (BinaryLogRecord.sequence record)
                  (Options.filter_sequence_start opts));
      destruct (Z.ltb_spec 0 (Options.filter_sequence_end opts));
      destruct (Z.ltb_spec (Options.filter_sequence_end opts)
                  (BinaryLogRecord.sequence record));
      cbn [negb andb]; split; try discriminate; try (intros _; repeat split; lia);
      try (intros (? & ? & ? & ?); exfalso; lia); try reflexivity.
Qed.

Lemma analysis_covers_the_records_that_pass_witness :
  exists stats,
    main_loop 3 10 Options.init
      (BinaryLogReader_open (flat_map entry_bytes [sample_entry; sample_entry])) 0
      LogStatistics.init
    = Some (2, stats).
Proof.
  destruct (analysis_covers_the_records_that_pass 10 Options.init
              [sample_entry; sample_entry]) as [(stats & Hmain & _) _].
  - repeat constructor; apply sample_entry_well_formed.
  - vm_compute. reflexivity.
  - cbn. lia.
  - repeat constructor; cbn; lia.
  - exists stats. exact Hmain.
Defined.

(** * The receiver's counters and the reader's statistics *)

Lemma records_where_cons (test : BinaryLogRecord.t -> bool)
    (entry : BinaryLogRecord.t * list byte) (entries : list (BinaryLogRecord.t * list byte)) :
  records_where test (entry :: entries)
  = (if test entry.1 then 1 else 0) + records_where test entries.
Proof.
  unfold records_where. cbn [List.filter]. destruct (test entry.1); cbn [List.length]; lia.
Qed.

Lemma records_where_range (test : BinaryLogRecord.t -> bool)
    (entries : list (BinaryLogRecord.t * list byte)) :
  0 <= records_where test entries <= Z.of_nat (List.length entries).
Proof.
  unfold records_where.
  pose proof (filter_length_le (fun entry : BinaryLogRecord.t * list byte => test entry.1)
                entries).
  lia.
Qed.

Section CountersOverTheJournal.

Variable inet_aton : string -> option Z.

(** What a packet that reaches the journal does to the counters, in terms of
    the record written for it. *)
Lemma process_datagram_stats (fuel : nat) (d : Datagram) (self self' : PacketProcessor)
    (verdict : OrderStatus.t) (trackers' : SequenceManager) :
  process_datagram inet_aton fuel d self = Some self' ->
  journaled d = true ->
  determine_order_status fuel (call_of d).1.1.1 (call_of d).1.1.2 (call_of d).1.2
    (call_of d).2 (sequence_manager_ self) = Some (verdict, trackers') ->
  let r := record_of d (ip_to_binary inet_aton (dg_src_ip d)) verdict in
  let s := stats_ self in
  let s' := stats_ self' in
  data_packets s'
  = (if BinaryLogRecord.packet_type r =? 3 then u64_incr (data_packets s)
     else data_packets s)
  /\ admin_packets s'
     = (if BinaryLogRecord.packet_type r =? 1 then u64_incr (admin_packets s)
        else admin_packets s)
  /\ unsequenced_packets s'
     = (if BinaryLogRecord.packet_type r =? 2 then u64_incr (unsequenced_packets s)
        else unsequenced_packets s)
  /\ out_of_order_packets s'
     = (if (BinaryLogRecord.order_status r =? 4) || (BinaryLogRecord.order_status r =? 3)
        then u64_incr (out_of_order_packets s) else out_of_order_packets s)
  /\ duplicate_packets s'
     = (if BinaryLogRecord.order_status r =? 5 then u64_incr (duplicate_packets s)
        else duplicate_packets s)
  /\ 1 <= BinaryLogRecord.packet_type r <= 3.
Proof.
  unfold process_datagram, process_packet, journaled, call_of, record_of.
  cbn [fst snd BinaryLogRecord.packet_type BinaryLogRecord.order_status].
  destruct (validate_packet (dg_buffer d) (dg_len d)); cbn [negb andb]; [|discriminate].
  destruct (classify_packet_type _ _ _) eqn:Hclass;
    try (rewrite bool_decide_eq_true_2 by reflexivity; cbn [negb]; discriminate);
    intros Hrun _ Hcall; unfold track_and_log in Hrun; rewrite Hcall in Hrun;
    cbn [mbind option_bind] in Hrun; injection Hrun as <-;
    destruct verdict; cbn; repeat split; lia.
Qed.

(** A packet that does not reach the journal leaves these counters alone. *)
Lemma process_datagram_skipped (fuel : nat) (d : Datagram) (self self' : PacketProcessor) :
  process_datagram inet_aton fuel d self = Some self' ->
  journaled d = false ->
  let s := stats_ self in
  let s' := stats_ self' in
  data_packets s' = data_packets s
  /\ admin_packets s' = admin_packets s
  /\ unsequenced_packets s' = unsequenced_packets s
  /\ out_of_order_packets s' = out_of_order_packets s
  /\ duplicate_packets s' = duplicate_packets s.
Proof.
  unfold process_datagram, process_packet, journaled.
  destruct (validate_packet (dg_buffer d) (dg_len d)); cbn [negb andb].
  2: { intros [= <-] _. cbn. repeat split. }
  destruct (classify_packet_type _ _ _) eqn:Hclass;
    try (rewrite bool_decide_eq_false_2 by discriminate; cbn [negb]; discriminate).
  unfold Config.SKIP_HEARTBEATS. intros [= <-] _. cbn. repeat split.
Qed.

Section OneCounter.

Variable counter : Statistics -> Z.
Variable test : BinaryLogRecord.t -> bool.

Hypothesis counter_journaled :
  forall fuel d self self' verdict trackers',
    process_datagram inet_aton fuel d self = Some self' ->
    journaled d = true ->
    determine_order_status fuel (call_of d).1.1.1 (call_of d).1.1.2 (call_of d).1.2
      (call_of d).2 (sequence_manager_ self) = Some (verdict, trackers') ->
    counter (stats_ self')
    = if test (record_of d (ip_to_binary inet_aton (dg_src_ip d)) verdict)
      then u64_incr (counter (stats_ self)) else counter (stats_ self).

Hypothesis counter_skipped :
  forall fuel d self self',
    process_datagram inet_aton fuel d self = Some self' ->
    journaled d = false ->
    counter (stats_ self') = counter (stats_ self).

(** Such a counter grows by the number of journal records that satisfy its
    test, while it does not wrap. *)
Lemma process_all_counted (fuel : nat) (ds : list Datagram) :
  forall (self self' : PacketProcessor) (verdicts : list OrderStatus.t)
         (trackers' : SequenceManager) (n : Z),
    process_all inet_aton fuel ds self = Some self' ->
    feed fuel (call_of <$> List.filter journaled ds) (sequence_manager_ self)
    = Some (verdicts, trackers') ->
    0 <= counter (stats_ self) <= n ->
    n + Z.of_nat (List.length ds) < 2 ^ 64 ->
    counter (stats_ self')
    = counter (stats_ self)
      + records_where test
          (zip_with (fun d v => stored d (ip_to_binary inet_aton (dg_src_ip d)) v)
             (List.filter journaled ds) verdicts).
Proof.
  induction ds as [|d ds IH]; intros self self' vs m n Hrun Hfeed Hpos Hmax;
    cbn [process_all] in Hrun.
  - injection Hrun as <-. cbn. unfold records_where. cbn. lia.
  - destruct (process_datagram inet_aton fuel d self) as [self1|] eqn:Hstep;
      cbn [mbind option_bind] in Hrun; [|discriminate].
    cbn [List.length] in Hmax. rewrite Nat2Z.inj_succ in Hmax.
    cbn [List.filter] in Hfeed |- *.
    pose proof (process_datagram_journal inet_aton _ _ _ _ Hstep) as Hj.
    destruct (journaled d) eqn:Hjournaled.
    + destruct Hj as (v & Hcall & _).
      pose proof (counter_journaled _ _ _ _ _ _ Hstep Hjournaled Hcall) as Hcount.
      cbn [fmap list_fmap feed] in Hfeed.
      destruct (call_of d) as [[[seq count] port] unit] eqn:Hc.
      cbn [fst snd] in Hcall. rewrite Hcall in Hfeed. cbn [mbind option_bind] in Hfeed.
      fold (call_of <$> List.filter journaled ds) in Hfeed.
      destruct (feed fuel (call_of <$> List.filter journaled ds) (sequence_manager_ self1))
        as [[vs1 m1]|] eqn:Hrest; cbn [mbind option_bind] in Hfeed; [|discriminate].
      injection Hfeed as <- <-.
      cbn [zip_with]. rewrite records_where_cons. unfold stored at 1. cbn [fst].
      rewrite (IH self1 self' vs1 m1 (n + 1) Hrun Hrest).
      * rewrite Hcount. destruct (test _); rewrite ?u64_incr_small by lia; lia.
      * rewrite Hcount. destruct (test _); rewrite ?u64_incr_small by lia; lia.
      * lia.
    + destruct Hj as [Hm _].
      pose proof (counter_skipped _ _ _ _ Hstep Hjournaled) as Hcount.
      rewrite <- Hm in Hfeed.
      rewrite (IH self1 self' vs m n Hrun Hfeed); rewrite ?Hcount; lia.
Qed.

End OneCounter.

(** The journal records of a capture have the packet types ADMIN,
    UNSEQUENCED and DATA only. *)
Lemma stored_packet_types (ds : list Datagram) :
  forall verdicts : list OrderStatus.t,
    Forall (fun entry => 1 <= BinaryLogRecord.packet_type entry.1 <= 3)
      (zip_with (fun d v => stored d (ip_to_binary inet_aton (dg_src_ip d)) v)
         (List.filter journaled ds) verdicts).
Proof.
  induction ds as [|d ds IH]; intros vs; cbn [List.filter]; [constructor|].
  destruct (journaled d) eqn:Hj; [|apply IH].
  destruct vs as [|v vs]; [constructor|]. cbn [zip_with]. constructor; [|apply IH].
  unfold stored, record_of, journaled in *. cbn [fst BinaryLogRecord.packet_type].
  apply andb_true_iff in Hj as [_ Hj]. apply negb_true_iff in Hj.
  apply bool_decide_eq_false in Hj.
  destruct (classify_packet_type _ _ _); cbn; [contradiction|lia|lia|lia].
Qed.

Lemma stored_payload_length (ds : list Datagram) :
  forall verdicts : list OrderStatus.t,
    Forall (fun entry : BinaryLogRecord.t * list byte => (List.length entry.2 < 257)%nat)
      (zip_with (fun d v => stored d (ip_to_binary inet_aton (dg_src_ip d)) v)
         ds verdicts).
Proof.
  induction ds as [|d ds IH]; intros [|v vs]; try constructor; [|apply IH].
  unfold stored. cbn [snd]. rewrite length_take. lia.
Qed.

End CountersOverTheJournal.

Lemma records_where_partition (entries : list (BinaryLogRecord.t * list byte)) :
  Forall (fun entry => 1 <= BinaryLogRecord.packet_type entry.1 <= 3) entries ->
  Z.of_nat (List.length entries)
  = records_where (fun r => BinaryLogRecord.packet_type r =? 3) entries
    + records_where (fun r => BinaryLogRecord.packet_type r =? 1) entries
    + records_where (fun r => BinaryLogRecord.packet_type r =? 2) entries
  /\ 0 ∉ (fun entry : BinaryLogRecord.t * list byte => BinaryLogRecord.packet_type entry.1)
         <$> entries.
Proof.
  induction 1 as [|entry entries Hhead _ IH].
  - split; [reflexivity|apply not_elem_of_nil].
  - rewrite !records_where_cons. cbn [List.length fmap list_fmap].
    rewrite Nat2Z.inj_succ. destruct IH as [IH1 IH2]. split.
    + destruct (Z.eqb_spec (BinaryLogRecord.packet_type entry.1) 3);
        destruct (Z.eqb_spec (BinaryLogRecord.packet_type entry.1) 1);
        destruct (Z.eqb_spec (BinaryLogRecord.packet_type entry.1) 2); lia.
    + apply not_elem_of_cons. split; [lia|exact IH2].
Qed.

Section ViewerAndReceiver.

Variable inet_aton : string -> option Z.

(** [inet_aton] stores the address in a 32-bit [s_addr]. *)
Hypothesis inet_aton_u32 : forall text s_addr, inet_aton text = Some s_addr -> is_u32 s_addr.

(** X22. Run without filters on the journal a capture produced (the strings
    [log_packet] hands to the logger, one after the other), the loop of the
    reader's [main] ends, having read one record per packet the receiver
    journaled, and its statistics agree with the receiver's counters:
    [total_records] is [data_packets + admin_packets + unsequenced_packets],
    the packet-type histogram holds [data_packets] under DATA,
    [admin_packets] under ADMIN, [unsequenced_packets] under UNSEQUENCED and
    has no HEARTBEAT key, [out_of_order_count] is [out_of_order_packets] and
    [duplicate_count] is [duplicate_packets]. *)
Theorem viewer_statistics_match_receiver_counters (fuel gas : nat) (ds : list Datagram)
    (self' : PacketProcessor) :
  Forall capture_ok ds ->
  process_all inet_aton fuel ds PacketProcessor_init = Some self' ->
  Z.of_nat (List.length (List.concat (binary_logger_ (logger_ self')))) < 2 ^ 64 ->
  Z.of_nat (List.length ds) < 2 ^ 64 ->
  (256 < gas)%nat ->
  exists stats,
    main_loop (S (List.length (List.filter journaled ds))) gas Options.init
      (BinaryLogReader_open (List.concat (binary_logger_ (logger_ self')))) 0
      LogStatistics.init
    = Some (Z.of_nat (List.length (List.filter journaled ds)), stats)
    /\ LogStatistics.total_records stats
       = data_packets (stats_ self') + admin_packets (stats_ self')
         + unsequenced_packets (stats_ self')
    /\ default 0 (LogStatistics.packet_type_counts stats
                    !! PacketType.to_u8 PacketType.DATA)
       = data_packets (stats_ self')
    /\ default 0 (LogStatistics.packet_type_counts stats
                    !! PacketType.to_u8 PacketType.ADMIN)
       = admin_packets (stats_ self')
    /\ default 0 (LogStatistics.packet_type_counts stats
                    !! PacketType.to_u8 PacketType.UNSEQUENCED)
       = unsequenced_packets (stats_ self')
    /\ LogStatistics.packet_type_counts stats !! PacketType.to_u8 PacketType.HEARTBEAT
       = None
    /\ LogStatistics.out_of_order_count stats = out_of_order_packets (stats_ self')
    /\ LogStatistics.duplicate_count stats = duplicate_packets (stats_ self').
Proof.
  intros Hok Hrun Hsize Hmax Hgas.
  destruct (journal_reads_back_aux inet_aton inet_aton_u32 fuel ds self' Hok Hrun Hsize)
    as (vs & Hfeed & Hread).
  pose proof (stored_packet_types inet_aton ds vs) as Htypes3.
  pose proof (stored_payload_length inet_aton (List.filter journaled ds) vs) as Hpayload.
  assert (Hdata := fun Hj Hs =>
    process_all_counted inet_aton data_packets
      (fun r => BinaryLogRecord.packet_type r =? 3) Hj Hs
      fuel ds PacketProcessor_init self' vs (sequence_manager_ self') 0 Hrun Hfeed).
  assert (Hadmin := fun Hj Hs =>
    process_all_counted inet_aton admin_packets
      (fun r => BinaryLogRecord.packet_type r =? 1) Hj Hs
      fuel ds PacketProcessor_init self' vs (sequence_manager_ self') 0 Hrun Hfeed).
  assert (Hunseq := fun Hj Hs =>
    process_all_counted inet_aton unsequenced_packets
      (fun r => BinaryLogRecord.packet_type r =? 2) Hj Hs
      fuel ds PacketProcessor_init self' vs (sequence_manager_ self') 0 Hrun Hfeed).
  assert (Hooo := fun Hj Hs =>
    process_all_counted inet_aton out_of_order_packets
      (fun r => (BinaryLogRecord.order_status r =? 4)
                || (BinaryLogRecord.order_status r =? 3)) Hj Hs
      fuel ds PacketProcessor_init self' vs (sequence_manager_ self') 0 Hrun Hfeed).
  assert (Hdup := fun Hj Hs =>
    process_all_counted inet_aton duplicate_packets
      (fun r => BinaryLogRecord.order_status r =? 5) Hj Hs
      fuel ds PacketProcessor_init self' vs (sequence_manager_ self') 0 Hrun Hfeed).
  assert (Hlen : List.length
                   (zip_with (fun d v => stored d (ip_to_binary inet_aton (dg_src_ip d)) v)
                      (List.filter journaled ds) vs)
                 = List.length (List.filter journaled ds)).
  { rewrite length_zip_with. apply feed_length in Hfeed.
    rewrite length_fmap in Hfeed. lia. }
  pose proof (filter_length_le journaled ds) as Hle.
  revert Hread Htypes3 Hpayload Hdata Hadmin Hunseq Hooo Hdup Hlen.
  generalize (zip_with (fun d v => stored d (ip_to_binary inet_aton (dg_src_ip d)) v)
                (List.filter journaled ds) vs).
  intros entries Hread Htypes3 Hpayload Hdata Hadmin Hunseq Hooo Hdup Hlen.
  assert (Hgas' : Forall (fun entry : BinaryLogRecord.t * list byte =>
                            (List.length entry.2 < gas)%nat) entries).
  { eapply Forall_impl; [exact Hpayload|]. cbn beta. intros entry H. lia. }
  destruct (statistics_count_every_record_aux gas entries Hgas' ltac:(lia))
    as (stats & Hupd & Htotal & Htypes & _ & _ & _ & Hdom & _ & Hooo' & Hdup').
  exists stats.
  rewrite (main_loop_read_all gas Options.init _ _ 0 LogStatistics.init _ Hread).
  rewrite (filter_all _ entries) by (intros entry; apply pass_filter_default).
  rewrite Hupd.
  pose proof (foldl_incr_where (fun _ : BinaryLogRecord.t * list byte => true)
                entries 0 ltac:(lia) ltac:(lia)) as Hcount.
  rewrite filter_true_length in Hcount.
  destruct (records_where_partition entries Htypes3) as [Hpart Hzero].
  cbn [PacketType.to_u8].
  rewrite Htotal, !Htypes, Hooo', Hdup', Hdata, Hadmin, Hunseq, Hooo, Hdup.
  - cbn [mbind option_bind PacketProcessor_init stats_ Statistics_init data_packets
         admin_packets unsequenced_packets out_of_order_packets duplicate_packets].
    split; [rewrite Hcount, Hlen; reflexivity|].
    split; [lia|]. split; [lia|]. split; [lia|]. split; [lia|].
    split; [apply Hdom, Hzero|]. split; lia.
  - intros f d s s' v m H1 H2 H3.
    destruct (process_datagram_stats inet_aton f d s s' v m H1 H2 H3)
      as (_ & _ & _ & _ & H & _). exact H.
  - intros f d s s' H1 H2.
    destruct (process_datagram_skipped inet_aton f d s s' H1 H2) as (_ & _ & _ & _ & H).
    exact H.
  - cbn. lia.
  - lia.
  - intros f d s s' v m H1 H2 H3.
    destruct (process_datagram_stats inet_aton f d s s' v m H1 H2 H3)
      as (_ & _ & _ & H & _). exact H.
  - intros f d s s' H1 H2.
    destruct (process_datagram_skipped inet_aton f d s s' H1 H2) as (_ & _ & _ & H & _).
    exact H.
  - cbn. lia.
  - lia.
  - intros f d s s' v m H1 H2 H3.
    destruct (process_datagram_stats inet_aton f d s s' v m H1 H2 H3)
      as (_ & _ & H & _). exact H.
  - intros f d s s' H1 H2.
    destruct (process_datagram_skipped inet_aton f d s s' H1 H2) as (_ & _ & H & _).
    exact H.
  - cbn. lia.
  - lia.
  - intros f d s s' v m H1 H2 H3.
    destruct (process_datagram_stats inet_aton f d s s' v m H1 H2 H3)
      as (_ & H & _). exact H.
  - intros f d s s' H1 H2.
    destruct (process_datagram_skipped inet_aton f d s s' H1 H2) as (_ & H & _).
    exact H.
  - cbn. lia.
  - lia.
  - intros f d s s' v m H1 H2 H3.
    destruct (process_datagram_stats inet_aton f d s s' v m H1 H2 H3)
      as (H & _). exact H.
  - intros f d s s' H1 H2.
    destruct (process_datagram_skipped inet_aton f d s s' H1 H2) as (H & _).
    exact H.
  - cbn. lia.
  - lia.
Qed.

End ViewerAndReceiver.

Lemma viewer_statistics_match_receiver_counters_witness :
  exists self' stats,
    process_all (fun _ => None) 0 sample_capture PacketProcessor_init = Some self'
    /\ main_loop 3 257 Options.init
         (BinaryLogReader_open (List.concat (binary_logger_ (logger_ self')))) 0
         LogStatistics.init
       = Some (2, stats)
    /\ LogStatistics.duplicate_count stats = duplicate_packets (stats_ self').
Proof.
  destruct (process_all (fun _ => None) 0 sample_capture PacketProcessor_init)
    as [self'|] eqn:H.
  2: { vm_compute in H. discriminate. }
  assert (Haton : forall (text : string) (s_addr : Z),
             (fun _ : string => @None Z) text = Some s_addr -> is_u32 s_addr)
    by (intros text a Ha; discriminate).
  assert (Hok : Forall capture_ok sample_capture)
    by (repeat constructor; unfold is_u64; cbn; lia).
  assert (Hmax : Z.of_nat (List.length (List.concat (binary_logger_ (logger_ self'))))
                 < 2 ^ 64).
  { vm_compute in H. injection H as <-. vm_compute. reflexivity. }
  assert (Hlen : Z.of_nat (List.length sample_capture) < 2 ^ 64) by (cbn; lia).
  destruct (viewer_statistics_match_receiver_counters _ Haton 0 257 sample_capture self'
              Hok H Hmax Hlen ltac:(lia))
    as (stats & Hmain & _ & _ & _ & _ & _ & _ & Hdup).
  exists self', stats. split; [reflexivity|]. split; [exact Hmain|exact Hdup].
Defined.

(** * The test publisher and subscriber *)

Lemma byte_at_load_le (buffer : list byte) (offset : nat) :
  byte_at buffer offset = load_le 1 buffer offset.
Proof. cbn [load_le]. lia. Qed.

(** The header fields of a published packet sit where the receiver and the
    subscriber read them. *)
Lemma publisher_packet_layout (packet_size count unit sequence : Z) (random : list byte) :
  let packet := publisher_packet packet_size count unit sequence random in
  load_u16 packet 0 = wrap16 packet_size
  /\ byte_at packet 2 = wrap8 count
  /\ byte_at packet 3 = wrap8 unit
  /\ load_u32 packet 4 = wrap32 sequence
  /\ List.length packet = (8 + List.length (take (Z.to_nat (packet_size - 8)) random))%nat.
Proof.
  cbn zeta. unfold publisher_packet, load_u16, load_u32. rewrite !byte_at_load_le.
  split; [rewrite load_le_bytes; apply wrap16_idem|].
  split.
  { repeat (rewrite load_le_skip by (cbv; lia); cbn [Nat.sub]).
    rewrite load_le_bytes. reflexivity. }
  split.
  { repeat (rewrite load_le_skip by (cbv; lia); cbn [Nat.sub]).
    rewrite load_le_bytes. reflexivity. }
  split.
  { repeat (rewrite load_le_skip by (cbv; lia); cbn [Nat.sub]).
    rewrite load_le_bytes. reflexivity. }
  rewrite !length_app, !length_le_bytes. reflexivity.
Qed.

(** X23. Every packet a publisher thread builds (a size between 40 and 200,
    as drawn, and that many bytes) passes the receiver's [validate_packet];
    its header reads back as the length, count [1 + sequence % 5], unit
    [thread_id + 1] and sequence the thread put in; the receiver classifies
    it DATA, or UNSEQUENCED when the sequence is 0; and the subscriber's
    [memcpy] from offset 4 gets the sequence back. *)
Theorem publisher_packets_are_valid (thread_id sequence packet_size : Z)
    (random : list byte) :
  0 <= thread_id < 4 ->
  is_u32 sequence ->
  40 <= packet_size <= 200 ->
  Z.of_nat (List.length random) = packet_size - 8 ->
  let packet := thread_packet thread_id sequence packet_size random in
  Z.of_nat (List.length packet) = packet_size
  /\ validate_packet packet packet_size = true
  /\ header_of packet
     = mkHeader packet_size (1 + sequence mod 5) (thread_id + 1) sequence
  /\ classify_packet_type (le32toh_safe (hdr_sequence (header_of packet)))
       (hdr_count (header_of packet)) packet_size
     = (if sequence =? 0 then PacketType.UNSEQUENCED else PacketType.DATA)
  /\ load_u32 packet 4 = sequence.
Proof.
  intros Hthread Hseq Hsize Hrandom. cbn zeta. unfold thread_packet.
  destruct (publisher_packet_layout packet_size (wrap8 (1 + sequence mod 5))
              (wrap8 (thread_id + 1)) sequence random) as (Hl & Hc & Hu & Hs & Hlen).
  pose proof (Z.mod_pos_bound sequence 5 ltac:(lia)) as Hmod.
  rewrite wrap16_small in Hl by (unfold is_u16; lia).
  assert (Hcount : wrap8 (1 + sequence mod 5) = 1 + sequence mod 5)
    by (apply wrap8_small; unfold is_u8; lia).
  assert (Hunit : wrap8 (thread_id + 1) = thread_id + 1)
    by (apply wrap8_small; unfold is_u8; lia).
  rewrite Hcount in Hc |- *. rewrite Hunit in Hu |- *.
  rewrite Hcount in Hl, Hu, Hs, Hlen. rewrite Hunit in Hl, Hc, Hs, Hlen.
  rewrite wrap8_small in Hc by (unfold is_u8; lia).
  rewrite wrap8_small in Hu by (unfold is_u8; lia).
  rewrite wrap32_small in Hs by exact Hseq.
  assert (Hheader : header_of (publisher_packet packet_size (1 + sequence mod 5)
                                 (thread_id + 1) sequence random)
                    = mkHeader packet_size (1 + sequence mod 5) (thread_id + 1) sequence).
  { unfold header_of. rewrite Hl, Hc, Hu, Hs. reflexivity. }
  split.
  { rewrite Hlen, length_take. lia. }
  split.
  { unfold validate_packet, sizeof_CboeSequencedUnitHeader, le16toh_safe, Config.MAX_BUF.
    rewrite Hheader. cbn [hdr_length].
    rewrite (proj2 (Z.ltb_ge packet_size 8)) by lia.
    rewrite (proj2 (Z.eqb_neq packet_size 0)) by lia.
    rewrite (proj2 (Z.ltb_ge 2048 packet_size)) by lia.
    rewrite (proj2 (Z.ltb_ge (packet_size + 100) packet_size)) by lia.
    reflexivity. }
  split; [exact Hheader|].
  split; [|exact Hs].
  rewrite Hheader. cbn [hdr_sequence hdr_count]. unfold le32toh_safe, classify_packet_type.
  destruct (Z.eqb_spec sequence 0) as [->|Hnz]; [|reflexivity].
  reflexivity.
Qed.

Lemma publisher_packets_are_valid_witness :
  validate_packet
    (thread_packet 1 10000000 40 (repeat x00 32)) 40 = true.
Proof.
  apply (publisher_packets_are_valid 1 10000000 40 (repeat x00 32)).
  - lia.
  - unfold is_u32. lia.
  - lia.
  - reflexivity.
Defined.

(** ** The subscriber's bookkeeping *)

Lemma load_le_agree (width : nat) (l1 l2 : list byte) :
  forall k : nat,
    (forall i, (k <= i < k + width)%nat -> nth i l1 x00 = nth i l2 x00) ->
    load_le width l1 k = load_le width l2 k.
Proof.
  induction width as [|w IH]; intros k Hagree; [reflexivity|].
  cbn [load_le]. unfold byte_at. rewrite (Hagree k) by lia.
  rewrite (IH (S k)); [reflexivity|]. intros i Hi. apply Hagree. lia.
Qed.

(** After a message of at least 8 bytes was received, the sequence field of
    the buffer is the message's. *)
Lemma zmq_recv_sequence (bytes buffer : list byte) :
  (8 <= List.length bytes)%nat ->
  load_u32 (zmq_recv (Message bytes) buffer).2 4 = load_u32 bytes 4.
Proof.
  intros Hlen. cbn [zmq_recv snd]. unfold load_u32. apply load_le_agree.
  intros i Hi. rewrite app_nth1 by (rewrite length_take; lia).
  rewrite nth_firstn. destruct (Nat.ltb_spec i 2048); [reflexivity|lia].
Qed.

Lemma subscriber_inv_init (thread_id : Z) (buffer : list byte) :
  subscriber_inv (wrap32 (thread_id * 10000000)) 0 (Subscriber_init thread_id buffer).
Proof.
  pose proof (wrap32_is_u32 (thread_id * 10000000)) as Hstart. unfold is_u32 in Hstart.
  split; unfold seen_from;
    cbn [Subscriber_init sub_stats seen_sequences expected_sequence
         ReceiveStats.packets_received ReceiveStats.duplicate_packets
         ReceiveStats.out_of_order_packets ReceiveStats.missing_packets].
  - reflexivity.
  - rewrite size_empty. lia.
  - lia.
  - intros x Hx. apply not_elem_of_empty in Hx. contradiction.
  - unfold UINT32_MAX. lia.
  - rewrite filter_empty_L by apply _. rewrite size_empty. lia.
  - lia.
Qed.

Lemma not_below_refl (self : Subscriber) : not_below self self.
Proof. split; lia. Qed.

Lemma not_below_trans (s1 s2 s3 : Subscriber) :
  not_below s1 s2 -> not_below s2 s3 -> not_below s1 s3.
Proof. intros [H1 H2] [H3 H4]. split; lia. Qed.

(** A new sequence at or after [start] adds one to the sequences seen from
    [start]; any new sequence removes none. *)
Lemma size_filter_insert (start sequence : Z) (seen : gset Z) :
  sequence ∉ seen ->
  (start <= sequence ->
   Z.of_nat (size (filter (fun x => start <= x) ({[sequence]} ∪ seen)))
   = 1 + Z.of_nat (size (filter (fun x => start <= x) seen)))
  /\ Z.of_nat (size (filter (fun x => start <= x) seen))
     <= Z.of_nat (size (filter (fun x => start <= x) ({[sequence]} ∪ seen))).
Proof.
  intros Hnew. split.
  - intros Hle. rewrite filter_union_L by apply _.
    rewrite filter_singleton_True_L by (exact Hle || apply _).
    rewrite size_union, size_singleton; [lia|].
    apply disjoint_singleton_l. intros Hin. apply elem_of_filter in Hin as [_ Hin].
    contradiction.
  - apply Nat2Z.inj_le, subseteq_size. intros x Hx.
    apply elem_of_filter in Hx as [Hp Hx]. apply elem_of_filter.
    split; [exact Hp|apply elem_of_union_r, Hx].
Qed.

(** Processing the size of a message keeps the invariant, counts the
    message, and lowers neither [missing_packets] nor [expected_sequence]. *)
Lemma process_size_message (start k sz errno : Z) (self : Subscriber) :
  subscriber_inv start k self ->
  8 <= sz ->
  0 <= load_u32 (sub_buffer self) 4 < UINT32_MAX ->
  0 <= k -> k + 1 < 2 ^ 64 ->
  subscriber_inv start (k + 1) (process_size sz errno self)
  /\ sub_buffer (process_size sz errno self) = sub_buffer self
  /\ not_below self (process_size sz errno self).
Proof.
  intros [Hrec [Hdup0 Hdup] Hooo Hseen Hexp [Hmiss0 Hmiss] Hstart] Hsz Hseq Hk Hmax.
  unfold process_size, not_below, seen_from in *.
  rewrite (proj2 (Z.ltb_lt 0 sz)) by lia.
  rewrite (proj2 (Z.leb_le 8 sz)) by lia.
  set (sequence := load_u32 (sub_buffer self) 4) in *.
  unfold UINT32_MAX in *.
  assert (Hsize_new : sequence ∉ seen_sequences self ->
                      Z.of_nat (size ({[sequence]} ∪ seen_sequences self))
                      = 1 + Z.of_nat (size (seen_sequences self))).
  { intros Hnew. rewrite size_union by (apply disjoint_singleton_l; exact Hnew).
    rewrite size_singleton. lia. }
  assert (Hadvance : expected_sequence self <= sequence -> sequence ∉ seen_sequences self).
  { intros Hle Hin. apply Hseen in Hin. lia. }
  cbn [sub_buffer sub_stats seen_sequences expected_sequence last_sequence
       ReceiveStats.packets_received ReceiveStats.duplicate_packets
       ReceiveStats.out_of_order_packets ReceiveStats.missing_packets].
  split; [|split; [reflexivity|]].
  - split; unfold seen_from;
      cbn [sub_stats seen_sequences expected_sequence last_sequence
           ReceiveStats.packets_received ReceiveStats.duplicate_packets
           ReceiveStats.out_of_order_packets ReceiveStats.missing_packets];
      unfold UINT32_MAX.
    + rewrite Hrec. apply u64_incr_small; lia.
    + destruct (bool_decide (sequence ∈ seen_sequences self)) eqn:Hin.
      * rewrite u64_incr_small by lia. lia.
      * apply bool_decide_eq_false in Hin. rewrite Hsize_new by exact Hin. lia.
    + destruct (sequence <? last_sequence self); [rewrite u64_incr_small by lia|]; lia.
    + intros x Hx.
      assert (Hx' : x = sequence \/ x ∈ seen_sequences self).
      { destruct (bool_decide (sequence ∈ seen_sequences self)); [right; exact Hx|].
        apply elem_of_union in Hx as [Hx|Hx];
          [left; apply elem_of_singleton in Hx; exact Hx|].
        right. exact Hx. }
      destruct (Z.ltb_spec (expected_sequence self) sequence).
      * rewrite u32_add_small by (unfold is_u32; lia).
        destruct Hx' as [->|Hx']; [lia|]. apply Hseen in Hx'. lia.
      * destruct (Z.eqb_spec sequence (expected_sequence self)) as [Heq|Hne].
        -- rewrite u32_add_small by (unfold is_u32; lia).
           destruct Hx' as [->|Hx']; [lia|]. apply Hseen in Hx'. lia.
        -- destruct Hx' as [->|Hx']; [lia|]. apply Hseen in Hx'. lia.
    + destruct (Z.ltb_spec (expected_sequence self) sequence).
      * rewrite u32_add_small by (unfold is_u32; lia). lia.
      * destruct (Z.eqb_spec sequence (expected_sequence self)) as [Heq|Hne];
          [rewrite u32_add_small by (unfold is_u32; lia)|]; lia.
    + destruct (Z.ltb_spec (expected_sequence self) sequence) as [Hlt|Hge].
      * rewrite u32_add_small by (unfold is_u32; lia).
        rewrite u32_sub_small by (unfold is_u32; lia).
        rewrite wrap64_small by (unfold is_u64; lia).
        rewrite bool_decide_eq_false_2 by (apply Hadvance; lia).
        destruct (size_filter_insert start sequence (seen_sequences self)
                    ltac:(apply Hadvance; lia)) as [Hone _].
        rewrite Hone by lia. lia.
      * destruct (Z.eqb_spec sequence (expected_sequence self)) as [Heq|Hne].
        -- rewrite u32_add_small by (unfold is_u32; lia).
           rewrite bool_decide_eq_false_2 by (apply Hadvance; lia).
           destruct (size_filter_insert start sequence (seen_sequences self)
                       ltac:(apply Hadvance; lia)) as [Hone _].
           rewrite Hone by lia. lia.
        -- destruct (bool_decide (sequence ∈ seen_sequences self)) eqn:Hin; [lia|].
           apply bool_decide_eq_false in Hin.
           destruct (size_filter_insert start sequence (seen_sequences self) Hin)
             as [_ Hmore].
           lia.
    + exact Hstart.
  - destruct (Z.ltb_spec (expected_sequence self) sequence) as [Hlt|Hge].
    + rewrite u32_add_small by (unfold is_u32; lia).
      rewrite u32_sub_small by (unfold is_u32; lia).
      rewrite wrap64_small by (unfold is_u64; lia). lia.
    + destruct (Z.eqb_spec sequence (expected_sequence self)) as [Heq|Hne];
        [rewrite u32_add_small by (unfold is_u32; lia)|]; lia.
Qed.

(** Processing the size of a failed receive changes [receive_errors] at
    most. *)
Lemma process_size_nothing (start k errno : Z) (self : Subscriber) :
  subscriber_inv start k self ->
  subscriber_inv start k (process_size (-1) errno self)
  /\ sub_buffer (process_size (-1) errno self) = sub_buffer self
  /\ not_below self (process_size (-1) errno self).
Proof.
  intros Hinv. unfold process_size. cbn [Z.ltb Z.compare Z.eqb Pos.eqb].
  destruct (negb (errno =? EAGAIN) && negb (errno =? ETIMEDOUT));
    [|split; [exact Hinv|split; [reflexivity|apply not_below_refl]]].
  split; [|split; [reflexivity|split; cbn; lia]].
  destruct Hinv. split; assumption.
Qed.

Lemma load_u32_nonneg (buffer : list byte) (offset : nat) : 0 <= load_u32 buffer offset.
Proof. unfold load_u32. pose proof (load_le_range 4 buffer offset) as H. lia. Qed.

(** One iteration keeps the invariant, counts the messages it found, and
    lowers neither [missing_packets] nor [expected_sequence]. *)
Lemma subscriber_iteration_inv (start k : Z) (a : Arrival) (self : Subscriber) :
  subscriber_inv start k self ->
  arrival_ok a ->
  0 <= k -> k + 2 < 2 ^ 64 ->
  subscriber_inv start (k + (messages_of (ar_sub1 a) + messages_of (ar_sub2 a)))
    (subscriber_iteration a self)
  /\ not_below self (subscriber_iteration a self).
Proof.
  intros Hinv [Hok1 Hok2] Hk Hmax. unfold subscriber_iteration.
  destruct a as [r1 r2 e1 e2]. cbn [ar_sub1 ar_sub2 ar_errno1 ar_errno2] in *.
  assert (Hbuffer : forall buffer,
             subscriber_inv start k
               {| sub_buffer := buffer; seen_sequences := seen_sequences self;
                  last_sequence := last_sequence self;
                  expected_sequence := expected_sequence self;
                  sub_stats := sub_stats self |})
    by (intros buffer; destruct Hinv; split; assumption).
  assert (Hsame : forall buffer,
             not_below self
               {| sub_buffer := buffer; seen_sequences := seen_sequences self;
                  last_sequence := last_sequence self;
                  expected_sequence := expected_sequence self;
                  sub_stats := sub_stats self |})
    by (intros buffer; split; cbn; lia).
  destruct r1 as [m1|], r2 as [m2|]; cbn [message_ok messages_of] in *.
  - destruct Hok1 as [Hlen1 _], Hok2 as [Hlen2 Hseq2].
    pose proof (zmq_recv_sequence m2 (zmq_recv (Message m1) (sub_buffer self)).2 Hlen2)
      as Hload.
    destruct (zmq_recv (Message m1) (sub_buffer self)) as [size1 buffer1] eqn:H1.
    cbn [snd] in Hload.
    destruct (zmq_recv (Message m2) buffer1) as [size2 buffer2] eqn:H2.
    cbn [snd] in Hload.
    injection H1 as <- _. injection H2 as <- _.
    specialize (Hbuffer buffer2). specialize (Hsame buffer2).
    destruct (process_size_message start k (Z.of_nat (List.length m1)) e1 _ Hbuffer)
      as (Hinv1 & Hb1 & Hnb1); cbn [sub_buffer]; try lia.
    { rewrite Hload. pose proof (load_u32_nonneg m2 4). lia. }
    cbn [sub_buffer] in Hb1.
    destruct (process_size_message start (k + 1) (Z.of_nat (List.length m2)) e2 _ Hinv1)
      as (Hinv2 & _ & Hnb2); try lia.
    { rewrite Hb1, Hload. pose proof (load_u32_nonneg m2 4). lia. }
    replace (k + (1 + 1)) with (k + 1 + 1) by lia.
    split; [exact Hinv2|].
    exact (not_below_trans _ _ _ Hsame (not_below_trans _ _ _ Hnb1 Hnb2)).
  - destruct Hok1 as [Hlen1 Hseq1].
    pose proof (zmq_recv_sequence m1 (sub_buffer self) Hlen1) as Hload.
    destruct (zmq_recv (Message m1) (sub_buffer self)) as [size1 buffer1] eqn:H1.
    cbn [snd zmq_recv] in Hload |- *. injection H1 as <- _.
    specialize (Hbuffer buffer1). specialize (Hsame buffer1).
    destruct (process_size_message start k (Z.of_nat (List.length m1)) e1 _ Hbuffer)
      as (Hinv1 & _ & Hnb1); cbn [sub_buffer]; try lia.
    { rewrite Hload. pose proof (load_u32_nonneg m1 4). lia. }
    replace (k + (1 + 0)) with (k + 1) by lia.
    destruct (process_size_nothing start (k + 1) e2 _ Hinv1) as (Hinv2 & _ & Hnb2).
    split; [exact Hinv2|].
    exact (not_below_trans _ _ _ Hsame (not_below_trans _ _ _ Hnb1 Hnb2)).
  - destruct Hok2 as [Hlen2 Hseq2].
    pose proof (zmq_recv_sequence m2 (sub_buffer self) Hlen2) as Hload.
    cbn [zmq_recv snd] in Hload |- *.
    set (buffer2 := take 2048 m2 ++ drop _ (sub_buffer self)) in *.
    destruct (process_size_nothing start k e1 _ (Hbuffer buffer2)) as (Hinv1 & Hb1 & Hnb1).
    cbn [sub_buffer] in Hb1.
    destruct (process_size_message start k (Z.of_nat (List.length m2)) e2 _ Hinv1)
      as (Hinv2 & _ & Hnb2); try lia.
    { rewrite Hb1, Hload. pose proof (load_u32_nonneg m2 4). lia. }
    replace (k + (0 + 1)) with (k + 1) by lia.
    split; [exact Hinv2|].
    exact (not_below_trans _ _ _ (Hsame buffer2) (not_below_trans _ _ _ Hnb1 Hnb2)).
  - cbn [zmq_recv]. replace (k + (0 + 0)) with k by lia.
    destruct (process_size_nothing start k e1 _ (Hbuffer (sub_buffer self)))
      as (Hinv1 & _ & Hnb1).
    destruct (process_size_nothing start k e2 _ Hinv1) as (Hinv2 & _ & Hnb2).
    split; [exact Hinv2|].
    exact (not_below_trans _ _ _ (Hsame (sub_buffer self))
             (not_below_trans _ _ _ Hnb1 Hnb2)).
Qed.

Lemma messages_in_range (arrivals : list Arrival) :
  0 <= messages_in arrivals <= 2 * Z.of_nat (List.length arrivals).
Proof.
  induction arrivals as [|a arrivals IH]; cbn [messages_in foldr List.length]; [lia|].
  fold (messages_in arrivals). rewrite Nat2Z.inj_succ.
  destruct (ar_sub1 a), (ar_sub2 a); cbn [messages_of]; lia.
Qed.

Lemma subscriber_run_inv (start : Z) (arrivals : list Arrival) :
  forall (k : Z) (self : Subscriber),
    subscriber_inv start k self ->
    Forall arrival_ok arrivals ->
    0 <= k -> k + 2 * Z.of_nat (List.length arrivals) < 2 ^ 64 ->
    subscriber_inv start (k + messages_in arrivals) (subscriber_run arrivals self)
    /\ not_below self (subscriber_run arrivals self).
Proof.
  induction arrivals as [|a arrivals IH]; intros k self Hinv Hok Hk Hmax.
  - cbn. replace (k + 0) with k by lia. split; [exact Hinv|apply not_below_refl].
  - cbn [subscriber_run foldl messages_in foldr]. fold (messages_in arrivals).
    fold (subscriber_run arrivals (subscriber_iteration a self)).
    cbn [List.length] in Hmax. rewrite Nat2Z.inj_succ in Hmax.
    inversion Hok as [|? ? Hhead Htail]; subst.
    replace (k + (messages_of (ar_sub1 a) + messages_of (ar_sub2 a) + messages_in arrivals))
      with (k + (messages_of (ar_sub1 a) + messages_of (ar_sub2 a)) + messages_in arrivals)
      by lia.
    assert (0 <= messages_of (ar_sub1 a) + messages_of (ar_sub2 a) <= 2)
      by (destruct (ar_sub1 a), (ar_sub2 a); cbn [messages_of]; lia).
    destruct (subscriber_iteration_inv start k a self Hinv Hhead ltac:(lia) ltac:(lia))
      as [Hinv1 Hnb1].
    destruct (IH _ _ Hinv1 Htail ltac:(lia) ltac:(lia)) as [Hinv2 Hnb2].
    split; [exact Hinv2|exact (not_below_trans _ _ _ Hnb1 Hnb2)].
Qed.

(** X24. The bookkeeping of a subscriber thread, over any run in which every
    message found has the 8 header bytes and a sequence below [UINT32_MAX]
    (fewer than 2^63 iterations): [packets_received] is the number of
    messages found; every message is either a duplicate or adds its sequence
    to [seen_sequences], so [duplicate_packets] plus the number of sequences
    seen is [packets_received]; every sequence seen is below
    [expected_sequence], which never falls below its start
    [thread_id * 10000000]; [missing_packets] lies between the number of
    sequences from the start up to [expected_sequence] that were never seen
    (the length of that span less the sequences seen at or after the start)
    and the length of that span; and neither [missing_packets] nor
    [expected_sequence] is ever lowered: after any number of iterations they
    are at most what they are at the end of the run, so a late arrival does
    not take back what was counted as missing. *)
Theorem subscriber_bookkeeping (thread_id : Z) (buffer : list byte)
    (arrivals : list Arrival) :
  Forall arrival_ok arrivals ->
  2 * Z.of_nat (List.length arrivals) < 2 ^ 64 ->
  let start := wrap32 (thread_id * 10000000) in
  let self := subscriber_run arrivals (Subscriber_init thread_id buffer) in
  let stats := sub_stats self in
  ReceiveStats.packets_received stats = messages_in arrivals
  /\ ReceiveStats.duplicate_packets stats + Z.of_nat (size (seen_sequences self))
     = ReceiveStats.packets_received stats
  /\ 0 <= ReceiveStats.out_of_order_packets stats <= ReceiveStats.packets_received stats
  /\ (forall x, x ∈ seen_sequences self -> x < expected_sequence self)
  /\ start <= expected_sequence self
  /\ expected_sequence self - start - Z.of_nat (size (seen_from start self))
     <= ReceiveStats.missing_packets stats
     <= expected_sequence self - start
  /\ (forall iterations : nat,
        let earlier :=
          subscriber_run (take iterations arrivals) (Subscriber_init thread_id buffer) in
        ReceiveStats.missing_packets (sub_stats earlier)
        <= ReceiveStats.missing_packets stats
        /\ expected_sequence earlier <= expected_sequence self).
Proof.
  intros Hok Hmax. cbn zeta.
  destruct (subscriber_run_inv (wrap32 (thread_id * 10000000)) arrivals 0
              (Subscriber_init thread_id buffer) (subscriber_inv_init thread_id buffer)
              Hok ltac:(lia) ltac:(lia))
    as [[Hrec [_ Hdup] Hooo Hseen Hexp [_ Hmiss] _] _].
  rewrite Z.add_0_l in *. rewrite Hrec.
  split; [reflexivity|]. split; [exact Hdup|]. split; [exact Hooo|].
  split; [intros x Hx; apply Hseen in Hx; lia|]. split; [lia|]. split; [exact Hmiss|].
  intros iterations.
  rewrite <- (take_drop iterations arrivals) at 2 4.
  unfold subscriber_run at 2 4. rewrite !foldl_app.
  fold (subscriber_run (take iterations arrivals) (Subscriber_init thread_id buffer)).
  match goal with
  | |- context [foldl ?f ?s (drop iterations arrivals)] =>
      change (foldl f s (drop iterations arrivals))
        with (subscriber_run (drop iterations arrivals) s)
  end.
  pose proof (messages_in_range (take iterations arrivals)) as Hrange.
  assert (Hlen : (List.length (take iterations arrivals)
                  + List.length (drop iterations arrivals))%nat = List.length arrivals)
    by (rewrite <- length_app, take_drop; reflexivity).
  destruct (subscriber_run_inv (wrap32 (thread_id * 10000000)) (take iterations arrivals) 0
              (Subscriber_init thread_id buffer) (subscriber_inv_init thread_id buffer)
              (Forall_take _ _ _ Hok) ltac:(lia) ltac:(lia))
    as [Hmid _].
  destruct (subscriber_run_inv (wrap32 (thread_id * 10000000)) (drop iterations arrivals)
              _ _ Hmid (Forall_drop _ _ _ Hok) ltac:(lia) ltac:(lia))
    as [_ Hnb].
  exact Hnb.
Qed.

Lemma subscriber_bookkeeping_witness :
  ReceiveStats.missing_packets
    (sub_stats
       (subscriber_run
          [ {| ar_sub1 := Message (thread_packet 1 5 40 (repeat x00 32));
               ar_sub2 := Nothing; ar_errno1 := 0; ar_errno2 := 11 |};
            {| ar_sub1 := Message (thread_packet 1 10000001 40 (repeat x00 32));
               ar_sub2 := Nothing; ar_errno1 := 0; ar_errno2 := 11 |} ]
          (Subscriber_init 1 [])))
  <= ReceiveStats.missing_packets
       (sub_stats
          (subscriber_run
             [ {| ar_sub1 := Message (thread_packet 1 5 40 (repeat x00 32));
                  ar_sub2 := Nothing; ar_errno1 := 0; ar_errno2 := 11 |};
               {| ar_sub1 := Message (thread_packet 1 10000001 40 (repeat x00 32));
                  ar_sub2 := Nothing; ar_errno1 := 0; ar_errno2 := 11 |};
               {| ar_sub1 := Message (thread_packet 1 10000000 40 (repeat x00 32));
                  ar_sub2 := Nothing; ar_errno1 := 0; ar_errno2 := 11 |} ]
             (Subscriber_init 1 []))).
Proof.
  destruct (subscriber_bookkeeping 1 []
              [ {| ar_sub1 := Message (thread_packet 1 5 40 (repeat x00 32));
                   ar_sub2 := Nothing; ar_errno1 := 0; ar_errno2 := 11 |};
                {| ar_sub1 := Message (thread_packet 1 10000001 40 (repeat x00 32));
                   ar_sub2 := Nothing; ar_errno1 := 0; ar_errno2 := 11 |};
                {| ar_sub1 := Message (thread_packet 1 10000000 40 (repeat x00 32));
                   ar_sub2 := Nothing; ar_errno1 := 0; ar_errno2 := 11 |} ])
    as (_ & _ & _ & _ & _ & _ & Hearlier).
  - repeat constructor.
  - cbn. lia.
  - exact (proj1 (Hearlier 2%nat)).
Defined.

(** An iteration in which both sockets deliver. *)
Lemma both_sockets_aux (m1 m2 : list byte) (e1 e2 : Z) (self : Subscriber) :
  (8 <= List.length m1)%nat ->
  (8 <= List.length m2)%nat ->
  load_u32 m2 4 < UINT32_MAX ->
  is_u32 (expected_sequence self) ->
  let self' :=
    subscriber_iteration
      {| ar_sub1 := Message m1; ar_sub2 := Message m2; ar_errno1 := e1; ar_errno2 := e2 |}
      self in
  let sequence := load_u32 m2 4 in
  let stats := sub_stats self in
  (forall x, x ∈ seen_sequences self' <-> x = sequence \/ x ∈ seen_sequences self)
  /\ last_sequence self' = sequence
  /\ expected_sequence self' = Z.max (expected_sequence self) (sequence + 1)
  /\ ReceiveStats.packets_received (sub_stats self')
     = u64_incr (u64_incr (ReceiveStats.packets_received stats))
  /\ ReceiveStats.duplicate_packets (sub_stats self')
     = u64_incr (if bool_decide (sequence ∈ seen_sequences self)
                 then u64_incr (ReceiveStats.duplicate_packets stats)
                 else ReceiveStats.duplicate_packets stats)
  /\ ReceiveStats.out_of_order_packets (sub_stats self')
     = (if sequence <? last_sequence self
        then u64_incr (ReceiveStats.out_of_order_packets stats)
        else ReceiveStats.out_of_order_packets stats)
  /\ ReceiveStats.missing_packets (sub_stats self')
     = (if expected_sequence self <? sequence
        then wrap64 (ReceiveStats.missing_packets stats
                     + (sequence - expected_sequence self))
        else ReceiveStats.missing_packets stats).
Proof.
  intros Hlen1 Hlen2 Htop Hexp. unfold is_u32 in Hexp. cbn zeta.
  unfold subscriber_iteration. cbn [ar_sub1 ar_sub2 ar_errno1 ar_errno2].
  pose proof (zmq_recv_sequence m2 (zmq_recv (Message m1) (sub_buffer self)).2 Hlen2)
    as Hload.
  destruct (zmq_recv (Message m1) (sub_buffer self)) as [size1 buffer1] eqn:H1.
  cbn [snd] in Hload.
  destruct (zmq_recv (Message m2) buffer1) as [size2 buffer2] eqn:H2.
  cbn [snd] in Hload. injection H1 as <- _. injection H2 as <- _.
  pose proof (load_u32_nonneg m2 4) as Hpos.
  unfold process_size.
  cbn [sub_buffer sub_stats seen_sequences last_sequence expected_sequence
       ReceiveStats.packets_received ReceiveStats.receive_errors
       ReceiveStats.duplicate_packets ReceiveStats.out_of_order_packets
       ReceiveStats.missing_packets].
  rewrite !(proj2 (Z.ltb_lt 0 (Z.of_nat (List.length m1)))) by lia.
  rewrite !(proj2 (Z.leb_le 8 (Z.of_nat (List.length m1)))) by lia.
  rewrite !(proj2 (Z.ltb_lt 0 (Z.of_nat (List.length m2)))) by lia.
  rewrite !(proj2 (Z.leb_le 8 (Z.of_nat (List.length m2)))) by lia.
  cbn [sub_buffer sub_stats seen_sequences last_sequence expected_sequence
       ReceiveStats.packets_received ReceiveStats.receive_errors
       ReceiveStats.duplicate_packets ReceiveStats.out_of_order_packets
       ReceiveStats.missing_packets].
  rewrite !Hload. set (sequence := load_u32 m2 4) in *. unfold UINT32_MAX in Htop.
  assert (Hseen1 : sequence ∈ (if bool_decide (sequence ∈ seen_sequences self)
                               then seen_sequences self
                               else {[sequence]} ∪ seen_sequences self)).
  { destruct (bool_decide (sequence ∈ seen_sequences self)) eqn:Hin.
    - apply bool_decide_eq_true in Hin. exact Hin.
    - apply elem_of_union_l, elem_of_singleton. reflexivity. }
  rewrite (bool_decide_eq_true_2 _ Hseen1).
  rewrite (Z.ltb_irrefl sequence).
  assert (Hexp1 : (if expected_sequence self <? sequence then u32_add sequence 1
                   else if sequence =? expected_sequence self
                        then u32_add (expected_sequence self) 1
                        else expected_sequence self)
                  = Z.max (expected_sequence self) (sequence + 1)).
  { destruct (Z.ltb_spec (expected_sequence self) sequence).
    - rewrite u32_add_small by (unfold is_u32; lia). lia.
    - destruct (Z.eqb_spec sequence (expected_sequence self)) as [Heq|Hne].
      + rewrite <- Heq. rewrite u32_add_small by (unfold is_u32; lia). lia.
      + lia. }
  rewrite !Hexp1.
  rewrite (proj2 (Z.ltb_ge (Z.max (expected_sequence self) (sequence + 1)) sequence)) by lia.
  rewrite (proj2 (Z.eqb_neq sequence (Z.max (expected_sequence self) (sequence + 1)))) by lia.
  split.
  { intros x. destruct (bool_decide (sequence ∈ seen_sequences self)) eqn:Hin.
    - apply bool_decide_eq_true in Hin. split; [tauto|]. intros [->|Hx]; assumption.
    - rewrite elem_of_union, elem_of_singleton. tauto. }
  split; [reflexivity|]. split; [reflexivity|]. split; [reflexivity|].
  split; [reflexivity|]. split; [reflexivity|].
  destruct (Z.ltb_spec (expected_sequence self) sequence); [|reflexivity].
  rewrite u32_sub_small by (unfold is_u32; lia). reflexivity.
Qed.

(** X25. When both sockets deliver a message of at least 8 bytes in the same
    iteration, both are counted as received, but only the second message is
    examined, twice: the first message's sequence is overwritten in the
    shared buffer before it is read. Only the second sequence (below
    [UINT32_MAX]) joins [seen_sequences] and becomes [last_sequence], and the
    iteration adds at least one to [duplicate_packets], two if that sequence
    had been seen before. *)
Theorem both_sockets_in_one_iteration (m1 m2 : list byte) (e1 e2 : Z) (self : Subscriber) :
  (8 <= List.length m1)%nat ->
  (8 <= List.length m2)%nat ->
  load_u32 m2 4 < UINT32_MAX ->
  is_u32 (expected_sequence self) ->
  let self' :=
    subscriber_iteration
      {| ar_sub1 := Message m1; ar_sub2 := Message m2; ar_errno1 := e1; ar_errno2 := e2 |}
      self in
  let sequence := load_u32 m2 4 in
  let stats := sub_stats self in
  (forall x, x ∈ seen_sequences self' <-> x = sequence \/ x ∈ seen_sequences self)
  /\ last_sequence self' = sequence
  /\ expected_sequence self' = Z.max (expected_sequence self) (sequence + 1)
  /\ ReceiveStats.packets_received (sub_stats self')
     = u64_incr (u64_incr (ReceiveStats.packets_received stats))
  /\ ReceiveStats.duplicate_packets (sub_stats self')
     = u64_incr (if bool_decide (sequence ∈ seen_sequences self)
                 then u64_incr (ReceiveStats.duplicate_packets stats)
                 else ReceiveStats.duplicate_packets stats)
  /\ ReceiveStats.out_of_order_packets (sub_stats self')
     = (if sequence <? last_sequence self
        then u64_incr (ReceiveStats.out_of_order_packets stats)
        else ReceiveStats.out_of_order_packets stats)
  /\ ReceiveStats.missing_packets (sub_stats self')
     = (if expected_sequence self <? sequence
        then wrap64 (ReceiveStats.missing_packets stats
                     + (sequence - expected_sequence self))
        else ReceiveStats.missing_packets stats).
Proof. apply both_sockets_aux. Qed.

Lemma both_sockets_in_one_iteration_witness :
  last_sequence
    (subscriber_iteration
       {| ar_sub1 := Message (thread_packet 0 5 40 (repeat x00 32));
          ar_sub2 := Message (thread_packet 0 9 40 (repeat x00 32));
          ar_errno1 := 0; ar_errno2 := 0 |}
       (Subscriber_init 0 []))
  = 9.
Proof.
  apply (both_sockets_in_one_iteration (thread_packet 0 5 40 (repeat x00 32))
           (thread_packet 0 9 40 (repeat x00 32)) 0 0 (Subscriber_init 0 [])).
  - cbn. lia.
  - cbn. lia.
  - vm_compute. reflexivity.
  - vm_compute. split; [discriminate|reflexivity].
Defined.

(** An iteration in which only the first socket delivers. *)
Lemma first_socket_aux (m : list byte) (e1 e2 : Z) (self : Subscriber) :
  (8 <= List.length m)%nat ->
  load_u32 m 4 < UINT32_MAX ->
  is_u32 (expected_sequence self) ->
  let self' :=
    subscriber_iteration
      {| ar_sub1 := Message m; ar_sub2 := Nothing; ar_errno1 := e1; ar_errno2 := e2 |}
      self in
  let sequence := load_u32 m 4 in
  let stats := sub_stats self in
  (forall x, x ∈ seen_sequences self' <-> x = sequence \/ x ∈ seen_sequences self)
  /\ last_sequence self' = sequence
  /\ expected_sequence self' = Z.max (expected_sequence self) (sequence + 1)
  /\ ReceiveStats.packets_received (sub_stats self')
     = u64_incr (ReceiveStats.packets_received stats)
  /\ ReceiveStats.duplicate_packets (sub_stats self')
     = (if bool_decide (sequence ∈ seen_sequences self)
        then u64_incr (ReceiveStats.duplicate_packets stats)
        else ReceiveStats.duplicate_packets stats)
  /\ ReceiveStats.out_of_order_packets (sub_stats self')
     = (if sequence <? last_sequence self
        then u64_incr (ReceiveStats.out_of_order_packets stats)
        else ReceiveStats.out_of_order_packets stats)
  /\ ReceiveStats.missing_packets (sub_stats self')
     = (if expected_sequence self <? sequence
        then wrap64 (ReceiveStats.missing_packets stats
                     + (sequence - expected_sequence self))
        else ReceiveStats.missing_packets stats).
Proof.
  intros Hlen Htop Hexp. unfold is_u32 in Hexp. cbn zeta.
  unfold subscriber_iteration. cbn [ar_sub1 ar_sub2 ar_errno1 ar_errno2].
  pose proof (zmq_recv_sequence m (sub_buffer self) Hlen) as Hload.
  destruct (zmq_recv (Message m) (sub_buffer self)) as [size1 buffer1] eqn:H1.
  cbn [snd zmq_recv] in Hload |- *. injection H1 as <- _.
  pose proof (load_u32_nonneg m 4) as Hpos.
  set (self1 := process_size (Z.of_nat (List.length m)) e1 _).
  assert (Hnothing : forall field : Subscriber -> Z,
             (forall s1 s2, seen_sequences s1 = seen_sequences s2 ->
                            last_sequence s1 = last_sequence s2 ->
                            expected_sequence s1 = expected_sequence s2 ->
                            ReceiveStats.packets_received (sub_stats s1)
                            = ReceiveStats.packets_received (sub_stats s2) ->
                            ReceiveStats.duplicate_packets (sub_stats s1)
                            = ReceiveStats.duplicate_packets (sub_stats s2) ->
                            ReceiveStats.out_of_order_packets (sub_stats s1)
                            = ReceiveStats.out_of_order_packets (sub_stats s2) ->
                            ReceiveStats.missing_packets (sub_stats s1)
                            = ReceiveStats.missing_packets (sub_stats s2) ->
                            field s1 = field s2) ->
             field (process_size (-1) e2 self1) = field self1).
  { intros field Hfield. unfold process_size at 1. cbn [Z.ltb Z.compare Z.eqb Pos.eqb].
    destruct (negb (e2 =? EAGAIN) && negb (e2 =? ETIMEDOUT)); [|reflexivity].
    apply Hfield; reflexivity. }
  assert (Hseen : seen_sequences (process_size (-1) e2 self1) = seen_sequences self1).
  { unfold process_size at 1. cbn [Z.ltb Z.compare Z.eqb Pos.eqb].
    destruct (negb (e2 =? EAGAIN) && negb (e2 =? ETIMEDOUT)); reflexivity. }
  rewrite Hseen.
  rewrite (Hnothing last_sequence) by (intros; assumption).
  rewrite (Hnothing expected_sequence) by (intros; assumption).
  rewrite (Hnothing (fun s => ReceiveStats.packets_received (sub_stats s)))
    by (intros; assumption).
  rewrite (Hnothing (fun s => ReceiveStats.duplicate_packets (sub_stats s)))
    by (intros; assumption).
  rewrite (Hnothing (fun s => ReceiveStats.out_of_order_packets (sub_stats s)))
    by (intros; assumption).
  rewrite (Hnothing (fun s => ReceiveStats.missing_packets (sub_stats s)))
    by (intros; assumption).
  clear Hnothing Hseen. subst self1. unfold process_size.
  cbn [sub_buffer sub_stats seen_sequences last_sequence expected_sequence
       ReceiveStats.packets_received ReceiveStats.receive_errors
       ReceiveStats.duplicate_packets ReceiveStats.out_of_order_packets
       ReceiveStats.missing_packets].
  rewrite !(proj2 (Z.ltb_lt 0 (Z.of_nat (List.length m)))) by lia.
  rewrite !(proj2 (Z.leb_le 8 (Z.of_nat (List.length m)))) by lia.
  cbn [sub_buffer sub_stats seen_sequences last_sequence expected_sequence
       ReceiveStats.packets_received ReceiveStats.receive_errors
       ReceiveStats.duplicate_packets ReceiveStats.out_of_order_packets
       ReceiveStats.missing_packets].
  rewrite !Hload. set (sequence := load_u32 m 4) in *. unfold UINT32_MAX in Htop.
  split.
  { intros x. destruct (bool_decide (sequence ∈ seen_sequences self)) eqn:Hin.
    - apply bool_decide_eq_true in Hin. split; [tauto|]. intros [->|Hx]; assumption.
    - rewrite elem_of_union, elem_of_singleton. tauto. }
  split; [reflexivity|].
  split.
  { destruct (Z.ltb_spec (expected_sequence self) sequence).
    - rewrite u32_add_small by (unfold is_u32; lia). lia.
    - destruct (Z.eqb_spec sequence (expected_sequence self)) as [Heq|Hne].
      + rewrite <- Heq. rewrite u32_add_small by (unfold is_u32; lia). lia.
      + lia. }
  split; [reflexivity|]. split; [reflexivity|]. split; [reflexivity|].
  destruct (Z.ltb_spec (expected_sequence self) sequence); [|reflexivity].
  rewrite u32_sub_small by (unfold is_u32; lia). reflexivity.
Qed.

(** ** A lossless run from a publisher thread to its subscriber thread *)

Lemma publisher_run_sent (thread_id : Z) (attempts : list Attempt) :
  forall self : Publisher,
    Forall sent attempts ->
    0 <= pub_sequence self ->
    pub_sequence self + Z.of_nat (List.length attempts) <= UINT32_MAX ->
    0 <= ThreadStats.packets_sent (pub_stats self) ->
    ThreadStats.packets_sent (pub_stats self) + Z.of_nat (List.length attempts) < 2 ^ 64 ->
    carry (pub_sequence self) (publisher_run thread_id attempts self).1
    /\ List.length (publisher_run thread_id attempts self).1 = List.length attempts
    /\ pub_sequence (publisher_run thread_id attempts self).2
       = pub_sequence self + Z.of_nat (List.length attempts)
    /\ ThreadStats.packets_sent (pub_stats (publisher_run thread_id attempts self).2)
       = ThreadStats.packets_sent (pub_stats self) + Z.of_nat (List.length attempts)
    /\ ThreadStats.send_errors (pub_stats (publisher_run thread_id attempts self).2)
       = ThreadStats.send_errors (pub_stats self)
    /\ ThreadStats.dropped_packets (pub_stats (publisher_run thread_id attempts self).2)
       = ThreadStats.dropped_packets (pub_stats self).
Proof.
  induction attempts as [|a attempts IH]; intros self Hsent Hseq Htop Hcount Hmax.
  - cbn. repeat split; lia.
  - inversion Hsent as [|? ? [Hr1 Hr2] Htail]; subst.
    cbn [List.length] in Htop, Hmax. rewrite Nat2Z.inj_succ in Htop, Hmax.
    unfold UINT32_MAX in *.
    cbn [publisher_run]. unfold publisher_iteration.
    rewrite (proj2 (Z.ltb_lt 0 (at_result1 a)) Hr1), (proj2 (Z.ltb_lt 0 (at_result2 a)) Hr2).
    cbn [andb].
    match goal with
    | |- context [publisher_run thread_id attempts ?s] => set (self1 := s)
    end.
    specialize (IH self1 Htail).
    destruct (publisher_run thread_id attempts self1) as [packets self2].
    cbn [fst snd] in IH |- *.
    subst self1. cbn [pub_sequence pub_stats ThreadStats.packets_sent
                      ThreadStats.send_errors ThreadStats.dropped_packets] in IH.
    rewrite u32_add_small in IH by (unfold is_u32; lia).
    rewrite u64_incr_small in IH by lia.
    destruct IH as (Hcarry & Hlen & Hs & Hp & He & Hd); try lia.
    cbn [carry List.length]. rewrite Nat2Z.inj_succ.
    destruct (publisher_packet_layout (at_packet_size a)
                (wrap8 (1 + pub_sequence self mod 5)) (wrap8 (thread_id + 1))
                (pub_sequence self) (at_random a)) as (_ & _ & _ & Hload & Hlength).
    fold (thread_packet thread_id (pub_sequence self) (at_packet_size a) (at_random a))
      in Hload, Hlength.
    rewrite wrap32_small in Hload by (unfold is_u32; lia).
    repeat split; try lia; assumption.
Qed.

(** One iteration that delivers the next sequence. *)
Lemma subscriber_iteration_lossless (start j c : Z) (packet : list byte) (a : Arrival)
    (self : Subscriber) :
  lossless_inv start j c self ->
  delivered packet a ->
  (8 <= List.length packet)%nat ->
  load_u32 packet 4 = start + j ->
  0 <= start -> 0 <= j <= c -> start + j < UINT32_MAX -> c + 2 < 2 ^ 64 ->
  lossless_inv start (j + 1) (c + (messages_of (ar_sub1 a) + messages_of (ar_sub2 a)))
    (subscriber_iteration a self).
Proof.
  intros [Hseen Hexp Hlast Hrec Hdup Hooo Hmiss] [Hsub1 Hsub2] Hlen Hload Hstart Hj Htop Hc.
  destruct a as [r1 r2 e1 e2]. cbn [ar_sub1 ar_sub2] in *. subst r1.
  assert (Hnew : bool_decide (start + j ∈ seen_sequences self) = false).
  { apply bool_decide_eq_false. rewrite Hseen. lia. }
  destruct Hsub2 as [->| ->]; cbn [messages_of].
  - destruct (both_sockets_aux packet packet e1 e2 self Hlen Hlen)
      as (Hseen' & Hlast' & Hexp' & Hrec' & Hdup' & Hooo' & Hmiss');
      [lia|unfold is_u32, UINT32_MAX in *; lia|].
    rewrite Hload in *. rewrite Hnew in Hdup'.
    rewrite (proj2 (Z.ltb_ge (start + j) (last_sequence self))) in Hooo' by lia.
    rewrite (proj2 (Z.ltb_ge (expected_sequence self) (start + j))) in Hmiss' by lia.
    split.
    + intros x. rewrite Hseen', Hseen. lia.
    + rewrite Hexp'. lia.
    + rewrite Hlast'. lia.
    + rewrite Hrec', Hrec. rewrite (u64_incr_small c) by lia.
      rewrite u64_incr_small by lia. lia.
    + rewrite Hdup', Hdup. rewrite u64_incr_small by lia. lia.
    + rewrite Hooo'. exact Hooo.
    + rewrite Hmiss'. exact Hmiss.
  - destruct (first_socket_aux packet e1 e2 self Hlen)
      as (Hseen' & Hlast' & Hexp' & Hrec' & Hdup' & Hooo' & Hmiss');
      [lia|unfold is_u32, UINT32_MAX in *; lia|].
    rewrite Hload in *. rewrite Hnew in Hdup'.
    rewrite (proj2 (Z.ltb_ge (start + j) (last_sequence self))) in Hooo' by lia.
    rewrite (proj2 (Z.ltb_ge (expected_sequence self) (start + j))) in Hmiss' by lia.
    split.
    + intros x. rewrite Hseen', Hseen. lia.
    + rewrite Hexp'. lia.
    + rewrite Hlast'. lia.
    + rewrite Hrec', Hrec. rewrite u64_incr_small by lia. lia.
    + rewrite Hdup', Hdup. lia.
    + rewrite Hooo'. exact Hooo.
    + rewrite Hmiss'. exact Hmiss.
Qed.

Lemma subscriber_run_lossless (start : Z) (packets : list (list byte)) :
  forall (arrivals : list Arrival) (j c : Z) (self : Subscriber),
    Forall2 delivered packets arrivals ->
    carry (start + j) packets ->
    lossless_inv start j c self ->
    0 <= start -> 0 <= j <= c ->
    start + j + Z.of_nat (List.length packets) <= UINT32_MAX ->
    c + 2 * Z.of_nat (List.length packets) < 2 ^ 64 ->
    lossless_inv start (j + Z.of_nat (List.length packets)) (c + messages_in arrivals)
      (subscriber_run arrivals self).
Proof.
  induction packets as [|packet packets IH];
    intros arrivals j c self Hdel Hcarry Hinv Hstart Hj Htop Hc.
  - inversion Hdel; subst. cbn. rewrite !Z.add_0_r. exact Hinv.
  - inversion Hdel as [|? a ? arrivals' Hhead Htail]; subst.
    destruct Hcarry as (Hlen & Hload & Hcarry).
    cbn [List.length] in Htop, Hc |- *. rewrite Nat2Z.inj_succ in Htop, Hc |- *.
    cbn [subscriber_run foldl messages_in foldr]. fold (messages_in arrivals').
    fold (subscriber_run arrivals' (subscriber_iteration a self)).
    assert (Hm : 1 <= messages_of (ar_sub1 a) + messages_of (ar_sub2 a) <= 2).
    { destruct Hhead as [-> [-> | ->]]; cbn [messages_of]; lia. }
    replace (j + Z.succ (Z.of_nat (List.length packets)))
      with (j + 1 + Z.of_nat (List.length packets)) by lia.
    replace (c + (messages_of (ar_sub1 a) + messages_of (ar_sub2 a) + messages_in arrivals'))
      with (c + (messages_of (ar_sub1 a) + messages_of (ar_sub2 a)) + messages_in arrivals')
      by lia.
    apply IH; try lia; [exact Htail| |].
    + replace (start + (j + 1)) with (start + j + 1) by lia. exact Hcarry.
    + apply (subscriber_iteration_lossless start j c packet); try assumption; lia.
Qed.

Lemma lossless_inv_init (thread_id : Z) (buffer : list byte) :
  lossless_inv (wrap32 (thread_id * 10000000)) 0 0 (Subscriber_init thread_id buffer).
Proof.
  pose proof (wrap32_is_u32 (thread_id * 10000000)) as Hstart. unfold is_u32 in Hstart.
  split; cbn; try lia.
  intros x. split; [intros Hx; apply not_elem_of_empty in Hx; contradiction|lia].
Qed.

(** X26. A lossless run: when every send of a publisher thread succeeds and
    each packet reaches the subscriber thread of the same id in an iteration
    of its own, on the first socket and possibly also on the second, the
    publisher's [sequence] and the subscriber's [expected_sequence] both end
    at the start [thread_id * 10000000] plus the number of packets; the
    subscriber has seen exactly the sequences sent, reports nothing missing
    and nothing out of order, and counts as duplicate every packet that
    arrived on both sockets. *)
Theorem lossless_run (thread_id : Z) (buffer : list byte) (attempts : list Attempt)
    (arrivals : list Arrival) :
  let start := wrap32 (thread_id * 10000000) in
  let n := Z.of_nat (List.length attempts) in
  let published := publisher_run thread_id attempts (Publisher_init thread_id) in
  let subscriber := subscriber_run arrivals (Subscriber_init thread_id buffer) in
  Forall sent attempts ->
  start + n <= UINT32_MAX ->
  Forall2 delivered published.1 arrivals ->
  pub_sequence published.2 = start + n
  /\ ThreadStats.packets_sent (pub_stats published.2) = n
  /\ ThreadStats.send_errors (pub_stats published.2) = 0
  /\ ThreadStats.dropped_packets (pub_stats published.2) = 0
  /\ expected_sequence subscriber = start + n
  /\ (forall x, x ∈ seen_sequences subscriber <-> start <= x < start + n)
  /\ ReceiveStats.packets_received (sub_stats subscriber) = messages_in arrivals
  /\ ReceiveStats.duplicate_packets (sub_stats subscriber) = messages_in arrivals - n
  /\ ReceiveStats.out_of_order_packets (sub_stats subscriber) = 0
  /\ ReceiveStats.missing_packets (sub_stats subscriber) = 0.
Proof.
  cbn zeta. intros Hsent Htop Hdel.
  pose proof (wrap32_is_u32 (thread_id * 10000000)) as Hstart. unfold is_u32 in Hstart.
  assert (Hn : Z.of_nat (List.length attempts) < 2 ^ 32) by (unfold UINT32_MAX in Htop; lia).
  destruct (publisher_run_sent thread_id attempts (Publisher_init thread_id) Hsent)
    as (Hcarry & Hlen & Hseq & Hcount & Herr & Hdrop);
    cbn [Publisher_init pub_sequence pub_stats ThreadStats.packets_sent]; try lia.
  cbn [Publisher_init pub_sequence pub_stats ThreadStats.packets_sent
       ThreadStats.send_errors ThreadStats.dropped_packets] in Hcarry, Hseq, Hcount, Herr, Hdrop.
  destruct (subscriber_run_lossless (wrap32 (thread_id * 10000000))
              (publisher_run thread_id attempts (Publisher_init thread_id)).1
              arrivals 0 0 (Subscriber_init thread_id buffer) Hdel)
    as [Hseen Hexp _ Hrec Hdup Hooo Hmiss]; rewrite ?Hlen; try lia.
  { rewrite Z.add_0_r. exact Hcarry. }
  { apply lossless_inv_init. }
  rewrite Hlen, Z.add_0_l in *.
  repeat split; try assumption; try lia; apply Hseen; assumption.
Qed.

Lemma lossless_run_witness :
  ReceiveStats.duplicate_packets
    (sub_stats
       (subscriber_run
          [ {| ar_sub1 := Message (thread_packet 1 10000000 40 (repeat x00 32));
               ar_sub2 := Message (thread_packet 1 10000000 40 (repeat x00 32));
               ar_errno1 := 0; ar_errno2 := 0 |} ]
          (Subscriber_init 1 [])))
  = 1.
Proof.
  apply (lossless_run 1 []
           [ {| at_packet_size := 40; at_random := repeat x00 32; at_result1 := 40;
                at_result2 := 40; at_errno := 0 |} ]
           [ {| ar_sub1 := Message (thread_packet 1 10000000 40 (repeat x00 32));
                ar_sub2 := Message (thread_packet 1 10000000 40 (repeat x00 32));
                ar_errno1 := 0; ar_errno2 := 0 |} ]).
  - repeat constructor.
  - vm_compute. discriminate.
  - repeat constructor.
Defined.

(** ** The publisher's bookkeeping *)

Lemma wrap32_add_l (a b : Z) : wrap32 (wrap32 a + b) = wrap32 (a + b).
Proof. unfold wrap32. apply Zplus_mod_idemp_l. Qed.

Lemma successes_cons (a : Attempt) (attempts : list Attempt) :
  successes (a :: attempts) = (if both_sent a then 1 else 0) + successes attempts.
Proof.
  unfold successes. cbn [List.filter]. destruct (both_sent a); cbn [List.length]; lia.
Qed.

Lemma successes_range (attempts : list Attempt) :
  0 <= successes attempts <= Z.of_nat (List.length attempts).
Proof. unfold successes. pose proof (filter_length_le both_sent attempts). lia. Qed.

Lemma publisher_run_inv (thread_id : Z) (attempts : list Attempt) :
  forall self : Publisher,
    let stats := pub_stats self in
    let published := publisher_run thread_id attempts self in
    let stats' := pub_stats published.2 in
    let n := Z.of_nat (List.length attempts) in
    is_u32 (pub_sequence self) ->
    0 <= ThreadStats.packets_sent stats -> ThreadStats.packets_sent stats + n < 2 ^ 64 ->
    0 <= ThreadStats.send_errors stats -> ThreadStats.send_errors stats + n < 2 ^ 64 ->
    0 <= ThreadStats.dropped_packets stats ->
    ThreadStats.dropped_packets stats + 2 * n < 2 ^ 64 ->
    List.length published.1 = List.length attempts
    /\ ThreadStats.packets_sent stats'
       = ThreadStats.packets_sent stats + successes attempts
    /\ ThreadStats.send_errors stats'
       = ThreadStats.send_errors stats + (n - successes attempts)
    /\ ThreadStats.dropped_packets stats
       <= ThreadStats.dropped_packets stats'
       <= ThreadStats.dropped_packets stats + 2 * (n - successes attempts)
    /\ pub_sequence published.2 = wrap32 (pub_sequence self + successes attempts)
    /\ (forall (k : nat) (packet : list byte),
           published.1 !! k = Some packet ->
           (8 <= List.length packet)%nat
           /\ load_u32 packet 4
              = wrap32 (pub_sequence self + successes (take k attempts))).
Proof.
  induction attempts as [|a attempts IH]; intros self; cbn zeta;
    intros Hseq Hps Hpsmax Hse Hsemax Hdr Hdrmax.
  - cbn. unfold successes. cbn [List.filter List.length Z.of_nat].
    rewrite !Z.add_0_r, wrap32_small by exact Hseq.
    split; [reflexivity|]. split; [lia|]. split; [lia|]. split; [lia|].
    split; [reflexivity|]. intros k packet Hk. destruct k; discriminate.
  - cbn [List.length] in Hpsmax, Hsemax, Hdrmax |- *.
    rewrite Nat2Z.inj_succ in Hpsmax, Hsemax, Hdrmax |- *.
    rewrite successes_cons. pose proof (successes_range attempts) as Hrange.
    destruct (publisher_packet_layout (at_packet_size a)
                (wrap8 (1 + pub_sequence self mod 5)) (wrap8 (thread_id + 1))
                (pub_sequence self) (at_random a)) as (_ & _ & _ & Hload & Hlength).
    fold (thread_packet thread_id (pub_sequence self) (at_packet_size a) (at_random a))
      in Hload, Hlength.
    rewrite wrap32_small in Hload by exact Hseq.
    cbn [publisher_run]. unfold publisher_iteration. fold (both_sent a).
    destruct (both_sent a) eqn:Hboth.
    + match goal with
      | |- context [publisher_run thread_id attempts ?s] => set (self1 := s)
      end.
      specialize (IH self1). cbn zeta in IH.
      destruct (publisher_run thread_id attempts self1) as [packets self2].
      cbn [fst snd] in IH |- *.
      subst self1. cbn [pub_sequence pub_stats ThreadStats.packets_sent
                        ThreadStats.send_errors ThreadStats.dropped_packets] in IH.
      rewrite u64_incr_small in IH by lia.
      destruct IH as (Hlen & Hp & He & Hd & Hs & Hpackets); try lia.
      { apply wrap32_is_u32. }
      unfold u32_add in Hs, Hpackets. rewrite wrap32_add_l in Hs.
      split; [cbn [List.length]; lia|]. split; [lia|]. split; [lia|]. split; [lia|].
      split; [rewrite Hs; f_equal; lia|].
      intros [|k] packet Hk.
      * injection Hk as <-. split; [lia|].
        cbn [take]. unfold successes. cbn [List.filter List.length Z.of_nat].
        rewrite Z.add_0_r, wrap32_small by exact Hseq. exact Hload.
      * cbn [lookup list_lookup] in Hk. destruct (Hpackets k packet Hk) as [Hl Hq].
        split; [exact Hl|]. rewrite Hq, wrap32_add_l. cbn [take].
        rewrite successes_cons, Hboth. f_equal. lia.
    + match goal with
      | |- context [publisher_run thread_id attempts ?s] => set (self1 := s)
      end.
      specialize (IH self1). cbn zeta in IH.
      destruct (publisher_run thread_id attempts self1) as [packets self2].
      cbn [fst snd] in IH |- *.
      subst self1. cbn [pub_sequence pub_stats ThreadStats.packets_sent
                        ThreadStats.send_errors ThreadStats.dropped_packets] in IH.
      rewrite u64_incr_small in IH by lia.
      set (dropped1 := if (at_result2 a =? -1) && (at_errno a =? EAGAIN) then _ else _) in *.
      assert (Hdropped : ThreadStats.dropped_packets (pub_stats self) <= dropped1
                         <= ThreadStats.dropped_packets (pub_stats self) + 2).
      { subst dropped1.
        destruct ((at_result1 a =? -1) && (at_errno a =? EAGAIN)),
                 ((at_result2 a =? -1) && (at_errno a =? EAGAIN));
          rewrite ?u64_incr_small; rewrite ?u64_incr_small; lia. }
      destruct IH as (Hlen & Hp & He & Hd & Hs & Hpackets); try lia; [exact Hseq|].
      split; [cbn [List.length]; lia|]. split; [lia|]. split; [lia|]. split; [lia|].
      split; [rewrite Hs; f_equal; lia|].
      intros [|k] packet Hk.
      * injection Hk as <-. split; [lia|].
        cbn [take]. unfold successes. cbn [List.filter List.length Z.of_nat].
        rewrite Z.add_0_r, wrap32_small by exact Hseq. exact Hload.
      * cbn [lookup list_lookup] in Hk. destruct (Hpackets k packet Hk) as [Hl Hq].
        split; [exact Hl|]. rewrite Hq. cbn [take].
        rewrite successes_cons, Hboth. f_equal.
Qed.

(** X27. The bookkeeping of a publisher thread over any run of fewer than
    2^62 iterations: every iteration hands a packet of at least 8 bytes to
    the sockets and is counted either in [packets_sent] (both sends
    succeeded) or in [send_errors]; [dropped_packets] is at most twice
    [send_errors]; [sequence] is the start [thread_id * 10000000] plus
    [packets_sent], modulo 2^32; and each packet carries the start plus the
    number of earlier iterations that succeeded, so after a failed iteration
    the next packet repeats the sequence, also on a socket whose send had
    succeeded. *)
Theorem publisher_bookkeeping (thread_id : Z) (attempts : list Attempt) :
  Z.of_nat (List.length attempts) < 2 ^ 62 ->
  let start := wrap32 (thread_id * 10000000) in
  let n := Z.of_nat (List.length attempts) in
  let published := publisher_run thread_id attempts (Publisher_init thread_id) in
  let stats := pub_stats published.2 in
  List.length published.1 = List.length attempts
  /\ ThreadStats.packets_sent stats = successes attempts
  /\ ThreadStats.packets_sent stats + ThreadStats.send_errors stats = n
  /\ 0 <= ThreadStats.dropped_packets stats <= 2 * ThreadStats.send_errors stats
  /\ pub_sequence published.2 = wrap32 (start + ThreadStats.packets_sent stats)
  /\ (forall (k : nat) (packet : list byte),
         published.1 !! k = Some packet ->
         (8 <= List.length packet)%nat
         /\ load_u32 packet 4 = wrap32 (start + successes (take k attempts))).
Proof.
  intros Hn. cbn zeta.
  destruct (publisher_run_inv thread_id attempts (Publisher_init thread_id))
    as (Hlen & Hp & He & Hd & Hs & Hpackets);
    cbn [Publisher_init pub_sequence pub_stats ThreadStats.packets_sent
         ThreadStats.send_errors ThreadStats.dropped_packets]; try lia.
  { apply wrap32_is_u32. }
  cbn [Publisher_init pub_sequence pub_stats ThreadStats.packets_sent
       ThreadStats.send_errors ThreadStats.dropped_packets] in Hp, He, Hd, Hs, Hpackets.
  rewrite Hp, He. rewrite Z.add_0_l.
  split; [exact Hlen|]. split; [reflexivity|]. split; [lia|]. split; [lia|].
  split; [exact Hs|exact Hpackets].
Qed.

Lemma publisher_bookkeeping_witness :
  pub_sequence
    (publisher_run 1
       [ {| at_packet_size := 40; at_random := repeat x00 32; at_result1 := 40;
            at_result2 := -1; at_errno := 11 |};
         {| at_packet_size := 40; at_random := repeat x00 32; at_result1 := 40;
            at_result2 := 40; at_errno := 0 |} ]
       (Publisher_init 1)).2
  = 10000001.
Proof.
  refine (proj1 (proj2 (proj2 (proj2 (proj2
    (publisher_bookkeeping 1
       [ {| at_packet_size := 40; at_random := repeat x00 32; at_result1 := 40;
            at_result2 := -1; at_errno := 11 |};
         {| at_packet_size := 40; at_random := repeat x00 32; at_result1 := 40;
            at_result2 := 40; at_errno := 0 |} ] _)))))).
  cbn. lia.
Defined.

(** ** A publisher thread's stream through the receiver's tracker *)








